(** * Schedly booking engine: availability resolution, slot generation,
      conflict detection and the appointment transitions they gate.

    The development embeds [BookingService] (services/api/src/services/
    booking.service.ts) and proves properties of its availability and
    booking paths.

    Modelling conventions.
    - A Luxon [DateTime] and a JS [Date] are the instant they denote, in
      epoch milliseconds ([Z]); comparison of two of them compares those.
      Where the service can build an invalid DateTime ([set] in
      [intervalFromStrings], [plus] in the slot loop) validity is tested
      as Luxon tests it ([Luxon.isValid]).
    - A business timezone is a zone of fixed UTC offset, given in minutes
      (Asia/Tokyo, the schema default, is 540; UTC is 0).  Zones with
      daylight-saving transitions are outside the model.
    - An ISO string handed to [DateTime.fromISO] is represented by the
      instant it parses to, [None] when the result is an invalid DateTime.
    - The Prisma store is a record of tables, each a list in insertion
      order; [findUnique]/[findFirst] return the first matching row. *)

From Stdlib Require Import ZArith List String Ascii Bool Lia DecimalString.
From Stdlib Require Import Sorted DecimalN.
Import ListNotations.

Local Open Scope Z_scope.

(** ** JavaScript values used by the service *)

Module Js.

(** Truthiness of a [string] used as a condition. *)
Definition truthy (s : string) : bool := negb (String.eqb s "").

(** Truthiness of a [string | null | undefined]. *)
Definition truthy_opt (s : option string) : bool :=
  match s with
  | Some x => truthy x
  | None => false
  end.

(** [a !== b] on optional strings. *)
Definition opt_eqb (a b : option string) : bool :=
  match a, b with
  | Some x, Some y => String.eqb x y
  | None, None => true
  | _, _ => false
  end.

(** A number, or the [undefined] that array destructuring gives for a
    missing element.  A finite double is written [Num m e] for
    [m * 2^e]. *)
Inductive num : Type :=
| Undefined
| NaN
| Infinity (negative : bool)
| Num (m e : Z).

(** [Number.isNaN]: true on [NaN] only, in particular false on
    [undefined]. *)
Definition isNaN (v : num) : bool :=
  match v with
  | NaN => true
  | _ => false
  end.

(** [s.split(":")]. *)
Fixpoint split_colon_aux (acc : string) (s : string) : list string :=
  match s with
  | EmptyString => [acc]
  | String c rest =>
      if Ascii.eqb c ":"%char
      then acc :: split_colon_aux EmptyString rest
      else split_colon_aux (acc ++ String c EmptyString)%string rest
  end.

Definition split_colon (s : string) : list string :=
  split_colon_aux EmptyString s.

(** *** Rounding to a double *)

(** 2^53: every integer up to it in magnitude is a double. *)
Definition TWO53 : Z := 9007199254740992.

(** The double nearest to [p / q], for positive [p] and [q], ties to
    even, with the sign asked for; an infinity beyond the largest
    double. *)
Definition round_ratio (negative : bool) (p q : Z) : num :=
  let e0 := Z.log2 p - Z.log2 q in
  let reached := if 0 <=? e0 then q * 2 ^ e0 <=? p
                 else q <=? p * 2 ^ (- e0) in
  let exponent := if reached then e0 else e0 - 1 in
  let k := Z.max (exponent - 52) (-1074) in
  let n := if 0 <=? k then p else p * 2 ^ (- k) in
  let d := if 0 <=? k then q * 2 ^ k else q in
  let m := n / d in
  let r := n mod d in
  let m' := if (d <? 2 * r) || ((d =? 2 * r) && Z.odd m)
            then m + 1 else m in
  if (971 <? k) || ((k =? 971) && (2 ^ 53 <=? m'))
  then Infinity negative
  else Num (if negative then - m' else m') k.

(** The double nearest to the integer [x], as an integer; [None] is an
    infinity. *)
Definition round_int (x : Z) : option Z :=
  let a := Z.abs x in
  if a <=? TWO53 then Some x
  else
    let k := Z.log2 a - 52 in
    let m := a / 2 ^ k in
    let r := a mod 2 ^ k in
    let m' := if (2 ^ k <? 2 * r) || ((2 ^ k =? 2 * r) && Z.odd m)
              then m + 1 else m in
    if 2 ^ 1024 <=? m' * 2 ^ k then None
    else Some (Z.sgn x * (m' * 2 ^ k)).

(** [ToIntegerOrInfinity] on a number that is not NaN: the value
    truncated towards zero, [None] for an infinity. *)
Definition ToIntegerOrInfinity (v : num) : option Z :=
  match v with
  | Num m e =>
      Some (if e =? 0 then m
            else if 0 <? e then m * 2 ^ e
            else Z.quot m (2 ^ (- e)))
  | _ => None
  end.

(** [MakeTime(hour, min, 0, 0)] of ECMAScript's [Date], on integers:
    [hour * msPerHour + min * msPerMinute] in double arithmetic; [None]
    when the result is not finite. *)
Definition MakeTime (hour minute : Z) : option Z :=
  match round_int (hour * 3600000), round_int (minute * 60000) with
  | Some a, Some b => round_int (a + b)
  | _, _ => None
  end.

(** *** [Number(s)] on a string *)

(** A string is the UTF-8 encoding of its text. *)
Definition byte (c : ascii) : Z := Z.of_nat (nat_of_ascii c).

(** The rest of [s] after one white space or line terminator (TAB, LF,
    VT, FF, CR, SP, U+00A0, U+1680, U+2000 to U+200A, U+2028, U+2029,
    U+202F, U+205F, U+3000, U+FEFF), when [s] starts with one. *)
Definition skip_space (s : string) : option string :=
  match s with
  | EmptyString => None
  | String c1 r1 =>
      let b1 := byte c1 in
      if ((9 <=? b1) && (b1 <=? 13)) || (b1 =? 32) then Some r1
      else
        match r1 with
        | EmptyString => None
        | String c2 r2 =>
            let b2 := byte c2 in
            if (b1 =? 194) && (b2 =? 160) then Some r2
            else
              match r2 with
              | EmptyString => None
              | String c3 r3 =>
                  let b3 := byte c3 in
                  if (b1 =? 225) && (b2 =? 154) && (b3 =? 128)
                  then Some r3
                  else if (b1 =? 226) && (b2 =? 128)
                          && (((128 <=? b3) && (b3 <=? 138))
                              || (b3 =? 168) || (b3 =? 169) || (b3 =? 175))
                  then Some r3
                  else if (b1 =? 226) && (b2 =? 129) && (b3 =? 159)
                  then Some r3
                  else if (b1 =? 227) && (b2 =? 128) && (b3 =? 128)
                  then Some r3
                  else if (b1 =? 239) && (b2 =? 187) && (b3 =? 191)
                  then Some r3
                  else None
              end
        end
  end.

(** [s] without its leading white space; [fuel] bounds the code points
    skipped. *)
Fixpoint trim_start (fuel : nat) (s : string) : string :=
  match fuel with
  | O => s
  | S fuel' =>
      match skip_space s with
      | Some rest => trim_start fuel' rest
      | None => s
      end
  end.

(** [s] is white space only. *)
Definition all_space (s : string) : bool :=
  String.eqb (trim_start (String.length s) s) "".

(** The value of [c] as a digit of [base], up to 16. *)
Definition digit_of (base : Z) (c : ascii) : option Z :=
  let b := byte c in
  let v := if (48 <=? b) && (b <=? 57) then b - 48
           else if (97 <=? b) && (b <=? 102) then b - 87
           else if (65 <=? b) && (b <=? 70) then b - 55
           else 16 in
  if v <? base then Some v else None.

(** The longest prefix of [s] made of digits of [base]: its value after
    [acc], the number of digits read after [count], and the rest. *)
Fixpoint read_digits (base acc count : Z) (s : string) : Z * Z * string :=
  match s with
  | EmptyString => (acc, count, s)
  | String c rest =>
      match digit_of base c with
      | Some d => read_digits base (base * acc + d) (count + 1) rest
      | None => (acc, count, s)
      end
  end.

(** An optional [ExponentPart] at the head of [s]: its value (0 when
    there is none) and the rest; [None] when an exponent indicator is
    followed by no digit. *)
Definition read_exponent (s : string) : option (Z * string) :=
  match s with
  | String c rest =>
      if (byte c =? 101) || (byte c =? 69) then
        let '(negative, rest1) :=
          match rest with
          | String s1 r =>
              if byte s1 =? 43 then (false, r)
              else if byte s1 =? 45 then (true, r)
              else (false, rest)
          | EmptyString => (false, rest)
          end in
        let '(v, n, rest2) := read_digits 10 0 0 rest1 in
        if n =? 0 then None
        else Some (if negative then - v else v, rest2)
      else Some (0, s)
  | EmptyString => Some (0, s)
  end.

(** The double of the decimal [n * 10^ex], for [0 <= n]. *)
Definition of_decimal (negative : bool) (n ex : Z) : num :=
  if n =? 0 then Num 0 0
  else if (ex =? 0) && (n <=? TWO53) then Num (if negative then - n else n) 0
  else if 400 <? ex then Infinity negative
  else if ex <? - (402 + Z.log2 n) then Num 0 0
  else if 0 <=? ex then round_ratio negative (n * 10 ^ ex) 1
  else round_ratio negative n (10 ^ (- ex)).

(** [StrUnsignedDecimalLiteral] followed by white space only. *)
Definition unsigned_decimal (negative : bool) (s : string) : num :=
  if String.prefix "Infinity" s then
    if all_space (String.substring 8 (String.length s - 8) s)
    then Infinity negative else NaN
  else
    let '(whole, n1, rest1) := read_digits 10 0 0 s in
    let '(mantissa, n2, rest2) :=
      match rest1 with
      | String c r =>
          if byte c =? 46 then read_digits 10 whole 0 r
          else (whole, 0, rest1)
      | EmptyString => (whole, 0, rest1)
      end in
    if (n1 =? 0) && (n2 =? 0) then NaN
    else
      match read_exponent rest2 with
      | None => NaN
      | Some (ex, rest3) =>
          if all_space rest3 then of_decimal negative mantissa (ex - n2)
          else NaN
      end.

(** [NonDecimalIntegerLiteral] of [base], after its prefix, followed by
    white space only. *)
Definition non_decimal (base : Z) (s : string) : num :=
  let '(v, n, rest) := read_digits base 0 0 s in
  if (n =? 0) || negb (all_space rest) then NaN
  else if v <=? TWO53 then Num v 0
  else round_ratio false v 1.

(** [Number(s)]: white space is trimmed at both ends; the empty string
    is 0; a signed decimal literal (with fraction and exponent, or
    [Infinity]) or an unsigned binary, octal or hexadecimal integer is
    its value rounded to the nearest double; everything else is NaN.
    (ECMAScript lets an implementation round a decimal literal of more
    than 20 significant digits from its first 20; the rounding here is
    the exact one, as in V8.) *)
Definition Number (s : string) : num :=
  match trim_start (String.length s) s with
  | EmptyString => Num 0 0
  | String c1 r1 as t =>
      if byte c1 =? 43 then unsigned_decimal false r1
      else if byte c1 =? 45 then unsigned_decimal true r1
      else
        match r1 with
        | String c2 r2 =>
            if byte c1 =? 48 then
              if (byte c2 =? 120) || (byte c2 =? 88) then non_decimal 16 r2
              else if (byte c2 =? 111) || (byte c2 =? 79)
              then non_decimal 8 r2
              else if (byte c2 =? 98) || (byte c2 =? 66)
              then non_decimal 2 r2
              else unsigned_decimal false t
            else unsigned_decimal false t
        | EmptyString => unsigned_decimal false t
        end
  end.

(** [const [a, b] = parts.map((v) => Number(v))]. *)
Definition destructure2 (parts : list string) : num * num :=
  match parts with
  | [] => (Undefined, Undefined)
  | [a] => (Number a, Undefined)
  | a :: b :: _ => (Number a, Number b)
  end.

End Js.

(** ** Luxon date arithmetic *)

Module Luxon.

Definition DateTime := Z.
Definition Zone := Z.

Definition MS_PER_MINUTE : Z := 60000.
Definition MS_PER_HOUR : Z := 3600000.
Definition MS_PER_DAY : Z := 86400000.

(** [dt.plus({ minutes: n })] and [dt.minus({ minutes: n })] on a valid
    [dt]: Luxon adds the milliseconds to the timestamp.  Whether the
    result is a valid DateTime is [isValid] of it, below. *)
Definition plus_minutes (dt : DateTime) (n : Z) : DateTime :=
  dt + n * MS_PER_MINUTE.

Definition minus_minutes (dt : DateTime) (n : Z) : DateTime :=
  dt - n * MS_PER_MINUTE.

(** [dt.plus({ days: n })] in a zone of fixed offset. *)
Definition plus_days (dt : DateTime) (n : Z) : DateTime :=
  dt + n * MS_PER_DAY.

(** Number of the civil day of [dt] in [zone], counted from
    1970-01-01. *)
Definition day_number (zone : Zone) (dt : DateTime) : Z :=
  (dt + zone * MS_PER_MINUTE) / MS_PER_DAY.

(** [dt.setZone(zone).startOf("day")]. *)
Definition startOfDay (zone : Zone) (dt : DateTime) : DateTime :=
  day_number zone dt * MS_PER_DAY - zone * MS_PER_MINUTE.

(** [dt.weekday]: ISO weekday, 1 (Monday) to 7 (Sunday); 1970-01-01 was
    a Thursday. *)
Definition weekday (zone : Zone) (dt : DateTime) : Z :=
  (day_number zone dt + 3) mod 7 + 1.

(** The largest magnitude of the time value of a JS [Date]. *)
Definition MAX_DATE : Z := 8640000000000000.

(** [dt.isValid] for the DateTime of timestamp [dt] in [zone].  Luxon
    reads the local fields of a DateTime off the JS [Date] of its local
    time, the timestamp moved by the zone's offset, and the DateTime is
    invalid when that [Date] is.  An invalid DateTime stays invalid under
    [plus], [set] and [setZone], and its value in a comparison is NaN. *)
Definition isValid (zone : Zone) (dt : DateTime) : bool :=
  Z.abs (dt + zone * MS_PER_MINUTE) <=? MAX_DATE.

(** [a <= b] on two DateTimes of [zone]: false when either is invalid. *)
Definition leq (zone : Zone) (a b : DateTime) : bool :=
  isValid zone a && isValid zone b && (a <=? b).

(** [dt.set({ hour, minute, second: 0, millisecond: 0 })] on a valid
    [dt]; [None] is an invalid DateTime.  Luxon merges the given units
    into the local fields of [dt] (a unit that is [undefined] is left as
    it is) and recomputes the timestamp with [Date.UTC], which truncates
    each unit and carries it with no range check, so an hour of 25 lands
    at 01:00 of the next day; the result is invalid when [Date.UTC]
    gives NaN: a unit that is not finite, or a local time outside the
    range of [Date].  The time of day is computed in double arithmetic
    ([Js.MakeTime]); added to the day of a valid [dt] it is compared
    with the range exactly, since a sum of 2^53 or more is out of range
    however it is rounded. *)
Definition set_hour_minute (zone : Zone) (dt : DateTime)
           (hour minute : Js.num) : option DateTime :=
  let day := day_number zone dt * MS_PER_DAY in
  let local := dt + zone * MS_PER_MINUTE - day in
  let unit (given : Js.num) (kept : Z) : option Z :=
    match given with
    | Js.Undefined => Some kept
    | _ => Js.ToIntegerOrInfinity given
    end in
  match unit hour (local / MS_PER_HOUR),
        unit minute ((local mod MS_PER_HOUR) / MS_PER_MINUTE) with
  | Some h, Some m =>
      match Js.MakeTime h m with
      | Some time =>
          if Z.abs (day + time) <=? MAX_DATE
          then Some (day + time - zone * MS_PER_MINUTE)
          else None
      | None => None
      end
  | _, _ => None
  end.

End Luxon.

Import Luxon.

(** ** Data model (Prisma schema) *)

Inductive AppointmentStatus : Type :=
| BOOKED
| CONFIRMED
| CANCELLED
| COMPLETED.

Definition AppointmentStatus_eqb (a b : AppointmentStatus) : bool :=
  match a, b with
  | BOOKED, BOOKED | CONFIRMED, CONFIRMED
  | CANCELLED, CANCELLED | COMPLETED, COMPLETED => true
  | _, _ => false
  end.

Inductive UserRole : Type :=
| BUSINESS_OWNER
| STAFF.

Record UserClient : Type := mkUserClient {
  uc_id : string;
  uc_email : string;
  uc_phone : option string
}.

Record UserBusiness : Type := mkUserBusiness {
  ub_id : string;
  ub_email : string;
  ub_phone : option string;
  ub_role : UserRole
}.

Record Business : Type := mkBusiness {
  b_id : string;
  b_ownerId : string;
  b_name : string;
  b_timezone : Zone
}.

Record Service : Type := mkService {
  s_id : string;
  s_businessId : string;
  s_durationMin : Z;
  s_priceYen : Z;
  s_isActive : bool
}.

Record AvailabilityRule : Type := mkRule {
  r_id : string;
  r_businessId : string;
  r_dayOfWeek : Z;
  r_startTime : string;
  r_endTime : string
}.

Record AvailabilityException : Type := mkException {
  e_id : string;
  e_businessId : string;
  e_date : DateTime;
  e_isClosed : bool;
  e_startTime : option string;
  e_endTime : option string
}.

Record Appointment : Type := mkAppointment {
  a_id : string;
  a_businessId : string;
  a_serviceId : string;
  a_customerId : string;
  a_staffId : option string;
  a_startAt : DateTime;
  a_endAt : DateTime;
  a_customerNote : option string;
  a_status : AppointmentStatus
}.

Record Interval : Type := mkInterval {
  i_start : DateTime;
  i_end : DateTime
}.

(** ** Conflict detector *)

(** [BookingService.overlaps].  [setZone] does not move the instant, so
    the zone argument plays no part in the comparison. *)
Definition overlaps (start end_ existingStart existingEnd : DateTime)
           (timezone : Zone)
           (targetStaffId existingStaffId : option string) : bool :=
  if Js.truthy_opt targetStaffId
     && (Js.truthy_opt existingStaffId
         && negb (Js.opt_eqb existingStaffId targetStaffId))
  then false
  else (start <? existingEnd) && (end_ >? existingStart).

(** A request or an appointment names a staff member when its staff
    identifier is present and not the empty string. *)
Definition names_staff (staffId : option string) : Prop :=
  Js.truthy_opt staffId = true.

(** Half-open interval overlap. *)
Definition time_overlap (s1 e1 s2 e2 : DateTime) : Prop :=
  s1 < e2 /\ e1 > s2.

(** ** Store and effects *)

(** The HTTP exceptions the service imports from the framework. *)
Inductive HttpException : Type :=
| NotFoundException (message : string)
| BadRequestException (message : string)
| ForbiddenException (message : string).



Record Store : Type := mkStore {
  userClients : list UserClient;
  userBusinesses : list UserBusiness;
  businesses : list Business;
  services : list Service;
  availabilityRules : list AvailabilityRule;
  availabilityExceptions : list AvailabilityException;
  appointments : list Appointment;
  nextId : N
}.

Definition emptyStore : Store := mkStore [] [] [] [] [] [] [] 0%N.

(** Computations over the store that may throw: the store is threaded
    through and returned also when an exception is raised. *)
Definition M (A : Type) : Type := Store -> (HttpException + A) * Store.

Definition ret {A : Type} (a : A) : M A := fun st => (inr a, st).

Definition bind {A B : Type} (c : M A) (k : A -> M B) : M B :=
  fun st =>
    match c st with
    | (inl e, st') => (inl e, st')
    | (inr a, st') => k a st'
    end.

Definition throw {A : Type} (e : HttpException) : M A :=
  fun st => (inl e, st).

Definition gets {A : Type} (f : Store -> A) : M A :=
  fun st => (inr (f st), st).

Definition modify (f : Store -> Store) : M unit :=
  fun st => (inr tt, f st).

Declare Scope booking_scope.
Delimit Scope booking_scope with booking.

Notation "x <- c ;; k" := (bind c (fun x => k))
  (at level 61, c at next level, right associativity) : booking_scope.
Notation "c ;;; k" := (bind c (fun _ => k))
  (at level 61, right associativity) : booking_scope.

Local Open Scope booking_scope.

(** [if (cond) throw e]. *)
Definition throw_if (cond : bool) (e : HttpException) : M unit :=
  if cond then throw e else ret tt.

(** Identifier given by the store to a created row. *)
Definition id_of_counter (n : N) : string :=
  ("id" ++ NilEmpty.string_of_uint (N.to_uint n))%string.

Definition freshId : M string :=
  fun st =>
    (inr (id_of_counter (nextId st)),
     mkStore (userClients st) (userBusinesses st) (businesses st)
             (services st) (availabilityRules st)
             (availabilityExceptions st) (appointments st)
             (N.succ (nextId st))).

(** Table writes. *)
Definition with_userClients (f : list UserClient -> list UserClient)
           (st : Store) : Store :=
  mkStore (f (userClients st)) (userBusinesses st) (businesses st)
          (services st) (availabilityRules st) (availabilityExceptions st)
          (appointments st) (nextId st).

Definition with_userBusinesses (f : list UserBusiness -> list UserBusiness)
           (st : Store) : Store :=
  mkStore (userClients st) (f (userBusinesses st)) (businesses st)
          (services st) (availabilityRules st) (availabilityExceptions st)
          (appointments st) (nextId st).

Definition with_businesses (f : list Business -> list Business)
           (st : Store) : Store :=
  mkStore (userClients st) (userBusinesses st) (f (businesses st))
          (services st) (availabilityRules st) (availabilityExceptions st)
          (appointments st) (nextId st).

Definition with_services (f : list Service -> list Service)
           (st : Store) : Store :=
  mkStore (userClients st) (userBusinesses st) (businesses st)
          (f (services st)) (availabilityRules st)
          (availabilityExceptions st) (appointments st) (nextId st).

Definition with_rules (f : list AvailabilityRule -> list AvailabilityRule)
           (st : Store) : Store :=
  mkStore (userClients st) (userBusinesses st) (businesses st)
          (services st) (f (availabilityRules st))
          (availabilityExceptions st) (appointments st) (nextId st).

Definition with_exceptions
           (f : list AvailabilityException -> list AvailabilityException)
           (st : Store) : Store :=
  mkStore (userClients st) (userBusinesses st) (businesses st)
          (services st) (availabilityRules st)
          (f (availabilityExceptions st)) (appointments st) (nextId st).

Definition with_appointments (f : list Appointment -> list Appointment)
           (st : Store) : Store :=
  mkStore (userClients st) (userBusinesses st) (businesses st)
          (services st) (availabilityRules st) (availabilityExceptions st)
          (f (appointments st)) (nextId st).

(** [prisma.<table>.findUnique({ where: { id } })]. *)
Definition findBusiness (id : string) : M (option Business) :=
  gets (fun st => find (fun b => String.eqb (b_id b) id) (businesses st)).

Definition findService (id : string) : M (option Service) :=
  gets (fun st => find (fun s => String.eqb (s_id s) id) (services st)).

Definition findUserClient (id : string) : M (option UserClient) :=
  gets (fun st => find (fun u => String.eqb (uc_id u) id) (userClients st)).

Definition findUserBusiness (id : string) : M (option UserBusiness) :=
  gets (fun st =>
          find (fun u => String.eqb (ub_id u) id) (userBusinesses st)).

Definition findAppointment (id : string) : M (option Appointment) :=
  gets (fun st => find (fun a => String.eqb (a_id a) id) (appointments st)).

Definition set_status (status : AppointmentStatus) (a : Appointment)
  : Appointment :=
  mkAppointment (a_id a) (a_businessId a) (a_serviceId a) (a_customerId a)
                (a_staffId a) (a_startAt a) (a_endAt a) (a_customerNote a)
                status.

(** [prisma.appointment.update({ where: { id }, data: { status } })]:
    rewrites the row that [findUnique] returns. *)
Fixpoint update_status (id : string) (status : AppointmentStatus)
         (rows : list Appointment) : list Appointment :=
  match rows with
  | [] => []
  | a :: rest =>
      if String.eqb (a_id a) id
      then set_status status a :: rest
      else a :: update_status id status rest
  end.

(** ** Business access *)

(** [assertBusinessAccess(businessId, actorId?)]. *)
Definition assertBusinessAccess (businessId : string)
           (actorId : option string) : M Business :=
  business <- findBusiness businessId ;;
  match business with
  | None => throw (NotFoundException "Negocio no encontrado")
  | Some b =>
      throw_if (Js.truthy_opt actorId
                && negb (Js.opt_eqb (Some (b_ownerId b)) actorId))
               (ForbiddenException
                  "Solo el propietario puede modificar el negocio") ;;;
      ret b
  end.

(** ** Time and interval utilities *)

(** [intervalFromStrings(day, timezone, startTime, endTime)].  [day] is a
    valid DateTime of zone [timezone]. *)
Definition intervalFromStrings (day : DateTime) (timezone : Zone)
           (startTime endTime : string) : option Interval :=
  let '(startHour, startMinute) := Js.destructure2 (Js.split_colon startTime) in
  let '(endHour, endMinute) := Js.destructure2 (Js.split_colon endTime) in
  if Js.isNaN startHour || Js.isNaN startMinute
     || Js.isNaN endHour || Js.isNaN endMinute
  then None
  else
    match set_hour_minute timezone day startHour startMinute,
          set_hour_minute timezone day endHour endMinute with
    | Some start, Some end_ =>
        if end_ <=? start then None else Some (mkInterval start end_)
    | _, _ => None
    end.

(** The time of day, in milliseconds after midnight, to which [set]
    moves a DateTime that is at midnight when given [hour] and [minute];
    [None] when a unit is NaN or not finite, so that the result is
    invalid on every day. *)
Definition clockTime (hour minute : Js.num) : option Z :=
  match (match hour with
         | Js.Undefined => Some 0
         | _ => Js.ToIntegerOrInfinity hour
         end),
        (match minute with
         | Js.Undefined => Some 0
         | _ => Js.ToIntegerOrInfinity minute
         end) with
  | Some h, Some m => Js.MakeTime h m
  | _, _ => None
  end.

(** The same for the hour and minute written in a time string. *)
Definition clockOf (time : string) : option Z :=
  let '(hour, minute) := Js.destructure2 (Js.split_colon time) in
  clockTime hour minute.

(** The interval from clock time [a] to clock time [b] on the day that
    starts at [midnight]: none when one end is an invalid DateTime
    there. *)
Definition onDay (timezone : Zone) (midnight : DateTime) (a b : Z)
  : option Interval :=
  if isValid timezone (midnight + a) && isValid timezone (midnight + b)
  then Some (mkInterval (midnight + a) (midnight + b))
  else None.

(** [DateTime.fromISO("2020-01-01")] in the zone of the server, taken to
    be UTC. *)
Definition fakeDay : DateTime := 1577836800000.

(** [assertValidTimeRange(startTime, endTime)]. *)
Definition assertValidTimeRange (startTime endTime : string) : M unit :=
  match intervalFromStrings fakeDay 0 startTime endTime with
  | None => throw (BadRequestException "Rango de horario inválido")
  | Some _ => ret tt
  end.

(** ** Accounts, businesses, services *)

Record CreateClientInput : Type := mkCreateClientInput {
  cci_email : string;
  cci_phone : option string
}.

Record CreateBusinessUserInput : Type := mkCreateBusinessUserInput {
  cbui_email : string;
  cbui_phone : option string;
  cbui_role : option UserRole
}.

(** Unique index on a nullable column: two rows clash when both hold the
    same non-null value. *)
Definition same_phone (p q : option string) : bool :=
  match p, q with
  | Some x, Some y => String.eqb x y
  | _, _ => false
  end.

(** [createClient]: the unique indexes on email and phone make the insert
    fail with P2002, rethrown as a bad request.  The password hash is not
    part of the model. *)
Definition createClient (input : CreateClientInput) : M UserClient :=
  clash <- gets (fun st =>
             existsb (fun u => String.eqb (uc_email u) (cci_email input)
                               || same_phone (uc_phone u) (cci_phone input))
                     (userClients st)) ;;
  throw_if clash
    (BadRequestException "Cliente ya existe con el mismo email o teléfono") ;;;
  id <- freshId ;;
  let row := mkUserClient id (cci_email input) (cci_phone input) in
  modify (with_userClients (fun rows => rows ++ [row])) ;;;
  ret row.

(** [createBusinessUser]. *)
Definition createBusinessUser (input : CreateBusinessUserInput)
  : M UserBusiness :=
  clash <- gets (fun st =>
             existsb (fun u => String.eqb (ub_email u) (cbui_email input)
                               || same_phone (ub_phone u) (cbui_phone input))
                     (userBusinesses st)) ;;
  throw_if clash
    (BadRequestException
       "Usuario de negocio ya existe con el mismo email o teléfono") ;;;
  id <- freshId ;;
  let role := match cbui_role input with
              | Some r => r
              | None => BUSINESS_OWNER
              end in
  let row := mkUserBusiness id (cbui_email input) (cbui_phone input) role in
  modify (with_userBusinesses (fun rows => rows ++ [row])) ;;;
  ret row.

Record CreateBusinessInput : Type := mkCreateBusinessInput {
  cbi_ownerId : string;
  cbi_name : string;
  cbi_timezone : option Zone
}.

(** Offset of Asia/Tokyo, in minutes. *)
Definition ASIA_TOKYO : Zone := 540.

(** [createBusiness]. *)
Definition createBusiness (input : CreateBusinessInput) : M Business :=
  owner <- findUserBusiness (cbi_ownerId input) ;;
  match owner with
  | None => throw (NotFoundException "Propietario de negocio no encontrado")
  | Some o =>
      match ub_role o with
      | STAFF =>
          throw (ForbiddenException "Solo un propietario puede crear negocios")
      | BUSINESS_OWNER =>
          id <- freshId ;;
          let tz := match cbi_timezone input with
                    | Some z => z
                    | None => ASIA_TOKYO
                    end in
          let row := mkBusiness id (cbi_ownerId input) (cbi_name input) tz in
          modify (with_businesses (fun rows => rows ++ [row])) ;;;
          ret row
      end
  end.

Record CreateServiceInput : Type := mkCreateServiceInput {
  csi_durationMin : Z;
  csi_priceYen : Z;
  csi_isActive : option bool
}.

(** [createService]. *)
Definition createService (businessId : string) (input : CreateServiceInput)
           (actorId : option string) : M Service :=
  assertBusinessAccess businessId actorId ;;;
  id <- freshId ;;
  let row := mkService id businessId (csi_durationMin input)
                       (csi_priceYen input)
                       (match csi_isActive input with
                        | Some b => b
                        | None => true
                        end) in
  modify (with_services (fun rows => rows ++ [row])) ;;;
  ret row.

(** ** Availability rules and exceptions *)

Record AvailabilityRuleInput : Type := mkRuleInput {
  ari_dayOfWeek : Z;
  ari_startTime : string;
  ari_endTime : string
}.

(** [addAvailabilityRule]. *)
Definition addAvailabilityRule (businessId : string)
           (input : AvailabilityRuleInput) (actorId : option string)
  : M AvailabilityRule :=
  assertBusinessAccess businessId actorId ;;;
  throw_if ((ari_dayOfWeek input <? 0) || (ari_dayOfWeek input >? 6))
    (BadRequestException
       "dayOfWeek debe estar entre 0 (domingo) y 6 (sábado)") ;;;
  assertValidTimeRange (ari_startTime input) (ari_endTime input) ;;;
  id <- freshId ;;
  let row := mkRule id businessId (ari_dayOfWeek input)
                    (ari_startTime input) (ari_endTime input) in
  modify (with_rules (fun rows => rows ++ [row])) ;;;
  ret row.

Record AvailabilityExceptionInput : Type := mkExceptionInput {
  aei_date : option DateTime;
  aei_isClosed : option bool;
  aei_startTime : option string;
  aei_endTime : option string
}.

(** [!input.isClosed] on a [boolean | undefined]. *)
Definition not_closed (isClosed : option bool) : bool :=
  match isClosed with
  | Some true => false
  | _ => true
  end.

(** [addAvailabilityException]. *)
Definition addAvailabilityException (businessId : string)
           (input : AvailabilityExceptionInput) (actorId : option string)
  : M AvailabilityException :=
  business <- assertBusinessAccess businessId actorId ;;
  let timezone := b_timezone business in
  match aei_date input with
  | None => throw (BadRequestException "Fecha inválida")
  | Some date =>
      let day := startOfDay timezone date in
      (if not_closed (aei_isClosed input) then
         match aei_startTime input, aei_endTime input with
         | Some startTime, Some endTime =>
             if Js.truthy startTime && Js.truthy endTime
             then assertValidTimeRange startTime endTime
             else throw (BadRequestException
                    "startTime y endTime son requeridos cuando isClosed es false")
         | _, _ =>
             throw (BadRequestException
                    "startTime y endTime son requeridos cuando isClosed es false")
         end
       else ret tt) ;;;
      id <- freshId ;;
      let row := mkException id businessId day
                   (match aei_isClosed input with
                    | Some b => b
                    | None => true
                    end)
                   (aei_startTime input) (aei_endTime input) in
      modify (with_exceptions (fun rows => rows ++ [row])) ;;;
      ret row
  end.

(** ** Availability resolver *)

Record DailyContext : Type := mkDailyContext {
  ctx_business : Business;
  ctx_intervals : list Interval;
  ctx_appointments : list Appointment;
  ctx_day : DateTime;
  ctx_timezone : Zone
}.

(** [orderBy: { startTime: "asc" }]: a stable sort on the text column. *)
Fixpoint insert_rule (r : AvailabilityRule) (sorted : list AvailabilityRule)
  : list AvailabilityRule :=
  match sorted with
  | [] => [r]
  | x :: rest =>
      if String.ltb (r_startTime r) (r_startTime x)
      then r :: sorted
      else x :: insert_rule r rest
  end.

Definition orderByStartTime (rows : list AvailabilityRule)
  : list AvailabilityRule :=
  fold_left (fun acc r => insert_rule r acc) rows [].

(** [date: { gte: day, lt: day + 1 day }]. *)
Definition in_day (day : DateTime) (t : DateTime) : bool :=
  (day <=? t) && (t <? plus_days day 1).

(** The three reads of [getDailyContext]. *)
Definition rulesOf (st : Store) (businessId : string) (dayOfWeek : Z)
  : list AvailabilityRule :=
  orderByStartTime
    (filter (fun r => String.eqb (r_businessId r) businessId
                      && (r_dayOfWeek r =? dayOfWeek))
            (availabilityRules st)).

Definition exceptionOf (st : Store) (businessId : string) (day : DateTime)
  : option AvailabilityException :=
  find (fun e => String.eqb (e_businessId e) businessId
                 && in_day day (e_date e))
       (availabilityExceptions st).

Definition appointmentsOf (st : Store) (businessId : string) (day : DateTime)
  : list Appointment :=
  filter (fun a => String.eqb (a_businessId a) businessId
                   && in_day day (a_startAt a)
                   && negb (AppointmentStatus_eqb (a_status a) CANCELLED))
         (appointments st).

(** Rule-derived intervals: each rule converted, invalid ones dropped. *)
Fixpoint ruleIntervals (day : DateTime) (timezone : Zone)
         (rules : list AvailabilityRule) : list Interval :=
  match rules with
  | [] => []
  | rule :: rest =>
      match intervalFromStrings day timezone
                                (r_startTime rule) (r_endTime rule) with
      | Some i => i :: ruleIntervals day timezone rest
      | None => ruleIntervals day timezone rest
      end
  end.

(** The interval resolution at the end of [getDailyContext]. *)
Definition resolveIntervals (day : DateTime) (timezone : Zone)
           (rules : list AvailabilityRule)
           (exception : option AvailabilityException) : list Interval :=
  let intervals := ruleIntervals day timezone rules in
  match exception with
  | None => intervals
  | Some ex =>
      if e_isClosed ex then []
      else
        match e_startTime ex, e_endTime ex with
        | Some startTime, Some endTime =>
            if Js.truthy startTime && Js.truthy endTime then
              match intervalFromStrings day timezone startTime endTime with
              | Some override => [override]
              | None => []
              end
            else intervals
        | _, _ => intervals
        end
  end.

(** [day.weekday === 7 ? 0 : day.weekday]: the ISO weekday mapped to the
    rule convention, 0 for Sunday. *)
Definition dayOfWeekOf (timezone : Zone) (day : DateTime) : Z :=
  if weekday timezone day =? 7 then 0 else weekday timezone day.

(** [getDailyContext(businessId, date)]. *)
Definition getDailyContext (businessId : string) (date : option DateTime)
  : M DailyContext :=
  business <- findBusiness businessId ;;
  match business with
  | None => throw (NotFoundException "Negocio no encontrado")
  | Some b =>
      let timezone := b_timezone b in
      match date with
      | None => throw (BadRequestException "Fecha inválida")
      | Some d =>
          let day := startOfDay timezone d in
          let dayOfWeek := dayOfWeekOf timezone day in
          rules <- gets (fun st => rulesOf st businessId dayOfWeek) ;;
          exception <- gets (fun st => exceptionOf st businessId day) ;;
          appts <- gets (fun st => appointmentsOf st businessId day) ;;
          ret (mkDailyContext b
                 (resolveIntervals day timezone rules exception)
                 appts day timezone)
      end
  end.

(** ** Slot generator *)

Definition DEFAULT_STEP_MINUTES : Z := 15.

Record AvailabilityRequest : Type := mkAvailabilityRequest {
  req_date : option DateTime;
  req_serviceId : string;
  req_stepMinutes : option Z;
  req_staffId : option string
}.

Record Slot : Type := mkSlot {
  slot_startAt : DateTime;
  slot_endAt : DateTime
}.

Record Availability : Type := mkAvailability {
  av_date : DateTime;
  av_timezone : Zone;
  av_serviceDurationMin : Z;
  av_stepMinutes : Z;
  av_slots : list Slot
}.

(** [params.stepMinutes || DEFAULT_STEP_MINUTES]. *)
Definition stepOf (stepMinutes : option Z) : Z :=
  match stepMinutes with
  | Some n => if n =? 0 then DEFAULT_STEP_MINUTES else n
  | None => DEFAULT_STEP_MINUTES
  end.

(** [context.appointments.some((appt) => this.overlaps(...))]. *)
Definition hasConflict (start end_ : DateTime) (timezone : Zone)
           (staffId : option string) (appts : list Appointment) : bool :=
  existsb (fun appt => overlaps start end_ (a_startAt appt) (a_endAt appt)
                                timezone staffId (a_staffId appt))
          appts.

(** The cursor after one turn of the [while] loop. *)
Definition nextCursor (stepMinutes : Z) (cursor : DateTime) : DateTime :=
  plus_minutes cursor stepMinutes.

(** The condition of the [while] loop,
    [cursor.plus({ minutes: serviceDuration }) <= interval.end]: false as
    soon as the cursor, the candidate's end or the interval's end is an
    invalid DateTime. *)
Definition slotFits (timezone : Zone) (serviceDuration : Z)
           (intervalEnd cursor : DateTime) : bool :=
  isValid timezone cursor
  && leq timezone (plus_minutes cursor serviceDuration) intervalEnd.

Arguments slotFits : simpl never.

(** The [while] loop over one interval, from [cursor] on.  [fuel] bounds
    the number of turns; [None] means the bound was hit with the loop
    condition still true. *)
Fixpoint walkInterval (fuel : nat) (now : DateTime) (timezone : Zone)
         (serviceDuration stepMinutes : Z) (staffId : option string)
         (appts : list Appointment) (intervalEnd cursor : DateTime)
  : option (list Slot) :=
  if slotFits timezone serviceDuration intervalEnd cursor then
    match fuel with
    | O => None
    | S fuel' =>
        let candidateStart := cursor in
        let candidateEnd := plus_minutes cursor serviceDuration in
        let isPast := candidateStart <=? minus_minutes now 1 in
        let conflict :=
          hasConflict candidateStart candidateEnd timezone staffId appts in
        match walkInterval fuel' now timezone serviceDuration stepMinutes
                           staffId appts intervalEnd
                           (nextCursor stepMinutes cursor) with
        | None => None
        | Some later =>
            if negb isPast && negb conflict
            then Some (mkSlot candidateStart candidateEnd :: later)
            else Some later
        end
    end
  else Some [].

(** The [for] loop over the resolved intervals. *)
Fixpoint generateSlots (fuel : nat) (now : DateTime) (timezone : Zone)
         (serviceDuration stepMinutes : Z) (staffId : option string)
         (appts : list Appointment) (intervals : list Interval)
  : option (list Slot) :=
  match intervals with
  | [] => Some []
  | interval :: rest =>
      match walkInterval fuel now timezone serviceDuration stepMinutes
                         staffId appts (i_end interval) (i_start interval),
            generateSlots fuel now timezone serviceDuration stepMinutes
                          staffId appts rest with
      | Some here, Some later => Some (here ++ later)
      | _, _ => None
      end
  end.

(** [getAvailability(businessId, params)], with the clock reading [now]
    made an argument.  The result is [None] when the slot loop needs more
    than [fuel] turns on some interval. *)
Definition getAvailability (fuel : nat) (now : DateTime)
           (businessId : string) (params : AvailabilityRequest)
  : M (option Availability) :=
  context <- getDailyContext businessId (req_date params) ;;
  service <- findService (req_serviceId params) ;;
  match service with
  | None => throw (NotFoundException "Servicio no encontrado")
  | Some svc =>
      throw_if (negb (String.eqb (s_businessId svc) businessId))
        (BadRequestException "El servicio no pertenece al negocio") ;;;
      let serviceDuration := s_durationMin svc in
      let stepMinutes := stepOf (req_stepMinutes params) in
      ret (option_map
             (mkAvailability (ctx_day context) (ctx_timezone context)
                             serviceDuration stepMinutes)
             (generateSlots fuel now (ctx_timezone context) serviceDuration
                            stepMinutes (req_staffId params)
                            (ctx_appointments context)
                            (ctx_intervals context)))
  end.

(** ** Appointment scheduler *)

Record CreateAppointmentInput : Type := mkCreateAppointmentInput {
  cai_businessId : string;
  cai_serviceId : string;
  cai_startAt : option DateTime;
  cai_staffId : option string;
  cai_customerNote : option string
}.

(** [context.intervals.some((interval) => start >= interval.start &&
    end <= interval.end)]. *)
Definition fitsAvailability (start end_ : DateTime)
           (intervals : list Interval) : bool :=
  existsb (fun interval => (start >=? i_start interval)
                           && (end_ <=? i_end interval))
          intervals.

(** [createAppointment(input, customerId)]. *)
Definition createAppointment (input : CreateAppointmentInput)
           (customerId : string) : M Appointment :=
  business <- findBusiness (cai_businessId input) ;;
  service <- findService (cai_serviceId input) ;;
  customer <- findUserClient customerId ;;
  match business with
  | None => throw (NotFoundException "Negocio no encontrado")
  | Some b =>
  match service with
  | None => throw (NotFoundException "Servicio no encontrado")
  | Some svc =>
      throw_if (negb (String.eqb (s_businessId svc) (cai_businessId input)))
        (BadRequestException
           "El servicio no pertenece al negocio indicado") ;;;
      throw_if (match customer with None => true | Some _ => false end)
        (NotFoundException "Cliente no encontrado") ;;;
      (if Js.truthy_opt (cai_staffId input) then
         staff <- findUserBusiness
                    (match cai_staffId input with
                     | Some s => s
                     | None => EmptyString
                     end) ;;
         throw_if (match staff with None => true | Some _ => false end)
           (NotFoundException "Staff no encontrado")
       else ret tt) ;;;
      let timezone := b_timezone b in
      match cai_startAt input with
      | None => throw (BadRequestException "Fecha de inicio inválida")
      | Some start =>
          let end_ := plus_minutes start (s_durationMin svc) in
          context <- getDailyContext (cai_businessId input)
                       (Some (startOfDay timezone start)) ;;
          throw_if (negb (fitsAvailability start end_
                            (ctx_intervals context)))
            (BadRequestException
               "Horario fuera de la disponibilidad del negocio") ;;;
          throw_if (hasConflict start end_ (ctx_timezone context)
                      (cai_staffId input) (ctx_appointments context))
            (BadRequestException "Existe otra cita en ese horario") ;;;
          id <- freshId ;;
          let created :=
            mkAppointment id (cai_businessId input) (cai_serviceId input)
                          customerId (cai_staffId input) start end_
                          (cai_customerNote input) BOOKED in
          modify (with_appointments (fun rows => rows ++ [created])) ;;;
          ret created
      end
  end
  end.

Inductive ActorKind : Type :=
| client
| business_.

Record Actor : Type := mkActor {
  actor_id : string;
  actor_kind : ActorKind
}.

(** [cancelAppointment(id, actor)]. *)
Definition cancelAppointment (id : string) (actor : Actor) : M Appointment :=
  appointment <- findAppointment id ;;
  match appointment with
  | None => throw (NotFoundException "Cita no encontrada")
  | Some appt =>
      if AppointmentStatus_eqb (a_status appt) CANCELLED then ret appt
      else
        throw_if (match actor_kind actor with
                  | client =>
                      negb (String.eqb (a_customerId appt) (actor_id actor))
                  | business_ => false
                  end)
          (ForbiddenException "Solo el cliente que reservó puede cancelar") ;;;
        (match actor_kind actor with
         | business_ =>
             assertBusinessAccess (a_businessId appt)
                                  (Some (actor_id actor)) ;;;
             ret tt
         | client => ret tt
         end) ;;;
        modify (with_appointments (update_status id CANCELLED)) ;;;
        ret (set_status CANCELLED appt)
  end.

(** ** Reachable stores *)

(** The writing operations of the service. *)
Inductive Operation : Type :=
| OpCreateClient (input : CreateClientInput)
| OpCreateBusinessUser (input : CreateBusinessUserInput)
| OpCreateBusiness (input : CreateBusinessInput)
| OpCreateService (businessId : string) (input : CreateServiceInput)
                  (actorId : option string)
| OpAddAvailabilityRule (businessId : string) (input : AvailabilityRuleInput)
                        (actorId : option string)
| OpAddAvailabilityException (businessId : string)
                             (input : AvailabilityExceptionInput)
                             (actorId : option string)
| OpCreateAppointment (input : CreateAppointmentInput) (customerId : string)
| OpCancelAppointment (id : string) (actor : Actor).

(** The store left by an operation, whether it returned or threw. *)
Definition exec (op : Operation) (st : Store) : Store :=
  match op with
  | OpCreateClient input => snd (createClient input st)
  | OpCreateBusinessUser input => snd (createBusinessUser input st)
  | OpCreateBusiness input => snd (createBusiness input st)
  | OpCreateService b input actor => snd (createService b input actor st)
  | OpAddAvailabilityRule b input actor =>
      snd (addAvailabilityRule b input actor st)
  | OpAddAvailabilityException b input actor =>
      snd (addAvailabilityException b input actor st)
  | OpCreateAppointment input customerId =>
      snd (createAppointment input customerId st)
  | OpCancelAppointment id actor => snd (cancelAppointment id actor st)
  end.

Definition execAll (ops : list Operation) (st : Store) : Store :=
  fold_left (fun s op => exec op s) ops st.

(** Stores reachable from the empty database, one request at a time. *)
Inductive reachable : Store -> Prop :=
| reachable_empty : reachable emptyStore
| reachable_exec : forall st op, reachable st -> reachable (exec op st).

(** ** Requests served concurrently *)

(** [createAppointment] awaits the store several times; the last await is
    [prisma.appointment.create].  [checkAppointment] is the part before
    it, which only reads: lookups, parse, availability and conflict
    tests.  It returns the start and end it has validated. *)
Definition checkAppointment (input : CreateAppointmentInput)
           (customerId : string) : M (DateTime * DateTime) :=
  business <- findBusiness (cai_businessId input) ;;
  service <- findService (cai_serviceId input) ;;
  customer <- findUserClient customerId ;;
  match business with
  | None => throw (NotFoundException "Negocio no encontrado")
  | Some b =>
  match service with
  | None => throw (NotFoundException "Servicio no encontrado")
  | Some svc =>
      throw_if (negb (String.eqb (s_businessId svc) (cai_businessId input)))
        (BadRequestException
           "El servicio no pertenece al negocio indicado") ;;;
      throw_if (match customer with None => true | Some _ => false end)
        (NotFoundException "Cliente no encontrado") ;;;
      (if Js.truthy_opt (cai_staffId input) then
         staff <- findUserBusiness
                    (match cai_staffId input with
                     | Some s => s
                     | None => EmptyString
                     end) ;;
         throw_if (match staff with None => true | Some _ => false end)
           (NotFoundException "Staff no encontrado")
       else ret tt) ;;;
      let timezone := b_timezone b in
      match cai_startAt input with
      | None => throw (BadRequestException "Fecha de inicio inválida")
      | Some start =>
          let end_ := plus_minutes start (s_durationMin svc) in
          context <- getDailyContext (cai_businessId input)
                       (Some (startOfDay timezone start)) ;;
          throw_if (negb (fitsAvailability start end_
                            (ctx_intervals context)))
            (BadRequestException
               "Horario fuera de la disponibilidad del negocio") ;;;
          throw_if (hasConflict start end_ (ctx_timezone context)
                      (cai_staffId input) (ctx_appointments context))
            (BadRequestException "Existe otra cita en ese horario") ;;;
          ret (start, end_)
      end
  end
  end.

(** The write that ends [createAppointment]. *)
Definition insertAppointment (input : CreateAppointmentInput)
           (customerId : string) (start end_ : DateTime) : M Appointment :=
  id <- freshId ;;
  let created :=
    mkAppointment id (cai_businessId input) (cai_serviceId input)
                  customerId (cai_staffId input) start end_
                  (cai_customerNote input) BOOKED in
  modify (with_appointments (fun rows => rows ++ [created])) ;;;
  ret created.

(** A booking request that has passed its checks and not yet written. *)
Record Pending : Type := mkPending {
  pend_input : CreateAppointmentInput;
  pend_customerId : string;
  pend_start : DateTime;
  pend_end : DateTime
}.

(** Stores reached when requests are served as the server runs them: a
    booking request may be suspended between its checks and its insert
    while other requests run.  [served st pending] holds when [st] can be
    reached with the requests in [pending] checked and not yet written. *)
Inductive served : Store -> list Pending -> Prop :=
| served_empty : served emptyStore []
| served_exec : forall st pending op,
    served st pending -> served (exec op st) pending
| served_check : forall st pending input customerId start end_,
    served st pending ->
    checkAppointment input customerId st = (inr (start, end_), st) ->
    served st (mkPending input customerId start end_ :: pending)
| served_insert : forall st before p after,
    served st (before ++ p :: after) ->
    served (snd (insertAppointment (pend_input p) (pend_customerId p)
                                   (pend_start p) (pend_end p) st))
           (before ++ after).

(** ** Properties of stores, requests and results *)

(** Two staff assignments compete for the same capacity: the same
    identifier on both, or none on one of them. *)
Definition same_or_no_staff (s1 s2 : option string) : Prop :=
  s1 = s2 \/ s1 = None \/ s2 = None.

(** The overlap invariant on the appointment table. *)
Definition no_double_booking (st : Store) : Prop :=
  forall i j a1 a2,
    i <> j ->
    nth_error (appointments st) i = Some a1 ->
    nth_error (appointments st) j = Some a2 ->
    a_businessId a1 = a_businessId a2 ->
    a_status a1 <> CANCELLED ->
    a_status a2 <> CANCELLED ->
    same_or_no_staff (a_staffId a1) (a_staffId a2) ->
    ~ time_overlap (a_startAt a1) (a_endAt a1) (a_startAt a2) (a_endAt a2).

(** The staff scoping under which a request and an appointment can
    conflict: not both naming a staff member, or naming the same one. *)
Definition staff_compatible (requested existing : option string) : Prop :=
  ~ names_staff requested \/ ~ names_staff existing \/ requested = existing.

(** [start, end_) lies within one of the intervals. *)
Definition contained_in_some (start end_ : DateTime)
           (intervals : list Interval) : Prop :=
  exists interval,
    In interval intervals
    /\ i_start interval <= start /\ end_ <= i_end interval.

(** [start, end_) overlaps one of the appointments under the staff
    scoping. *)
Definition conflicts_with_some (start end_ : DateTime)
           (staffId : option string) (appts : list Appointment) : Prop :=
  exists appt,
    In appt appts
    /\ staff_compatible staffId (a_staffId appt)
    /\ time_overlap start end_ (a_startAt appt) (a_endAt appt).

(** [start, end_) overlaps, under the staff scoping, a stored appointment
    of the business that starts on [day] and is not cancelled. *)
Definition conflicts_with_stored (st : Store) (businessId : string)
           (day start end_ : DateTime) (staffId : option string) : Prop :=
  exists appt,
    In appt (appointments st)
    /\ a_businessId appt = businessId
    /\ in_day day (a_startAt appt) = true
    /\ a_status appt <> CANCELLED
    /\ staff_compatible staffId (a_staffId appt)
    /\ time_overlap start end_ (a_startAt appt) (a_endAt appt).

(** The slots offered out of one interval are its first candidate, the
    slot of the service's duration at the interval's start, or none. *)
Definition first_slot_or_none (serviceDuration : Z) (interval : Interval)
           (slots : list Slot) : Prop :=
  slots = []
  \/ slots = [mkSlot (i_start interval)
                     (plus_minutes (i_start interval) serviceDuration)].

(** [ex] is the first exception stored for the business whose date falls
    on the day that starts at [day]: the one [findFirst] returns. *)
Definition first_exception_of (st : Store) (businessId : string)
           (day : DateTime) (ex : AvailabilityException) : Prop :=
  exists before after,
    availabilityExceptions st = before ++ ex :: after
    /\ (forall x,
           In x before ->
           ~ (e_businessId x = businessId /\ in_day day (e_date x) = true))
    /\ e_businessId ex = businessId
    /\ in_day day (e_date ex) = true.

(** The open intervals the resolver yields for a business and a day. *)
Definition openIntervals (st : Store) (b : Business) (day : DateTime)
  : list Interval :=
  resolveIntervals day (b_timezone b)
    (rulesOf st (b_id b) (dayOfWeekOf (b_timezone b) day))
    (exceptionOf st (b_id b) day).

(** Every rule and every override in the store resolves, on any day, to an
    interval inside that day. *)
Definition times_within_day (startTime endTime : string) : Prop :=
  forall day timezone interval,
    intervalFromStrings (startOfDay timezone day) timezone
                        startTime endTime = Some interval ->
    startOfDay timezone day <= i_start interval
    /\ i_end interval <= plus_days (startOfDay timezone day) 1.

Definition well_timed (st : Store) : Prop :=
  (forall r, In r (availabilityRules st) ->
             times_within_day (r_startTime r) (r_endTime r))
  /\ (forall e startTime endTime,
         In e (availabilityExceptions st) ->
         e_startTime e = Some startTime -> e_endTime e = Some endTime ->
         times_within_day startTime endTime).

(** The lookups and the parse that [createAppointment] performs before it
    consults availability all succeed: business, service of that business,
    customer, the staff member when one is named, and the start time. *)
Definition admitted_request (st : Store) (input : CreateAppointmentInput)
           (customerId : string) (b : Business) (svc : Service)
           (start : DateTime) : Prop :=
  find (fun x => String.eqb (b_id x) (cai_businessId input)) (businesses st)
  = Some b
  /\ find (fun x => String.eqb (s_id x) (cai_serviceId input)) (services st)
     = Some svc
  /\ s_businessId svc = cai_businessId input
  /\ find (fun x => String.eqb (uc_id x) customerId) (userClients st) <> None
  /\ (forall staffId,
         cai_staffId input = Some staffId -> Js.truthy staffId = true ->
         find (fun x => String.eqb (ub_id x) staffId) (userBusinesses st)
         <> None)
  /\ cai_startAt input = Some start.

(** The row [createAppointment] inserts and the store it leaves. *)
Definition createdAppointment (st : Store) (input : CreateAppointmentInput)
           (customerId : string) (svc : Service) (start : DateTime)
  : Appointment :=
  mkAppointment (id_of_counter (nextId st)) (cai_businessId input)
                (cai_serviceId input) customerId (cai_staffId input) start
                (plus_minutes start (s_durationMin svc))
                (cai_customerNote input) BOOKED.

Definition storeWithAppointment (st : Store) (a : Appointment) : Store :=
  mkStore (userClients st) (userBusinesses st) (businesses st) (services st)
          (availabilityRules st) (availabilityExceptions st)
          (appointments st ++ [a]) (N.succ (nextId st)).

(** A non-closed exception carries both override times, neither empty. *)
Definition override_complete (e : AvailabilityException) : Prop :=
  e_isClosed e = false ->
  exists startTime endTime,
    e_startTime e = Some startTime /\ e_endTime e = Some endTime
    /\ Js.truthy startTime = true /\ Js.truthy endTime = true.

(** Every appointment ends by the end of the civil day, in its business's
    zone, on which it starts. *)
Definition day_confined (st : Store) : Prop :=
  forall a,
    In a (appointments st) ->
    exists b,
      find (fun x => String.eqb (b_id x) (a_businessId a)) (businesses st)
      = Some b
      /\ a_endAt a <= plus_days (startOfDay (b_timezone b) (a_startAt a)) 1.

(** ** Example stores *)

Module Examples.

(** Monday 2026-01-05 in Asia/Tokyo, as epoch milliseconds. *)
Definition monday_0000 : DateTime := 1767538800000.
Definition monday_0800 : DateTime := 1767567600000.
Definition monday_1000 : DateTime := 1767574800000.
Definition monday_2330 : DateTime := 1767623400000.
Definition tuesday_0000 : DateTime := 1767625200000.

(** An owner ("id0"), a business in Asia/Tokyo ("id1"), a 60-minute
    service ("id2"), a Monday rule 09:00-18:00 and two customers ("id4",
    "id5"). *)
Definition salonSetup : list Operation :=
  [ OpCreateBusinessUser
      (mkCreateBusinessUserInput "owner@example.test" None None);
    OpCreateBusiness (mkCreateBusinessInput "id0" "Salon" None);
    OpCreateService "id1" (mkCreateServiceInput 60 5000 None) (Some "id0");
    OpAddAvailabilityRule "id1" (mkRuleInput 1 "09:00" "18:00") (Some "id0");
    OpCreateClient (mkCreateClientInput "ana@example.test" None);
    OpCreateClient (mkCreateClientInput "ben@example.test" None) ]%string.

Definition salon : Store := execAll salonSetup emptyStore.

Definition book (start : DateTime) : CreateAppointmentInput :=
  mkCreateAppointmentInput "id1" "id2" (Some start) None None.

(** Ana has booked Monday 10:00-11:00 (appointment "id6"). *)
Definition salonBooked : Store :=
  exec (OpCreateAppointment (book monday_1000) "id4") salon.

(** Ana has booked and then cancelled. *)
Definition salonCancelled : Store :=
  exec (OpCancelAppointment "id6" (mkActor "id4" client)) salonBooked.

(** The salon with two exceptions entered for that Monday, an override
    10:00-12:00 first and a closure second. *)
Definition salonTwoExceptions : Store :=
  execAll
    [ OpAddAvailabilityException "id1"
        (mkExceptionInput (Some monday_0000) (Some false)
                          (Some "10:00") (Some "12:00")) (Some "id0");
      OpAddAvailabilityException "id1"
        (mkExceptionInput (Some monday_0800) (Some true) None None)
        (Some "id0") ]%string
    salon.

(** The same two exceptions entered the other way round: the closure
    first, the override 10:00-12:00 second. *)
Definition salonClosureFirst : Store :=
  execAll
    [ OpAddAvailabilityException "id1"
        (mkExceptionInput (Some monday_0800) (Some true) None None)
        (Some "id0");
      OpAddAvailabilityException "id1"
        (mkExceptionInput (Some monday_0000) (Some false)
                          (Some "10:00") (Some "12:00")) (Some "id0") ]%string
    salon.

(** The salon with the override alone. *)
Definition salonOverride : Store :=
  exec (OpAddAvailabilityException "id1"
          (mkExceptionInput (Some monday_0000) (Some false)
                            (Some "10:00") (Some "12:00")) (Some "id0"))%string
       salon.

(** The salon closed on that Monday. *)
Definition salonClosed : Store :=
  exec (OpAddAvailabilityException "id1"
          (mkExceptionInput (Some monday_0800) (Some true) None None)
          (Some "id0"))%string
       salon.

(** Ana's and Ben's requests for Monday 10:00 at the salon, both checked
    before either is written. *)
Definition salonRaced : Store :=
  snd (insertAppointment (book monday_1000) "id5" monday_1000
         (plus_minutes monday_1000 60)
         (snd (insertAppointment (book monday_1000) "id4" monday_1000
                 (plus_minutes monday_1000 60) salon))).

(** A bar open on Mondays from 23:00 to 25:00 and on Tuesdays from 00:00
    to 02:00, with one customer ("id5"). *)
Definition barSetup : list Operation :=
  [ OpCreateBusinessUser
      (mkCreateBusinessUserInput "owner@example.test" None None);
    OpCreateBusiness (mkCreateBusinessInput "id0" "Bar" None);
    OpCreateService "id1" (mkCreateServiceInput 60 3000 None) (Some "id0");
    OpAddAvailabilityRule "id1" (mkRuleInput 1 "23:00" "25:00") (Some "id0");
    OpAddAvailabilityRule "id1" (mkRuleInput 2 "00:00" "02:00") (Some "id0");
    OpCreateClient (mkCreateClientInput "ana@example.test" None) ]%string.

(** Two bookings at the bar: Monday 23:30 and Tuesday 00:00. *)
Definition barBookings : list Operation :=
  [ OpCreateAppointment (book monday_2330) "id5";
    OpCreateAppointment (book tuesday_0000) "id5" ]%string.

Definition barDoubleBooked : Store :=
  execAll (barSetup ++ barBookings) emptyStore.

End Examples.

(** ** Listing appointments *)

Record ListAppointmentsInput : Type := mkListAppointmentsInput {
  lai_businessId : option string;
  lai_customerId : option string;
  lai_ownerId : option string;
  lai_limit : option Z
}.

(** A listed appointment with the rows its [include] joins. *)
Record AppointmentRow : Type := mkAppointmentRow {
  row_appointment : Appointment;
  row_service : option Service;
  row_customer : option UserClient;
  row_business : option Business
}.

(** [assertBusinessExists(id)]. *)
Definition assertBusinessExists (id : string) : M unit :=
  business <- findBusiness id ;;
  match business with
  | None => throw (NotFoundException "Negocio no encontrado")
  | Some _ => ret tt
  end.

(** [orderBy: { startAt: "asc" }]: a stable sort on the instant. *)
Fixpoint insert_by_startAt (a : Appointment) (sorted : list Appointment)
  : list Appointment :=
  match sorted with
  | [] => [a]
  | x :: rest =>
      if a_startAt a <? a_startAt x
      then a :: sorted
      else x :: insert_by_startAt a rest
  end.

Definition orderByStartAt (rows : list Appointment) : list Appointment :=
  fold_left (fun acc a => insert_by_startAt a acc) rows [].

(** [take: n]: the first [n] rows, or the last [-n] when [n] is
    negative. *)
Definition take {A : Type} (n : Z) (rows : list A) : list A :=
  if 0 <=? n then firstn (Z.to_nat n) rows
  else skipn (List.length rows - Z.to_nat (- n)) rows.

(** The [where] clause [listAppointments] builds. *)
Definition listed (params : ListAppointmentsInput) (a : Appointment) : bool :=
  negb (AppointmentStatus_eqb (a_status a) CANCELLED)
  && (if Js.truthy_opt (lai_customerId params)
      then Js.opt_eqb (Some (a_customerId a)) (lai_customerId params)
      else true)
  && (if Js.truthy_opt (lai_businessId params)
      then Js.opt_eqb (Some (a_businessId a)) (lai_businessId params)
      else true).

(** [include: { service: true, customer: true, business: true }]. *)
Definition withRelations (st : Store) (a : Appointment) : AppointmentRow :=
  mkAppointmentRow a
    (find (fun s => String.eqb (s_id s) (a_serviceId a)) (services st))
    (find (fun u => String.eqb (uc_id u) (a_customerId a)) (userClients st))
    (find (fun b => String.eqb (b_id b) (a_businessId a)) (businesses st)).

(** [listAppointments(params)]. *)
Definition listAppointments (params : ListAppointmentsInput)
  : M (list AppointmentRow) :=
  throw_if (Js.truthy_opt (lai_ownerId params)
            && negb (Js.truthy_opt (lai_businessId params)))
    (ForbiddenException
       "Debes indicar el negocio para listar como propietario") ;;;
  (if Js.truthy_opt (lai_businessId params) then
     let businessId := match lai_businessId params with
                       | Some b => b
                       | None => EmptyString
                       end in
     if Js.truthy_opt (lai_ownerId params)
     then assertBusinessAccess businessId (lai_ownerId params) ;;; ret tt
     else assertBusinessExists businessId
   else ret tt) ;;;
  gets (fun st =>
          map (withRelations st)
              (take (match lai_limit params with
                     | Some n => n
                     | None => 50
                     end)
                    (orderByStartAt
                       (filter (listed params) (appointments st))))).

(** ** Appointments controller *)

(** What a handler can throw: an HTTP exception, or the error of a schema
    that refuses the body. *)
Inductive ControllerError : Type :=
| HttpError (e : HttpException)
| ZodError.

Definition Handler (A : Type) : Type :=
  Store -> (ControllerError + A) * Store.

Definition call {A : Type} (c : M A) : Handler A :=
  fun st =>
    match c st with
    | (inl e, st') => (inl (HttpError e), st')
    | (inr a, st') => (inr a, st')
    end.

(** [AppointmentsController.create].  [req.user] is the payload the guard
    verified; [body] is the result of [createAppointmentSchema.parse],
    [None] when the schema throws. *)
Definition AppointmentsController_create (user : Actor)
           (body : option CreateAppointmentInput) : Handler Appointment :=
  match actor_kind user with
  | business_ =>
      fun st =>
        (inl (HttpError (ForbiddenException "Solo clientes pueden agendar")),
         st)
  | client =>
      match body with
      | None => fun st => (inl ZodError, st)
      | Some input => call (createAppointment input (actor_id user))
      end
  end.

(** The fields [listAppointmentsSchema] keeps. *)
Record ListQuery : Type := mkListQuery {
  lq_businessId : option string;
  lq_customerId : option string;
  lq_limit : option Z
}.

(** [AppointmentsController.list]; [query] is the result of
    [listAppointmentsSchema.parse]. *)
Definition AppointmentsController_list (user : Actor)
           (query : option ListQuery) : Handler (list AppointmentRow) :=
  match query with
  | None => fun st => (inl ZodError, st)
  | Some params =>
      match actor_kind user with
      | client =>
          call (listAppointments
                  (mkListAppointmentsInput (lq_businessId params)
                     (Some (actor_id user)) None (lq_limit params)))
      | business_ =>
          if negb (Js.truthy_opt (lq_businessId params)) then
            fun st =>
              (inl (HttpError
                      (ForbiddenException
                         "Debe indicar businessId para listar como negocio")),
               st)
          else
            call (listAppointments
                    (mkListAppointmentsInput (lq_businessId params)
                       (lq_customerId params) (Some (actor_id user))
                       (lq_limit params)))
      end
  end.

(** [AppointmentsController.cancel]. *)
Definition AppointmentsController_cancel (user : Actor) (id : string)
  : Handler Appointment :=
  call (cancelAppointment id user).

(** ** Activities *)

Record Activity : Type := mkActivity {
  act_id : string;
  act_userId : string;
  act_title : string;
  act_note : option string;
  act_kind : string;
  act_importance : string;
  act_startAt : DateTime
}.

(** The activity table with the counter its identifiers come from.  The
    activity functions write to no other table. *)
Record ActivityTable : Type := mkActivityTable {
  activities : list Activity;
  nextActivityId : N
}.

Record CreateActivityInput : Type := mkCreateActivityInput {
  cact_title : string;
  cact_note : option string;
  cact_kind : string;
  cact_startAt : option DateTime;
  cact_importance : option string
}.

(** What [createActivity] can throw: its own HTTP exception, or the error
    of the insert when it breaks the foreign key from [Activity.userId]
    to the clients (Prisma's P2003), which the service does not catch. *)
Inductive CreateActivityError : Type :=
| ActivityHttp (e : HttpException)
| ForeignKeyViolation.

(** [createActivity(userId, input)], with the client table the foreign
    key of the insert refers to. *)
Definition createActivity (clients : list UserClient) (userId : string)
           (input : CreateActivityInput) (tbl : ActivityTable)
  : (CreateActivityError + Activity) * ActivityTable :=
  match cact_startAt input with
  | None =>
      (inl (ActivityHttp (BadRequestException "Fecha de actividad inválida")),
       tbl)
  | Some start =>
      if negb (existsb (fun u => String.eqb (uc_id u) userId) clients)
      then (inl ForeignKeyViolation, tbl)
      else
      let row :=
        mkActivity (id_of_counter (nextActivityId tbl)) userId
                   (cact_title input) (cact_note input) (cact_kind input)
                   (if Js.truthy_opt (cact_importance input)
                    then match cact_importance input with
                         | Some s => s
                         | None => "medium"%string
                         end
                    else "medium"%string)
                   start in
      (inr row,
       mkActivityTable (activities tbl ++ [row])
                       (N.succ (nextActivityId tbl)))
  end.

Fixpoint insert_activity (a : Activity) (sorted : list Activity)
  : list Activity :=
  match sorted with
  | [] => [a]
  | x :: rest =>
      if act_startAt a <? act_startAt x
      then a :: sorted
      else x :: insert_activity a rest
  end.

(** [listActivities(userId)]. *)
Definition listActivities (userId : string) (tbl : ActivityTable)
  : list Activity :=
  fold_left (fun acc a => insert_activity a acc)
            (filter (fun a => String.eqb (act_userId a) userId)
                    (activities tbl))
            [].

(** An optional ISO string of an update: absent (or empty), present and
    unparseable, or present and parsed. *)
Inductive IsoField : Type :=
| IsoAbsent
| IsoInvalid
| IsoParsed (dt : DateTime).

Record UpdateActivityInput : Type := mkUpdateActivityInput {
  uact_title : option string;
  uact_note : option string;
  uact_kind : option string;
  uact_startAt : IsoField;
  uact_importance : option string
}.

(** [value ?? undefined] as update data: a given value replaces the old
    one, a missing one leaves it. *)
Definition or_keep {A : Type} (given : option A) (old : A) : A :=
  match given with
  | Some v => v
  | None => old
  end.

Definition apply_update (input : UpdateActivityInput) (a : Activity)
  : Activity :=
  mkActivity (act_id a) (act_userId a)
             (or_keep (uact_title input) (act_title a))
             (match uact_note input with
              | Some n => Some n
              | None => act_note a
              end)
             (or_keep (uact_kind input) (act_kind a))
             (or_keep (uact_importance input) (act_importance a))
             (match uact_startAt input with
              | IsoParsed dt => dt
              | _ => act_startAt a
              end).

Fixpoint update_activity (id : string) (input : UpdateActivityInput)
         (rows : list Activity) : list Activity :=
  match rows with
  | [] => []
  | a :: rest =>
      if String.eqb (act_id a) id
      then apply_update input a :: rest
      else a :: update_activity id input rest
  end.

(** [updateActivity(userId, activityId, input)]. *)
Definition updateActivity (userId activityId : string)
           (input : UpdateActivityInput) (tbl : ActivityTable)
  : (HttpException + Activity) * ActivityTable :=
  match find (fun a => String.eqb (act_id a) activityId) (activities tbl) with
  | None => (inl (NotFoundException "Actividad no encontrada"), tbl)
  | Some activity =>
      if negb (String.eqb (act_userId activity) userId)
      then (inl (NotFoundException "Actividad no encontrada"), tbl)
      else
        match uact_startAt input with
        | IsoInvalid =>
            (inl (BadRequestException "Fecha de actividad inválida"), tbl)
        | _ =>
            (inr (apply_update input activity),
             mkActivityTable
               (update_activity activityId input (activities tbl))
               (nextActivityId tbl))
        end
  end.


(** ** More example stores *)

Module MoreExamples.

(** The salon with a second service, of ten hours ("id6"). *)
Definition salonLongService : Store :=
  exec (OpCreateService "id1" (mkCreateServiceInput 600 9000 None)
                        (Some "id0"))%string
       Examples.salon.

End MoreExamples.


(** ** Properties of reachable stores *)

(** Every appointment's identifier was issued by the store's counter. *)
Definition ids_issued (st : Store) : Prop :=
  forall a,
    In a (appointments st) ->
    exists k, (k < nextId st)%N /\ a_id a = id_of_counter k.

(** Two rows that differ at most in their status. *)
Definition same_booking (a a' : Appointment) : Prop :=
  a_id a' = a_id a
  /\ a_businessId a' = a_businessId a
  /\ a_serviceId a' = a_serviceId a
  /\ a_customerId a' = a_customerId a
  /\ a_staffId a' = a_staffId a
  /\ a_startAt a' = a_startAt a
  /\ a_endAt a' = a_endAt a
  /\ a_customerNote a' = a_customerNote a.

(** The rows an appointment refers to exist, its service is one of its
    business, and it lasts as long as its service. *)
Definition well_referenced (st : Store) (a : Appointment) : Prop :=
  exists b svc,
    find (fun x => String.eqb (b_id x) (a_businessId a)) (businesses st)
    = Some b
    /\ find (fun x => String.eqb (s_id x) (a_serviceId a)) (services st)
       = Some svc
    /\ s_businessId svc = a_businessId a
    /\ find (fun x => String.eqb (uc_id x) (a_customerId a)) (userClients st)
       <> None
    /\ (forall staffId,
           a_staffId a = Some staffId -> Js.truthy staffId = true ->
           find (fun x => String.eqb (ub_id x) staffId) (userBusinesses st)
           <> None)
    /\ a_endAt a = plus_minutes (a_startAt a) (s_durationMin svc).

(** The owner of a business is a stored user with the owner role. *)
Definition owned_by_owner (st : Store) (b : Business) : Prop :=
  exists u,
    find (fun x => String.eqb (ub_id x) (b_ownerId b)) (userBusinesses st)
    = Some u
    /\ ub_role u = BUSINESS_OWNER.


(** A rule as [addAvailabilityRule] lets it in: a weekday from 0 to 6 and
    times that pass [assertValidTimeRange]. *)
Definition rule_valid (r : AvailabilityRule) : Prop :=
  0 <= r_dayOfWeek r <= 6
  /\ intervalFromStrings fakeDay 0 (r_startTime r) (r_endTime r) <> None.

(** An exception as [addAvailabilityException] lets it in: a closure, or
    an override whose two times are there and pass
    [assertValidTimeRange]. *)
Definition exception_valid (e : AvailabilityException) : Prop :=
  e_isClosed e = false ->
  exists startTime endTime,
    e_startTime e = Some startTime /\ e_endTime e = Some endTime
    /\ Js.truthy startTime = true /\ Js.truthy endTime = true
    /\ intervalFromStrings fakeDay 0 startTime endTime <> None.


(** ** Example activity tables *)

Module ActivityExamples.

Definition review : CreateActivityInput :=
  mkCreateActivityInput "Review" None "admin" (Some Examples.monday_1000)
                        (Some ""%string).

Definition opening : CreateActivityInput :=
  mkCreateActivityInput "Opening" (Some "keys"%string) "shop"
                        (Some Examples.monday_0800) (Some "high"%string).

(** Ana notes a review, then Ben an opening earlier that day. *)
Definition diary : ActivityTable :=
  snd (createActivity (userClients Examples.salon) "id5" opening
         (snd (createActivity (userClients Examples.salon) "id4" review
                              (mkActivityTable [] 0)))).

Definition retitle : UpdateActivityInput :=
  mkUpdateActivityInput (Some "Audit"%string) None None IsoAbsent None.

End ActivityExamples.


(** ** Unique accounts *)

(** Two client rows that the unique indexes on email and phone allow side
    by side. *)
Definition clients_differ (u v : UserClient) : Prop :=
  uc_email u <> uc_email v /\ same_phone (uc_phone u) (uc_phone v) = false.

Definition users_differ (u v : UserBusiness) : Prop :=
  ub_email u <> ub_email v /\ same_phone (ub_phone u) (ub_phone v) = false.


(** * Properties *)

(** ** Days *)

Lemma startOfDay_bounds (z : Zone) (t : DateTime) :
  startOfDay z t <= t < plus_days (startOfDay z t) 1.
Proof.
  unfold startOfDay, plus_days, day_number, MS_PER_DAY, MS_PER_MINUTE.
  pose proof (Z.div_mod (t + z * 60000) 86400000 ltac:(lia)).
  pose proof (Z.mod_pos_bound (t + z * 60000) 86400000 ltac:(lia)).
  lia.
Qed.

(** Two different days of a zone are a whole day apart. *)
Lemma startOfDay_apart (z : Zone) (t u : DateTime) :
  startOfDay z t < startOfDay z u ->
  plus_days (startOfDay z t) 1 <= startOfDay z u.
Proof.
  unfold startOfDay, plus_days, MS_PER_DAY, MS_PER_MINUTE.
  generalize (day_number z t) (day_number z u). intros p q. lia.
Qed.

Lemma in_day_false (day t : DateTime) :
  in_day day t = false -> t < day \/ plus_days day 1 <= t.
Proof.
  unfold in_day. rewrite andb_false_iff, Z.leb_gt, Z.ltb_ge. lia.
Qed.

Lemma startOfDay_idempotent (z : Zone) (t : DateTime) :
  startOfDay z (startOfDay z t) = startOfDay z t.
Proof.
  unfold startOfDay at 1 3. f_equal. f_equal.
  unfold startOfDay, day_number, MS_PER_DAY, MS_PER_MINUTE.
  replace ((t + z * 60000) / 86400000 * 86400000 - z * 60000 + z * 60000)
    with ((t + z * 60000) / 86400000 * 86400000) by lia.
  now rewrite Z.div_mul by lia.
Qed.

(** ** Conflict detector *)

Lemma truthy_opt_eqb_neq (a b : option string) :
  Js.opt_eqb a b = false <-> a <> b.
Proof.
  destruct a as [x|], b as [y|]; simpl; split; intro H;
    try congruence; try discriminate.
  - apply String.eqb_neq in H. congruence.
  - apply String.eqb_neq. congruence.
Qed.

Lemma time_overlap_iff (s e xs xe : DateTime) :
  (s <? xe) && (e >? xs) = true <-> time_overlap s e xs xe.
Proof.
  unfold time_overlap. rewrite andb_true_iff, Z.ltb_lt, Z.gtb_gt. tauto.
Qed.

(** When the staff scoping allows a conflict, [overlaps] is the half-open
    overlap test. *)
Lemma overlaps_compatible (s e xs xe : DateTime) (tz : Zone)
      (target existing : option string) :
  staff_compatible target existing ->
  overlaps s e xs xe tz target existing = (s <? xe) && (e >? xs).
Proof.
  unfold staff_compatible, names_staff, overlaps. intros H.
  destruct (Js.truthy_opt target) eqn:Ht; simpl; auto.
  destruct (Js.truthy_opt existing) eqn:He; simpl; auto.
  destruct H as [H | [H | H]]; try congruence.
  subst existing.
  destruct target; simpl in *; try discriminate.
  now rewrite String.eqb_refl.
Qed.

(** Two different named staff members never conflict. *)
Lemma overlaps_different_staff (s e xs xe : DateTime) (tz : Zone)
      (target existing : option string) :
  names_staff target -> names_staff existing -> target <> existing ->
  overlaps s e xs xe tz target existing = false.
Proof.
  unfold names_staff, overlaps. intros Ht He Hne.
  rewrite Ht, He. simpl.
  assert (Js.opt_eqb existing target = false) as ->
      by (apply truthy_opt_eqb_neq; congruence).
  reflexivity.
Qed.

(** C3: the conflict test is false whenever the candidate and the existing
    appointment name different staff members; in every other staff
    combination (candidate unstaffed, existing unstaffed, same staff on
    both) it is true exactly when [start < existingEnd] and
    [end > existingStart]. *)
Theorem overlaps_staff_scoped :
  forall (start end_ existingStart existingEnd : DateTime) (timezone : Zone)
         (targetStaffId existingStaffId : option string),
    (names_staff targetStaffId -> names_staff existingStaffId ->
     targetStaffId <> existingStaffId ->
     overlaps start end_ existingStart existingEnd timezone
              targetStaffId existingStaffId = false)
    /\ (~ names_staff targetStaffId \/ ~ names_staff existingStaffId
        \/ targetStaffId = existingStaffId ->
        (overlaps start end_ existingStart existingEnd timezone
                  targetStaffId existingStaffId = true
         <-> start < existingEnd /\ end_ > existingStart)).
Proof.
  intros s e xs xe tz target existing. split.
  - apply overlaps_different_staff.
  - intros H. rewrite (overlaps_compatible s e xs xe tz target existing H).
    apply time_overlap_iff.
Qed.

(** C3 at work: a request for staff "id8" against an appointment of staff
    "id9" on overlapping times is no conflict; the same request against an
    appointment of "id8" is one. *)
Lemma overlaps_staff_scoped_witness :
  overlaps 0 3600000 1800000 5400000 540 (Some "id8"%string)
           (Some "id9"%string) = false
  /\ (overlaps 0 3600000 1800000 5400000 540 (Some "id8"%string)
               (Some "id8"%string) = true
      <-> 0 < 5400000 /\ 3600000 > 1800000).
Proof.
  destruct (overlaps_staff_scoped 0 3600000 1800000 5400000 540
              (Some "id8"%string) (Some "id9"%string)) as [H _].
  destruct (overlaps_staff_scoped 0 3600000 1800000 5400000 540
              (Some "id8"%string) (Some "id8"%string)) as [_ H'].
  split.
  - apply H; unfold names_staff; try reflexivity. discriminate.
  - apply H'. right. right. reflexivity.
Defined.

(** ** Running store computations *)

Ltac unfold_m :=
  cbv beta iota delta
      [bind ret throw throw_if gets modify findBusiness findService
       findUserClient findUserBusiness findAppointment] in *.

Lemma find_business_id (st : Store) (id : string) (b : Business) :
  find (fun x => String.eqb (b_id x) id) (businesses st) = Some b ->
  b_id b = id.
Proof.
  intros H. apply find_some in H. destruct H as [_ H].
  now apply String.eqb_eq.
Qed.

(** [getDailyContext] on a known business and a valid date: it reads the
    store, leaves it as it is, and returns the resolved context. *)
Lemma getDailyContext_found (st : Store) (id : string) (b : Business)
      (d : DateTime) :
  find (fun x => String.eqb (b_id x) id) (businesses st) = Some b ->
  getDailyContext id (Some d) st =
  (inr (mkDailyContext b
          (openIntervals st b (startOfDay (b_timezone b) d))
          (appointmentsOf st id (startOfDay (b_timezone b) d))
          (startOfDay (b_timezone b) d) (b_timezone b)), st).
Proof.
  intros Hb. unfold getDailyContext, openIntervals. unfold_m.
  rewrite Hb. now rewrite (find_business_id st id b Hb).
Qed.

(** [getDailyContext] never writes. *)
Lemma getDailyContext_pure (st : Store) (id : string)
      (date : option DateTime) :
  snd (getDailyContext id date st) = st.
Proof.
  unfold getDailyContext. unfold_m.
  destruct (find _ (businesses st)); simpl; auto.
  destruct date; simpl; auto.
Qed.

(** If [getDailyContext] returns, the business exists and the date was
    valid. *)
Lemma getDailyContext_inv (st st' : Store) (id : string)
      (date : option DateTime) (ctx : DailyContext) :
  getDailyContext id date st = (inr ctx, st') ->
  exists b d,
    find (fun x => String.eqb (b_id x) id) (businesses st) = Some b
    /\ date = Some d.
Proof.
  unfold getDailyContext. unfold_m.
  destruct (find _ (businesses st)) as [b|]; try discriminate.
  destruct date as [d|]; try discriminate.
  intros _. now exists b, d.
Qed.

(** ** Availability resolver *)

Lemma resolveIntervals_closed (day : DateTime) (tz : Zone)
      (rules : list AvailabilityRule) (ex : AvailabilityException) :
  e_isClosed ex = true ->
  resolveIntervals day tz rules (Some ex) = [].
Proof.
  intros H. unfold resolveIntervals. now rewrite H.
Qed.

(** The exception the resolver fetches is the first one stored for the
    business and the day. *)
Lemma exceptionOf_first (st : Store) (businessId : string) (day : DateTime)
      (ex : AvailabilityException) :
  first_exception_of st businessId day ex ->
  exceptionOf st businessId day = Some ex.
Proof.
  intros (before & after & Htable & Hnone & Hb & Hd).
  unfold exceptionOf. rewrite Htable. clear Htable.
  induction before as [|x before IH]; simpl.
  - rewrite Hb, String.eqb_refl, Hd. reflexivity.
  - destruct (String.eqb_spec (e_businessId x) businessId) as [E|E]; simpl.
    + destruct (in_day day (e_date x)) eqn:Ed.
      * exfalso. apply (Hnone x (or_introl eq_refl)). auto.
      * apply IH. intros y Hy. apply Hnone. now right.
    + apply IH. intros y Hy. apply Hnone. now right.
Qed.

Lemma exceptionOf_is_first (st : Store) (businessId : string)
      (day : DateTime) (ex : AvailabilityException) :
  exceptionOf st businessId day = Some ex ->
  first_exception_of st businessId day ex.
Proof.
  unfold exceptionOf, first_exception_of.
  induction (availabilityExceptions st) as [|x rows IH]; simpl;
    [discriminate|].
  destruct (String.eqb (e_businessId x) businessId && in_day day (e_date x))
    eqn:E.
  - intros H. injection H as <-. exists [], rows.
    apply andb_true_iff in E. destruct E as [E1 E2].
    apply String.eqb_eq in E1. repeat split; auto.
  - intros H. destruct (IH H) as (before & after & -> & Hnone & Hb & Hd).
    exists (x :: before), after. repeat split; auto.
    intros y [<- | Hy]; [|now apply Hnone].
    intros [H1 H2]. rewrite H1, String.eqb_refl, H2 in E. discriminate.
Qed.

(** C5, as the code has it: the resolver consults one exception, the
    first stored for the business whose date falls on the queried day;
    when that exception is closed, it returns the context of that day
    with no open interval, whatever weekly rules the store holds for
    that weekday. *)
Theorem closed_exception_yields_no_interval :
  forall (st : Store) (businessId : string) (b : Business) (d : DateTime)
         (ex : AvailabilityException),
    find (fun x => String.eqb (b_id x) businessId) (businesses st) = Some b ->
    first_exception_of st businessId (startOfDay (b_timezone b) d) ex ->
    e_isClosed ex = true ->
    exists ctx,
      getDailyContext businessId (Some d) st = (inr ctx, st)
      /\ ctx_day ctx = startOfDay (b_timezone b) d
      /\ ctx_intervals ctx = [].
Proof.
  intros st businessId b d ex Hb Hex Hclosed.
  apply exceptionOf_first in Hex.
  rewrite (getDailyContext_found st businessId b d Hb).
  eexists. split; [reflexivity|]. simpl. split; [reflexivity|].
  unfold openIntervals.
  rewrite (find_business_id st businessId b Hb), Hex.
  now apply resolveIntervals_closed.
Qed.

(** The hypotheses of C5 hold at the salon closed on Monday 2026-01-05:
    the 09:00-18:00 rule of that weekday opens nothing. *)
Lemma closed_exception_yields_no_interval_witness :
  exists ctx,
    getDailyContext "id1" (Some Examples.monday_1000) Examples.salonClosed
    = (inr ctx, Examples.salonClosed)
    /\ ctx_day ctx = Examples.monday_0000
    /\ ctx_intervals ctx = [].
Proof.
  apply (closed_exception_yields_no_interval
           Examples.salonClosed "id1"
           (mkBusiness "id1" "id0" "Salon" 540) Examples.monday_1000
           (mkException "id6" "id1" Examples.monday_0000 true None None)).
  - reflexivity.
  - exists [], []. repeat split; try reflexivity. intros x [].
  - reflexivity.
Defined.

(** C5 as the claim states it fails: at the salon with an override
    entered before a closure for the same Monday, a closed exception
    exists for that business and date, and the resolver opens the day
    for the override, 10:00-12:00. *)
Lemma closed_exception_behind_override_ignored :
  In (mkException "id7" "id1" Examples.monday_0000 true None None)
     (availabilityExceptions Examples.salonTwoExceptions)
  /\ in_day (startOfDay 540 Examples.monday_1000) Examples.monday_0000
     = true
  /\ getDailyContext "id1" (Some Examples.monday_1000)
                     Examples.salonTwoExceptions
     = (inr (mkDailyContext (mkBusiness "id1" "id0" "Salon" 540)
               [mkInterval 1767574800000 1767582000000] []
               Examples.monday_0000 540),
        Examples.salonTwoExceptions).
Proof.
  split; [vm_compute; auto|]. split; reflexivity.
Qed.

(** ** Appointment scheduler: booking *)

Lemma fitsAvailability_iff (start end_ : DateTime)
      (intervals : list Interval) :
  fitsAvailability start end_ intervals = true
  <-> contained_in_some start end_ intervals.
Proof.
  unfold fitsAvailability, contained_in_some. rewrite existsb_exists.
  split; intros [i [Hin H]]; exists i; split; auto.
  - apply andb_true_iff in H. destruct H as [H1 H2].
    apply Z.geb_le in H1. apply Z.leb_le in H2. lia.
  - apply andb_true_iff. split; [apply Z.geb_le | apply Z.leb_le]; lia.
Qed.

Lemma staff_compatible_dec (requested existing : option string) :
  staff_compatible requested existing
  \/ (names_staff requested /\ names_staff existing
      /\ requested <> existing).
Proof.
  unfold staff_compatible, names_staff.
  destruct (Js.truthy_opt requested); [|left; left; discriminate].
  destruct (Js.truthy_opt existing); [|left; right; left; discriminate].
  destruct (Js.opt_eqb requested existing) eqn:E.
  - left. right. right.
    destruct requested, existing; simpl in E; try discriminate; auto.
    apply String.eqb_eq in E. now subst.
  - right. repeat split; auto. now apply truthy_opt_eqb_neq.
Qed.

Lemma overlaps_true_iff (s e xs xe : DateTime) (tz : Zone)
      (requested existing : option string) :
  overlaps s e xs xe tz requested existing = true
  <-> staff_compatible requested existing /\ time_overlap s e xs xe.
Proof.
  destruct (staff_compatible_dec requested existing) as [H | [H1 [H2 H3]]].
  - rewrite (overlaps_compatible s e xs xe tz _ _ H), time_overlap_iff.
    tauto.
  - rewrite (overlaps_different_staff s e xs xe tz requested existing
               H1 H2 H3).
    split; [discriminate|].
    intros [[C | [C | C]] _]; contradiction.
Qed.

Lemma hasConflict_iff (start end_ : DateTime) (tz : Zone)
      (staffId : option string) (appts : list Appointment) :
  hasConflict start end_ tz staffId appts = true
  <-> conflicts_with_some start end_ staffId appts.
Proof.
  unfold hasConflict, conflicts_with_some. rewrite existsb_exists.
  split; intros [a [Hin H]]; exists a; split; auto.
  - now apply overlaps_true_iff in H.
  - now apply overlaps_true_iff.
Qed.

Lemma appointmentsOf_In (st : Store) (businessId : string) (day : DateTime)
      (a : Appointment) :
  In a (appointmentsOf st businessId day)
  <-> In a (appointments st)
      /\ a_businessId a = businessId
      /\ in_day day (a_startAt a) = true
      /\ a_status a <> CANCELLED.
Proof.
  unfold appointmentsOf. rewrite filter_In, !andb_true_iff, negb_true_iff.
  rewrite String.eqb_eq.
  assert (AppointmentStatus_eqb (a_status a) CANCELLED = false
          <-> a_status a <> CANCELLED)
    by (destruct (a_status a); simpl; split; congruence).
  tauto.
Qed.

(** A conflict with a stored appointment is one with an appointment the
    resolver fetches, and conversely. *)
Lemma conflicts_with_stored_iff (st : Store) (businessId : string)
      (day start end_ : DateTime) (staffId : option string) :
  conflicts_with_stored st businessId day start end_ staffId
  <-> conflicts_with_some start end_ staffId
        (appointmentsOf st businessId day).
Proof.
  unfold conflicts_with_stored, conflicts_with_some.
  split.
  - intros (a & H1 & H2 & H3 & H4 & H5 & H6). exists a.
    split; [apply appointmentsOf_In; auto|auto].
  - intros (a & Hin & H5 & H6). apply appointmentsOf_In in Hin.
    destruct Hin as (H1 & H2 & H3 & H4). exists a. auto 10.
Qed.

(** What [createAppointment] does once its lookups have succeeded: two
    tests, then the insert. *)
Lemma createAppointment_admitted (st : Store) (input : CreateAppointmentInput)
      (customerId : string) (b : Business) (svc : Service)
      (start : DateTime) :
  admitted_request st input customerId b svc start ->
  let end_ := plus_minutes start (s_durationMin svc) in
  let day := startOfDay (b_timezone b) start in
  createAppointment input customerId st =
  if negb (fitsAvailability start end_ (openIntervals st b day))
  then (inl (BadRequestException
               "Horario fuera de la disponibilidad del negocio"), st)
  else if hasConflict start end_ (b_timezone b) (cai_staffId input)
                      (appointmentsOf st (cai_businessId input) day)
  then (inl (BadRequestException "Existe otra cita en ese horario"), st)
  else (inr (createdAppointment st input customerId svc start),
        storeWithAppointment st
          (createdAppointment st input customerId svc start)).
Proof.
  intros (Hb & Hs & Hsb & Hc & Hstaff & Hstart) end_ day.
  unfold createAppointment.
  pose proof (getDailyContext_found st (cai_businessId input) b
                (startOfDay (b_timezone b) start) Hb) as Hctx.
  rewrite startOfDay_idempotent in Hctx.
  unfold_m. rewrite Hb, Hs, Hsb, String.eqb_refl. simpl.
  destruct (find _ (userClients st)) as [cust|] eqn:Ec; [|congruence].
  assert (Hfin :
    forall staff,
      cai_staffId input = staff ->
      (let (s, st') :=
         getDailyContext (cai_businessId input)
           (Some (startOfDay (b_timezone b) start)) st in
       match s with
       | inl e => (inl e, st')
       | inr a =>
           (throw_if (negb (fitsAvailability start end_ (ctx_intervals a)))
              (BadRequestException
                 "Horario fuera de la disponibilidad del negocio") ;;;
            throw_if (hasConflict start end_ (ctx_timezone a) staff
                        (ctx_appointments a))
              (BadRequestException "Existe otra cita en ese horario") ;;;
            id <- freshId ;;
            modify (with_appointments
                      (fun rows =>
                         rows ++ [mkAppointment id (cai_businessId input)
                                    (cai_serviceId input) customerId staff
                                    start end_ (cai_customerNote input)
                                    BOOKED])) ;;;
            ret (mkAppointment id (cai_businessId input)
                   (cai_serviceId input) customerId staff start end_
                   (cai_customerNote input) BOOKED)) st'
       end) =
      (if negb (fitsAvailability start end_ (openIntervals st b day))
       then (inl (BadRequestException
                    "Horario fuera de la disponibilidad del negocio"), st)
       else if hasConflict start end_ (b_timezone b) (cai_staffId input)
                           (appointmentsOf st (cai_businessId input) day)
       then (inl (BadRequestException "Existe otra cita en ese horario"), st)
       else (inr (createdAppointment st input customerId svc start),
             storeWithAppointment st
               (createdAppointment st input customerId svc start)))).
  { intros staff Estaff. rewrite Hctx. unfold_m. simpl. fold end_ day.
    unfold createdAppointment, storeWithAppointment, freshId,
      with_appointments.
    rewrite Estaff.
    destruct (fitsAvailability start end_ (openIntervals st b day));
      simpl; auto.
    destruct (hasConflict start end_ (b_timezone b) staff
                (appointmentsOf st (cai_businessId input) day));
      simpl; auto. }
  specialize (Hfin (cai_staffId input) eq_refl). unfold_m.
  rewrite Hstart.
  destruct (cai_staffId input) as [sid|] eqn:Esid; simpl.
  - destruct (Js.truthy sid) eqn:Et.
    + specialize (Hstaff sid eq_refl Et).
      destruct (find _ (userBusinesses st)); [|congruence].
      exact Hfin.
    + exact Hfin.
  - exact Hfin.
Qed.

(** C2: once the lookups of a booking request have succeeded,
    [createAppointment] rejects it, writing nothing, when
    [start, start + durationMin) is not contained in any open interval
    resolved for that day; it rejects it, writing nothing, when that range
    overlaps under the staff scoping an appointment stored for the
    business that starts on that day and is not cancelled; otherwise it
    appends one appointment with status BOOKED, the requested start and
    end [start + durationMin], and returns it. *)
Theorem createAppointment_validates_then_commits :
  forall (st : Store) (input : CreateAppointmentInput) (customerId : string)
         (b : Business) (svc : Service) (start : DateTime),
    admitted_request st input customerId b svc start ->
    let end_ := plus_minutes start (s_durationMin svc) in
    let day := startOfDay (b_timezone b) start in
    let intervals := openIntervals st b day in
    (~ contained_in_some start end_ intervals ->
     exists e, createAppointment input customerId st = (inl e, st))
    /\ ((exists appt,
            In appt (appointments st)
            /\ a_businessId appt = cai_businessId input
            /\ in_day day (a_startAt appt) = true
            /\ a_status appt <> CANCELLED
            /\ staff_compatible (cai_staffId input) (a_staffId appt)
            /\ time_overlap start end_ (a_startAt appt) (a_endAt appt)) ->
        exists e, createAppointment input customerId st = (inl e, st))
    /\ (contained_in_some start end_ intervals ->
        (forall appt,
            In appt (appointments st) ->
            a_businessId appt = cai_businessId input ->
            in_day day (a_startAt appt) = true ->
            a_status appt <> CANCELLED ->
            staff_compatible (cai_staffId input) (a_staffId appt) ->
            ~ time_overlap start end_ (a_startAt appt) (a_endAt appt)) ->
        exists created st',
          createAppointment input customerId st = (inr created, st')
          /\ appointments st' = appointments st ++ [created]
          /\ a_status created = BOOKED
          /\ a_startAt created = start
          /\ a_endAt created = plus_minutes start (s_durationMin svc)
          /\ a_businessId created = cai_businessId input
          /\ a_staffId created = cai_staffId input).
Proof.
  intros st input customerId b svc start Hadm end_ day intervals.
  set (booked := appointmentsOf st (cai_businessId input) day).
  pose proof (createAppointment_admitted st input customerId b svc start Hadm)
    as Hrun.
  cbv zeta in Hrun. fold end_ day intervals booked in Hrun.
  pose proof (fitsAvailability_iff start end_ intervals) as Hfit.
  pose proof (hasConflict_iff start end_ (b_timezone b) (cai_staffId input)
                booked) as Hcon.
  pose proof (conflicts_with_stored_iff st (cai_businessId input) day
                start end_ (cai_staffId input)) as Hst.
  fold booked in Hst. unfold conflicts_with_stored in Hst.
  assert (Hfree :
            (forall appt,
                In appt (appointments st) ->
                a_businessId appt = cai_businessId input ->
                in_day day (a_startAt appt) = true ->
                a_status appt <> CANCELLED ->
                staff_compatible (cai_staffId input) (a_staffId appt) ->
                ~ time_overlap start end_ (a_startAt appt) (a_endAt appt)) ->
            ~ conflicts_with_some start end_ (cai_staffId input) booked).
  { intros Hall Hc. apply Hst in Hc.
    destruct Hc as (appt & H1 & H2 & H3 & H4 & H5 & H6).
    exact (Hall appt H1 H2 H3 H4 H5 H6). }
  rewrite Hrun.
  destruct (fitsAvailability start end_ intervals);
    destruct (hasConflict start end_ (b_timezone b) (cai_staffId input)
                booked); simpl.
  - repeat split.
    + intros Hn. exfalso. apply Hn. now apply Hfit.
    + intros _. eexists. reflexivity.
    + intros _ Hn. exfalso. apply (Hfree Hn). now apply Hcon.
  - repeat split.
    + intros Hn. exfalso. apply Hn. now apply Hfit.
    + intros Hc. apply Hst, Hcon in Hc. discriminate.
    + intros _ _. do 2 eexists. split; [reflexivity|].
      simpl. repeat split; reflexivity.
  - repeat split.
    + intros _. eexists. reflexivity.
    + intros _. eexists. reflexivity.
    + intros Hc. apply Hfit in Hc. discriminate.
  - repeat split.
    + intros _. eexists. reflexivity.
    + intros _. eexists. reflexivity.
    + intros Hc. apply Hfit in Hc. discriminate.
Qed.

(** The hypotheses of C2 hold at the salon: Ana books Monday 10:00, a
    free slot inside the Monday rule, and the same slot is then refused
    to Ben, for Ana's stored appointment. *)
Lemma createAppointment_validates_then_commits_witness :
  (exists created st',
      createAppointment (Examples.book Examples.monday_1000) "id4"
                        Examples.salon = (inr created, st')
      /\ appointments st' = appointments Examples.salon ++ [created]
      /\ a_status created = BOOKED
      /\ a_startAt created = Examples.monday_1000
      /\ a_endAt created = plus_minutes Examples.monday_1000 60
      /\ a_businessId created = "id1"%string
      /\ a_staffId created = None)
  /\ (exists e,
         createAppointment (Examples.book Examples.monday_1000) "id5"
                           Examples.salonBooked
         = (inl e, Examples.salonBooked)).
Proof.
  split.
  - assert (Hadm : admitted_request Examples.salon
                     (Examples.book Examples.monday_1000) "id4"
                     (mkBusiness "id1" "id0" "Salon" 540)
                     (mkService "id2" "id1" 60 5000 true)
                     Examples.monday_1000).
    { unfold admitted_request.
      repeat split; try (vm_compute; reflexivity);
        try (vm_compute; discriminate). }
    destruct (createAppointment_validates_then_commits
                Examples.salon (Examples.book Examples.monday_1000) "id4"
                (mkBusiness "id1" "id0" "Salon" 540)
                (mkService "id2" "id1" 60 5000 true)
                Examples.monday_1000 Hadm) as (_ & _ & H).
    apply H.
    + exists (mkInterval 1767571200000 1767603600000).
      vm_compute. intuition discriminate.
    + intros a Hin. vm_compute in Hin. destruct Hin.
  - assert (Hadm : admitted_request Examples.salonBooked
                     (Examples.book Examples.monday_1000) "id5"
                     (mkBusiness "id1" "id0" "Salon" 540)
                     (mkService "id2" "id1" 60 5000 true)
                     Examples.monday_1000).
    { unfold admitted_request.
      repeat split; try (vm_compute; reflexivity);
        try (vm_compute; discriminate). }
    destruct (createAppointment_validates_then_commits
                Examples.salonBooked (Examples.book Examples.monday_1000)
                "id5"
                (mkBusiness "id1" "id0" "Salon" 540)
                (mkService "id2" "id1" 60 5000 true)
                Examples.monday_1000 Hadm) as (_ & H & _).
    apply H.
    exists (mkAppointment "id6" "id1" "id2" "id4" None
                          Examples.monday_1000 1767578400000 None BOOKED).
    split; [vm_compute; auto|].
    split; [reflexivity|].
    split; [vm_compute; reflexivity|].
    split; [discriminate|].
    split; [left; unfold names_staff; simpl; discriminate|].
    unfold time_overlap. vm_compute. split; reflexivity.
Defined.

(** A start time that does not parse is a bad request, once the lookups
    before it have succeeded. *)
Lemma createAppointment_unparseable_start (st : Store)
      (input : CreateAppointmentInput) (customerId : string)
      (b : Business) (svc : Service) :
  find (fun x => String.eqb (b_id x) (cai_businessId input)) (businesses st)
  = Some b ->
  find (fun x => String.eqb (s_id x) (cai_serviceId input)) (services st)
  = Some svc ->
  s_businessId svc = cai_businessId input ->
  find (fun x => String.eqb (uc_id x) customerId) (userClients st) <> None ->
  (forall staffId,
      cai_staffId input = Some staffId -> Js.truthy staffId = true ->
      find (fun x => String.eqb (ub_id x) staffId) (userBusinesses st)
      <> None) ->
  cai_startAt input = None ->
  createAppointment input customerId st =
  (inl (BadRequestException "Fecha de inicio inválida"), st).
Proof.
  intros Hb Hs Hsb Hc Hstaff Hstart.
  unfold createAppointment. unfold_m.
  rewrite Hb, Hs, Hsb, String.eqb_refl, Hstart. simpl.
  destruct (find _ (userClients st)) as [cust|]; [|congruence].
  destruct (cai_staffId input) as [sid|]; simpl; auto.
  destruct (Js.truthy sid) eqn:Et; auto.
  specialize (Hstaff sid eq_refl Et).
  destruct (find _ (userBusinesses st)); [reflexivity | congruence].
Qed.




(** ** Appointment scheduler: cancellation *)

Lemma find_update_status (id : string) (rows : list Appointment)
      (appt : Appointment) :
  find (fun a => String.eqb (a_id a) id) rows = Some appt ->
  find (fun a => String.eqb (a_id a) id) (update_status id CANCELLED rows)
  = Some (set_status CANCELLED appt).
Proof.
  induction rows as [|a rest IH]; simpl; [discriminate|].
  destruct (String.eqb (a_id a) id) eqn:E; simpl.
  - intros H. injection H as <-. simpl. now rewrite E.
  - rewrite E. exact IH.
Qed.

(** Cancelling an appointment that is already cancelled returns it and
    writes nothing, whoever asks. *)
Lemma cancelAppointment_cancelled (st : Store) (id : string) (actor : Actor)
      (appt : Appointment) :
  find (fun a => String.eqb (a_id a) id) (appointments st) = Some appt ->
  a_status appt = CANCELLED ->
  cancelAppointment id actor st = (inr appt, st).
Proof.
  intros Hf Hs. unfold cancelAppointment. unfold_m.
  now rewrite Hf, Hs.
Qed.

(** A successful cancellation returns the appointment with status
    CANCELLED and leaves a store in which that is the row found. *)
Lemma cancelAppointment_success (st st' : Store) (id : string)
      (actor : Actor) (appt a : Appointment) :
  find (fun x => String.eqb (a_id x) id) (appointments st) = Some appt ->
  cancelAppointment id actor st = (inr a, st') ->
  a = set_status CANCELLED appt
  /\ find (fun x => String.eqb (a_id x) id) (appointments st') = Some a.
Proof.
  intros Hf. unfold cancelAppointment, assertBusinessAccess. unfold_m.
  rewrite Hf.
  destruct (AppointmentStatus_eqb (a_status appt) CANCELLED) eqn:Es.
  - intros H. injection H as <- <-. split; auto.
    destruct appt as [? ? ? ? ? ? ? ? []]; simpl in *; try discriminate.
    reflexivity.
  - destruct (actor_kind actor).
    + destruct (negb _); [discriminate|]. simpl.
      intros H. injection H as <- <-. split; auto.
      simpl. now apply find_update_status.
    + simpl.
      destruct (find _ (businesses st)) as [b|]; [|discriminate].
      destruct (_ && _); [discriminate|]. simpl.
      intros H. injection H as <- <-. split; auto.
      simpl. now apply find_update_status.
Qed.

(** C9: cancelling an appointment that is already CANCELLED succeeds,
    returns it as it is and leaves the store untouched; and after any
    successful cancellation, cancelling again (by any actor) returns the
    same appointment, in status CANCELLED, and leaves the same store. *)
Theorem cancelAppointment_idempotent :
  forall (st : Store) (id : string) (actor again : Actor)
         (appt : Appointment),
    find (fun a => String.eqb (a_id a) id) (appointments st) = Some appt ->
    (a_status appt = CANCELLED ->
     cancelAppointment id actor st = (inr appt, st))
    /\ (forall a st',
           cancelAppointment id actor st = (inr a, st') ->
           a_status a = CANCELLED
           /\ cancelAppointment id again st' = (inr a, st')).
Proof.
  intros st id actor again appt Hf. split.
  - now apply cancelAppointment_cancelled.
  - intros a st' Hrun.
    destruct (cancelAppointment_success st st' id actor appt a Hf Hrun)
      as [-> Hf'].
    split; [reflexivity|].
    now apply cancelAppointment_cancelled.
Qed.

(** The hypothesis of C9 holds for Ana cancelling her booking at the
    salon: the first call cancels, the second returns the same. *)
Lemma cancelAppointment_idempotent_witness :
  cancelAppointment "id6" (mkActor "id4" client) Examples.salonBooked
  = (inr (mkAppointment "id6" "id1" "id2" "id4" None Examples.monday_1000
                        1767578400000 None CANCELLED),
     Examples.salonCancelled)
  /\ cancelAppointment "id6" (mkActor "id5" client) Examples.salonCancelled
     = (inr (mkAppointment "id6" "id1" "id2" "id4" None Examples.monday_1000
                           1767578400000 None CANCELLED),
        Examples.salonCancelled).
Proof.
  assert (Hf : find (fun a => String.eqb (a_id a) "id6")
                    (appointments Examples.salonBooked)
               = Some (mkAppointment "id6" "id1" "id2" "id4" None
                         Examples.monday_1000 1767578400000 None BOOKED))
    by reflexivity.
  destruct (cancelAppointment_idempotent
              Examples.salonBooked "id6" (mkActor "id4" client)
              (mkActor "id5" client) _ Hf) as [_ H].
  split; [reflexivity|].
  apply (H _ _ eq_refl).
Defined.

(** C8, as the code has it: a customer other than the one who booked is
    refused with a forbidden error when the appointment is not cancelled,
    and the store, hence the status, stays as it was; when a customer's
    call changes the store, that customer is the one who booked. *)
Theorem cancelAppointment_other_customer_forbidden :
  forall (st : Store) (id : string) (actor : Actor) (appt : Appointment),
    find (fun a => String.eqb (a_id a) id) (appointments st) = Some appt ->
    actor_kind actor = client ->
    a_status appt <> CANCELLED ->
    (actor_id actor <> a_customerId appt ->
     cancelAppointment id actor st =
     (inl (ForbiddenException "Solo el cliente que reservó puede cancelar"),
      st))
    /\ (forall a st',
           cancelAppointment id actor st = (inr a, st') ->
           actor_id actor = a_customerId appt).
Proof.
  intros st id actor appt Hf Hk Hs.
  assert (Es : AppointmentStatus_eqb (a_status appt) CANCELLED = false)
    by (destruct (a_status appt); simpl; congruence).
  unfold cancelAppointment. unfold_m. rewrite Hf, Es, Hk.
  destruct (String.eqb (a_customerId appt) (actor_id actor)) eqn:E; simpl.
  - apply String.eqb_eq in E. split; [congruence|]. intros; congruence.
  - split; [reflexivity|]. intros a st' H. discriminate.
Qed.

(** The hypotheses of the amended C8 hold when Ben tries to cancel Ana's
    booking at the salon. *)
Lemma cancelAppointment_other_customer_forbidden_witness :
  cancelAppointment "id6" (mkActor "id5" client) Examples.salonBooked =
  (inl (ForbiddenException "Solo el cliente que reservó puede cancelar"),
   Examples.salonBooked).
Proof.
  assert (Hf : find (fun a => String.eqb (a_id a) "id6")
                    (appointments Examples.salonBooked)
               = Some (mkAppointment "id6" "id1" "id2" "id4" None
                         Examples.monday_1000 1767578400000 None BOOKED))
    by reflexivity.
  destruct (cancelAppointment_other_customer_forbidden
              Examples.salonBooked "id6" (mkActor "id5" client) _ Hf
              eq_refl) as [H _].
  - vm_compute. discriminate.
  - apply H. vm_compute. discriminate.
Defined.

(** C8 fails as stated: Ben, who did not book it, asks to cancel Ana's
    appointment after she cancelled it; the call is not refused, it
    returns the appointment. *)
Lemma cancel_by_other_customer_not_refused :
  find (fun a => String.eqb (a_id a) "id6")
       (appointments Examples.salonCancelled)
  = Some (mkAppointment "id6" "id1" "id2" "id4" None Examples.monday_1000
                        1767578400000 None CANCELLED)
  /\ actor_id (mkActor "id5" client) <> "id4"%string
  /\ cancelAppointment "id6" (mkActor "id5" client) Examples.salonCancelled
     = (inr (mkAppointment "id6" "id1" "id2" "id4" None Examples.monday_1000
                           1767578400000 None CANCELLED),
        Examples.salonCancelled).
Proof.
  repeat split; try reflexivity. vm_compute. discriminate.
Qed.

(** ** Slot generator *)

(** If [getAvailability] returns a result, it is the one built from the
    day's context and the slot loop; the store is not written. *)
Lemma getAvailability_inv (fuel : nat) (now : DateTime) (st st' : Store)
      (businessId : string) (params : AvailabilityRequest)
      (av : Availability) :
  getAvailability fuel now businessId params st = (inr (Some av), st') ->
  exists b d svc slots,
    find (fun x => String.eqb (b_id x) businessId) (businesses st) = Some b
    /\ req_date params = Some d
    /\ find (fun x => String.eqb (s_id x) (req_serviceId params))
            (services st) = Some svc
    /\ st' = st
    /\ generateSlots fuel now (b_timezone b) (s_durationMin svc)
                     (stepOf (req_stepMinutes params)) (req_staffId params)
                     (appointmentsOf st businessId
                                     (startOfDay (b_timezone b) d))
                     (openIntervals st b (startOfDay (b_timezone b) d))
       = Some slots
    /\ av = mkAvailability (startOfDay (b_timezone b) d) (b_timezone b)
                           (s_durationMin svc)
                           (stepOf (req_stepMinutes params)) slots.
Proof.
  unfold getAvailability. unfold_m.
  destruct (getDailyContext businessId (req_date params) st)
    as [[e|ctx] st1] eqn:Ectx; [discriminate|].
  destruct (getDailyContext_inv _ _ _ _ _ Ectx) as (b & d & Hb & Hd).
  rewrite Hd, (getDailyContext_found st businessId b d Hb) in Ectx.
  injection Ectx as <- <-.
  destruct (find _ (services st)) as [svc|] eqn:Es; [|discriminate].
  destruct (negb _); [discriminate|]. simpl.
  destruct (generateSlots _ _ _ _ _ _ _ _) as [slots|] eqn:Eg;
    simpl; [|discriminate].
  intros H. injection H as <- <-.
  exists b, d, svc, slots. auto 10.
Qed.

(** Every slot a walk emits passed the conflict test and has the service's
    duration. *)
Lemma walkInterval_slots (fuel : nat) (now : DateTime) (tz : Zone)
      (dur step : Z) (staff : option string) (appts : list Appointment)
      (iend : DateTime) :
  forall cursor slots,
    walkInterval fuel now tz dur step staff appts iend cursor = Some slots ->
    forall slot,
      In slot slots ->
      hasConflict (slot_startAt slot) (slot_endAt slot) tz staff appts = false
      /\ slot_endAt slot = plus_minutes (slot_startAt slot) dur.
Proof.
  induction fuel as [|fuel IH]; intros cursor slots; simpl.
  - destruct (slotFits _ _ _ _); [discriminate|].
    intros H. injection H as <-. intros slot [].
  - destruct (slotFits _ _ _ _).
    + destruct (walkInterval fuel now tz dur step staff appts iend
                             (nextCursor step cursor)) as [later|] eqn:El;
        [|discriminate].
      destruct (negb (cursor <=? minus_minutes now 1)); simpl.
      * destruct (hasConflict cursor (plus_minutes cursor dur) tz staff appts)
          eqn:Ec; simpl; intros H; injection H as <-.
        -- intros slot Hin. eapply IH; eauto.
        -- intros slot [<- | Hin]; [simpl; auto|]. eapply IH; eauto.
      * intros H. injection H as <-. intros slot Hin. eapply IH; eauto.
    + intros H. injection H as <-. intros slot [].
Qed.

Lemma generateSlots_slots (fuel : nat) (now : DateTime) (tz : Zone)
      (dur step : Z) (staff : option string) (appts : list Appointment) :
  forall intervals slots,
    generateSlots fuel now tz dur step staff appts intervals = Some slots ->
    forall slot,
      In slot slots ->
      hasConflict (slot_startAt slot) (slot_endAt slot) tz staff appts = false
      /\ slot_endAt slot = plus_minutes (slot_startAt slot) dur.
Proof.
  induction intervals as [|i rest IH]; intros slots; simpl.
  - intros H. injection H as <-. intros slot [].
  - destruct (walkInterval fuel now tz dur step staff appts (i_end i)
                           (i_start i)) as [here|] eqn:Ew; [|discriminate].
    destruct (generateSlots fuel now tz dur step staff appts rest)
      as [later|]; [|discriminate].
    intros H. injection H as <-. intros slot Hin.
    apply in_app_or in Hin. destruct Hin as [Hin | Hin].
    + eapply walkInterval_slots; eauto.
    + eapply IH; eauto.
Qed.

(** C4: in any result of [getAvailability], no slot overlaps a
    non-cancelled appointment of that business starting on the queried
    day whose staff scoping is compatible with the request. *)
Theorem getAvailability_slots_free :
  forall (fuel : nat) (now : DateTime) (st st' : Store)
         (businessId : string) (params : AvailabilityRequest)
         (av : Availability),
    getAvailability fuel now businessId params st = (inr (Some av), st') ->
    forall (slot : Slot) (appt : Appointment),
      In slot (av_slots av) ->
      In appt (appointments st) ->
      a_businessId appt = businessId ->
      in_day (av_date av) (a_startAt appt) = true ->
      a_status appt <> CANCELLED ->
      staff_compatible (req_staffId params) (a_staffId appt) ->
      ~ time_overlap (slot_startAt slot) (slot_endAt slot)
                     (a_startAt appt) (a_endAt appt).
Proof.
  intros fuel now st st' businessId params av Hrun slot appt
         Hslot Hin Hb Hday Hstatus Hstaff Hover.
  destruct (getAvailability_inv _ _ _ _ _ _ _ Hrun)
    as (b & d & svc & slots & _ & _ & _ & _ & Hgen & ->).
  simpl in *.
  destruct (generateSlots_slots _ _ _ _ _ _ _ _ _ Hgen slot Hslot)
    as [Hfree _].
  assert (Hc : hasConflict (slot_startAt slot) (slot_endAt slot)
                 (b_timezone b) (req_staffId params)
                 (appointmentsOf st businessId
                                 (startOfDay (b_timezone b) d)) = true).
  { apply hasConflict_iff. exists appt. repeat split; auto.
    - apply appointmentsOf_In. auto.
    - apply Hover.
    - apply Hover. }
  congruence.
Qed.

(** The hypotheses of C4 hold at the salon with Ana's booking: with a step
    of 60 minutes the 09:00 slot is offered, and it does not overlap her
    10:00-11:00 appointment. *)
Lemma getAvailability_slots_free_witness :
  ~ time_overlap 1767571200000 1767574800000
                 Examples.monday_1000 1767578400000.
Proof.
  apply (getAvailability_slots_free
           20 Examples.monday_0000 Examples.salonBooked Examples.salonBooked
           "id1"
           (mkAvailabilityRequest (Some Examples.monday_1000) "id2"
                                  (Some 60) None)
           (mkAvailability Examples.monday_0000 540 60 60
              [mkSlot 1767571200000 1767574800000;
               mkSlot 1767578400000 1767582000000;
               mkSlot 1767582000000 1767585600000;
               mkSlot 1767585600000 1767589200000;
               mkSlot 1767589200000 1767592800000;
               mkSlot 1767592800000 1767596400000;
               mkSlot 1767596400000 1767600000000;
               mkSlot 1767600000000 1767603600000])
           eq_refl
           (mkSlot 1767571200000 1767574800000)
           (mkAppointment "id6" "id1" "id2" "id4" None
                          Examples.monday_1000 1767578400000 None BOOKED)).
  - vm_compute. auto.
  - vm_compute. auto.
  - reflexivity.
  - reflexivity.
  - vm_compute. discriminate.
  - left. unfold names_staff. simpl. discriminate.
Defined.

(** ** Termination of the slot loop *)

(** What the loop condition says when it holds. *)
Lemma slotFits_true (tz : Zone) (dur : Z) (iend cursor : DateTime) :
  slotFits tz dur iend cursor = true ->
  isValid tz cursor = true
  /\ isValid tz (plus_minutes cursor dur) = true
  /\ isValid tz iend = true
  /\ plus_minutes cursor dur <= iend.
Proof.
  unfold slotFits, leq. rewrite !andb_true_iff, Z.leb_le. tauto.
Qed.

Lemma isValid_bounds (tz : Zone) (dt : DateTime) :
  isValid tz dt = true
  <-> - MAX_DATE <= dt + tz * MS_PER_MINUTE <= MAX_DATE.
Proof.
  unfold isValid. rewrite Z.leb_le. lia.
Qed.

(** Number of turns after which the loop condition must have failed. *)
Lemma walkInterval_total (now : DateTime) (tz : Zone) (dur step : Z)
      (staff : option string) (appts : list Appointment) (iend : DateTime) :
  0 < step ->
  forall fuel cursor,
    (Z.to_nat (iend - plus_minutes cursor dur + 1) <= fuel)%nat ->
    exists slots,
      walkInterval fuel now tz dur step staff appts iend cursor = Some slots.
Proof.
  intros Hstep. induction fuel as [|fuel IH]; intros cursor Hm; simpl.
  - destruct (slotFits tz dur iend cursor) eqn:E.
    + apply slotFits_true in E. lia.
    + now exists [].
  - destruct (slotFits tz dur iend cursor) eqn:E; [|now exists []].
    apply slotFits_true in E.
    destruct (IH (nextCursor step cursor)) as [later Hl].
    + unfold nextCursor, plus_minutes, MS_PER_MINUTE in *. lia.
    + rewrite Hl. destruct (_ && _); eauto.
Qed.

(** With a negative step the cursor goes back until it leaves the range
    of valid DateTimes, where the loop condition fails. *)
Lemma walkInterval_total_backwards (now : DateTime) (tz : Zone)
      (dur step : Z) (staff : option string) (appts : list Appointment)
      (iend : DateTime) :
  step < 0 ->
  forall fuel cursor,
    (Z.to_nat (cursor + tz * MS_PER_MINUTE + MAX_DATE + 1) <= fuel)%nat ->
    exists slots,
      walkInterval fuel now tz dur step staff appts iend cursor = Some slots.
Proof.
  intros Hstep. induction fuel as [|fuel IH]; intros cursor Hm; simpl.
  - destruct (slotFits tz dur iend cursor) eqn:E.
    + apply slotFits_true in E. destruct E as (E & _).
      apply isValid_bounds in E. lia.
    + now exists [].
  - destruct (slotFits tz dur iend cursor) eqn:E; [|now exists []].
    apply slotFits_true in E. destruct E as (E & _).
    apply isValid_bounds in E.
    destruct (IH (nextCursor step cursor)) as [later Hl].
    + unfold nextCursor, plus_minutes, MS_PER_MINUTE in *. lia.
    + rewrite Hl. destruct (_ && _); eauto.
Qed.

(** More fuel does not change a finished walk. *)
Lemma walkInterval_more_fuel (now : DateTime) (tz : Zone) (dur step : Z)
      (staff : option string) (appts : list Appointment) (iend : DateTime) :
  forall fuel cursor slots,
    walkInterval fuel now tz dur step staff appts iend cursor = Some slots ->
    forall fuel', (fuel <= fuel')%nat ->
      walkInterval fuel' now tz dur step staff appts iend cursor = Some slots.
Proof.
  induction fuel as [|fuel IH]; intros cursor slots; simpl.
  - destruct (slotFits tz dur iend cursor) eqn:E; [discriminate|].
    intros H fuel' _. destruct fuel'; simpl; now rewrite E.
  - destruct (slotFits tz dur iend cursor) eqn:E.
    + destruct (walkInterval fuel now tz dur step staff appts iend
                             (nextCursor step cursor)) as [later|] eqn:El;
        [|discriminate].
      intros H fuel' Hle. destruct fuel' as [|fuel']; [lia|].
      simpl. rewrite E. rewrite (IH _ _ El fuel') by lia. exact H.
    + intros H fuel' _. destruct fuel'; simpl; now rewrite E.
Qed.

(** With a step that is not zero every walk ends. *)
Lemma walkInterval_ends (now : DateTime) (tz : Zone) (dur step : Z)
      (staff : option string) (appts : list Appointment)
      (iend cursor : DateTime) :
  step <> 0 ->
  exists fuel slots,
    forall fuel', (fuel <= fuel')%nat ->
      walkInterval fuel' now tz dur step staff appts iend cursor
      = Some slots.
Proof.
  intros Hstep.
  assert (H : exists fuel slots,
             walkInterval fuel now tz dur step staff appts iend cursor
             = Some slots).
  { destruct (Z.lt_total step 0) as [Hn | [-> | Hp]]; [|lia|].
    - eexists.
      apply (walkInterval_total_backwards now tz dur step staff appts iend
               Hn _ cursor (Nat.le_refl _)).
    - eexists.
      apply (walkInterval_total now tz dur step staff appts iend
               Hp _ cursor (Nat.le_refl _)). }
  destruct H as (fuel & slots & H). exists fuel, slots.
  intros fuel' Hle. eapply walkInterval_more_fuel; eauto.
Qed.

(** And so does the loop over the intervals. *)
Lemma generateSlots_ends (now : DateTime) (tz : Zone) (dur step : Z)
      (staff : option string) (appts : list Appointment) :
  step <> 0 ->
  forall intervals,
  exists fuel slots,
    forall fuel', (fuel <= fuel')%nat ->
      generateSlots fuel' now tz dur step staff appts intervals = Some slots.
Proof.
  intros Hstep. induction intervals as [|i rest (fuel & later & IH)].
  - exists O, []. reflexivity.
  - destruct (walkInterval_ends now tz dur step staff appts (i_end i)
                (i_start i) Hstep) as (fuel0 & here & Hhere).
    exists (Nat.max fuel0 fuel), (here ++ later).
    intros fuel' Hle. simpl.
    rewrite Hhere by lia. rewrite IH by lia. reflexivity.
Qed.

Lemma generateSlots_total (now : DateTime) (tz : Zone) (dur step : Z)
      (staff : option string) (appts : list Appointment) :
  0 < step ->
  forall intervals,
  exists fuel slots,
    forall fuel', (fuel <= fuel')%nat ->
      generateSlots fuel' now tz dur step staff appts intervals = Some slots.
Proof.
  intros Hstep. induction intervals as [|i rest (fuel & later & IH)].
  - exists O, []. reflexivity.
  - destruct (walkInterval_total now tz dur step staff appts (i_end i) Hstep
                _ (i_start i) (Nat.le_refl _)) as [here Hhere].
    exists (Nat.max (Z.to_nat (i_end i - plus_minutes (i_start i) dur + 1))
                    fuel), (here ++ later).
    intros fuel' Hle. simpl.
    rewrite (walkInterval_more_fuel _ _ _ _ _ _ _ _ _ _ Hhere fuel')
      by lia.
    rewrite IH by lia. reflexivity.
Qed.

Lemma stepOf_positive (stepMinutes : option Z) :
  (forall n, stepMinutes = Some n -> 0 <= n) ->
  0 < stepOf stepMinutes.
Proof.
  intros H. unfold stepOf, DEFAULT_STEP_MINUTES.
  destruct stepMinutes as [n|]; [|lia].
  specialize (H n eq_refl).
  destruct (n =? 0) eqn:E; [lia|]. apply Z.eqb_neq in E. lia.
Qed.

(** C10: for a step that is a positive number of minutes, or omitted or
    zero and so replaced by the default of 15, the cursor strictly
    increases at each turn of the loop, and on every finite list of open
    intervals the slot loops end: from some number of turns on, the
    generator returns one and the same finite list of slots, and
    [getAvailability] never runs out of turns. *)
Theorem slot_generation_terminates :
  forall (stepMinutes : option Z),
    (forall n, stepMinutes = Some n -> 0 <= n) ->
    (stepMinutes = None \/ stepMinutes = Some 0 ->
     stepOf stepMinutes = DEFAULT_STEP_MINUTES /\ DEFAULT_STEP_MINUTES = 15)
    /\ (forall cursor, cursor < nextCursor (stepOf stepMinutes) cursor)
    /\ (forall now timezone serviceDuration staffId appts intervals,
         exists fuel slots,
           forall fuel', (fuel <= fuel')%nat ->
             generateSlots fuel' now timezone serviceDuration
                           (stepOf stepMinutes) staffId appts intervals
             = Some slots)
    /\ (forall now st businessId date serviceId staffId,
         exists fuel,
           forall fuel', (fuel <= fuel')%nat ->
             fst (getAvailability fuel' now businessId
                    (mkAvailabilityRequest date serviceId stepMinutes staffId)
                    st) <> inr None).
Proof.
  intros stepMinutes Hpos.
  pose proof (stepOf_positive stepMinutes Hpos) as Hstep.
  split; [|split; [|split]].
  - intros [-> | ->]; split; reflexivity.
  - intros cursor. unfold nextCursor, plus_minutes, MS_PER_MINUTE. lia.
  - intros. now apply generateSlots_total.
  - intros now st businessId date serviceId staffId.
    unfold getAvailability. unfold_m. simpl.
    destruct (getDailyContext businessId date st) as [[e|ctx] st1];
      [exists O; intros; simpl; discriminate|].
    destruct (find _ (services st1)) as [svc|];
      [|exists O; intros; simpl; discriminate].
    destruct (negb _); [exists O; intros; simpl; discriminate|].
    destruct (generateSlots_total now (ctx_timezone ctx) (s_durationMin svc)
                (stepOf stepMinutes) staffId (ctx_appointments ctx) Hstep
                (ctx_intervals ctx)) as (fuel & slots & H).
    exists fuel. intros fuel' Hle. simpl. rewrite (H fuel' Hle). simpl.
    discriminate.
Qed.

(** The hypothesis of C10 holds for a step of 60 minutes: the cursor
    moves forward. *)
Lemma slot_generation_terminates_witness :
  Examples.monday_0000 < nextCursor (stepOf (Some 60)) Examples.monday_0000.
Proof.
  assert (H : forall n, Some 60 = Some n -> 0 <= n)
    by (intros n E; injection E as <-; lia).
  exact (proj1 (proj2 (slot_generation_terminates (Some 60) H))
               Examples.monday_0000).
Defined.

(** ** What each operation writes *)

(** A booking either leaves the store as it was, or its lookups succeeded,
    the slot fits and is free, and the one new row is appended. *)
Lemma createAppointment_writes (st : Store) (input : CreateAppointmentInput)
      (customerId : string) :
  snd (createAppointment input customerId st) = st
  \/ exists b svc start,
      admitted_request st input customerId b svc start
      /\ fitsAvailability start (plus_minutes start (s_durationMin svc))
           (openIntervals st b (startOfDay (b_timezone b) start)) = true
      /\ hasConflict start (plus_minutes start (s_durationMin svc))
           (b_timezone b) (cai_staffId input)
           (appointmentsOf st (cai_businessId input)
                           (startOfDay (b_timezone b) start)) = false
      /\ snd (createAppointment input customerId st)
         = storeWithAppointment st
             (createdAppointment st input customerId svc start).
Proof.
  destruct (find (fun x => String.eqb (b_id x) (cai_businessId input))
                 (businesses st)) as [b|] eqn:Hb;
    [|left; unfold createAppointment; unfold_m; now rewrite Hb].
  destruct (find (fun x => String.eqb (s_id x) (cai_serviceId input))
                 (services st)) as [svc|] eqn:Hs;
    [|left; unfold createAppointment; unfold_m; now rewrite Hb, Hs].
  destruct (String.eqb (s_businessId svc) (cai_businessId input)) eqn:Hsb;
    [|left; unfold createAppointment; unfold_m; now rewrite Hb, Hs, Hsb].
  apply String.eqb_eq in Hsb.
  destruct (find (fun x => String.eqb (uc_id x) customerId)
                 (userClients st)) as [cust|] eqn:Hc;
    [|left; unfold createAppointment; unfold_m;
      now rewrite Hb, Hs, Hsb, String.eqb_refl, Hc].
  destruct (Js.truthy_opt (cai_staffId input)
            && match find (fun x => String.eqb (ub_id x)
                             match cai_staffId input with
                             | Some s => s
                             | None => EmptyString
                             end) (userBusinesses st) with
               | Some _ => false
               | None => true
               end) eqn:Hst.
  { left. unfold createAppointment. unfold_m.
    rewrite Hb, Hs, Hsb, String.eqb_refl, Hc. simpl.
    apply andb_true_iff in Hst. destruct Hst as [Ht Hn]. rewrite Ht.
    destruct (find _ (userBusinesses st)); [discriminate|]. reflexivity. }
  destruct (cai_startAt input) as [start|] eqn:Hstart.
  - assert (Hadm : admitted_request st input customerId b svc start).
    { unfold admitted_request. repeat split; auto; try congruence.
      intros sid Esid Et. rewrite Esid in Hst. simpl in Hst. rewrite Et in Hst.
      destruct (find _ (userBusinesses st)); [discriminate|].
      simpl in Hst. discriminate. }
    pose proof (createAppointment_admitted st input customerId b svc start
                  Hadm) as Hrun.
    cbv zeta in Hrun. rewrite Hrun.
    destruct (fitsAvailability _ _ _) eqn:Ef; simpl; auto.
    destruct (hasConflict _ _ _ _ _) eqn:Ec; simpl; auto.
    right. exists b, svc, start. auto.
  - left.
    rewrite (createAppointment_unparseable_start st input customerId b svc);
      auto; try congruence.
    intros sid Esid Et. rewrite Esid in Hst. simpl in Hst. rewrite Et in Hst.
    destruct (find _ (userBusinesses st)); [discriminate|].
    simpl in Hst. discriminate.
Qed.

(** A cancellation writes at most the status of one row. *)
Lemma cancelAppointment_writes (st : Store) (id : string) (actor : Actor) :
  snd (cancelAppointment id actor st) = st
  \/ snd (cancelAppointment id actor st)
     = with_appointments (update_status id CANCELLED) st.
Proof.
  unfold cancelAppointment, assertBusinessAccess. unfold_m.
  destruct (find _ (appointments st)) as [appt|]; simpl; auto.
  destruct (AppointmentStatus_eqb (a_status appt) CANCELLED); simpl; auto.
  destruct (actor_kind actor); simpl.
  - destruct (negb _); simpl; auto.
  - destruct (find _ (businesses st)) as [b|]; simpl; auto.
    destruct (_ && _); simpl; auto.
Qed.

(** The appointment table after one operation. *)
Lemma exec_appointments (op : Operation) (st : Store) :
  appointments (exec op st) = appointments st
  \/ (exists input customerId b svc start,
         admitted_request st input customerId b svc start
         /\ fitsAvailability start (plus_minutes start (s_durationMin svc))
              (openIntervals st b (startOfDay (b_timezone b) start)) = true
         /\ hasConflict start (plus_minutes start (s_durationMin svc))
              (b_timezone b) (cai_staffId input)
              (appointmentsOf st (cai_businessId input)
                              (startOfDay (b_timezone b) start)) = false
         /\ appointments (exec op st)
            = appointments st
              ++ [createdAppointment st input customerId svc start])
  \/ (exists id,
         appointments (exec op st)
         = update_status id CANCELLED (appointments st)).
Proof.
  destruct op; simpl.
  - left. unfold createClient, freshId. unfold_m.
    destruct (existsb _ _); reflexivity.
  - left. unfold createBusinessUser, freshId. unfold_m.
    destruct (existsb _ _); reflexivity.
  - left. unfold createBusiness, freshId. unfold_m.
    destruct (find _ _) as [o|]; [|reflexivity].
    destruct (ub_role o); reflexivity.
  - left. unfold createService, assertBusinessAccess, freshId. unfold_m.
    destruct (find _ _) as [b|]; [|reflexivity].
    destruct (_ && _); reflexivity.
  - left. unfold addAvailabilityRule, assertBusinessAccess,
            assertValidTimeRange, freshId. unfold_m.
    destruct (find _ _) as [b|]; [|reflexivity].
    destruct (_ && _); [reflexivity|]. simpl.
    destruct (_ || _); [reflexivity|]. simpl.
    destruct (intervalFromStrings _ _ _ _); reflexivity.
  - left. unfold addAvailabilityException, assertBusinessAccess,
            assertValidTimeRange, freshId. unfold_m.
    destruct (find _ _) as [b|]; [|reflexivity].
    destruct (_ && _); [reflexivity|]. simpl.
    destruct (aei_date input); [|reflexivity].
    destruct (not_closed _); [|reflexivity].
    destruct (aei_startTime input) as [s|]; [|reflexivity].
    destruct (aei_endTime input) as [e|]; [|reflexivity].
    destruct (_ && _); [|reflexivity].
    destruct (intervalFromStrings _ _ _ _); reflexivity.
  - destruct (createAppointment_writes st input customerId)
      as [-> | (b & svc & start & Hadm & Hf & Hc & ->)]; auto.
    right. left. exists input, customerId, b, svc, start. auto.
  - destruct (cancelAppointment_writes st id actor) as [-> | ->]; auto.
    right. right. exists id. reflexivity.
Qed.

Ltac table_grows :=
  do 3 eexists;
  repeat match goal with
         | |- _ /\ _ => split
         | |- _ = _ => first [reflexivity | symmetry; apply app_nil_r]
         end.

(** Businesses, rules and exceptions are only ever appended to, and an
    appended exception that is not a closure has its override times. *)
Lemma exec_tables (op : Operation) (st : Store) :
  exists newBusinesses newRules newExceptions,
    businesses (exec op st) = businesses st ++ newBusinesses
    /\ availabilityRules (exec op st) = availabilityRules st ++ newRules
    /\ availabilityExceptions (exec op st)
       = availabilityExceptions st ++ newExceptions
    /\ Forall override_complete newExceptions.
Proof.
  destruct op; simpl.
  - unfold createClient, freshId. unfold_m.
    destruct (existsb _ _); simpl; table_grows; constructor.
  - unfold createBusinessUser, freshId. unfold_m.
    destruct (existsb _ _); simpl; table_grows; constructor.
  - unfold createBusiness, freshId. unfold_m.
    destruct (find _ _) as [o|]; [|simpl; table_grows; constructor].
    destruct (ub_role o); simpl; table_grows; constructor.
  - unfold createService, assertBusinessAccess, freshId. unfold_m.
    destruct (find _ _) as [b|]; [|simpl; table_grows; constructor].
    destruct (_ && _); simpl; table_grows; constructor.
  - unfold addAvailabilityRule, assertBusinessAccess,
      assertValidTimeRange, freshId. unfold_m.
    destruct (find _ _) as [b|]; [|simpl; table_grows; constructor].
    destruct (_ && _); [simpl; table_grows; constructor|]. simpl.
    destruct (_ || _); [simpl; table_grows; constructor|]. simpl.
    destruct (intervalFromStrings _ _ _ _); simpl; table_grows; constructor.
  - unfold addAvailabilityException, assertBusinessAccess,
      assertValidTimeRange, freshId. unfold_m.
    destruct (find _ _) as [b|]; [|simpl; table_grows; constructor].
    destruct (_ && _); [simpl; table_grows; constructor|]. simpl.
    destruct (aei_date input); [|simpl; table_grows; constructor].
    destruct (aei_isClosed input) as [[|]|]; simpl.
    + table_grows. constructor; [|constructor].
      unfold override_complete. simpl. discriminate.
    + destruct (aei_startTime input) as [s|];
        [|simpl; table_grows; constructor].
      destruct (aei_endTime input) as [e|];
        [|simpl; table_grows; constructor].
      destruct (Js.truthy s) eqn:Hs; [|simpl; table_grows; constructor].
      destruct (Js.truthy e) eqn:He; [|simpl; table_grows; constructor].
      simpl.
      destruct (intervalFromStrings _ _ _ _);
        simpl; table_grows; constructor; [|constructor].
      unfold override_complete. simpl. intros _. now exists s, e.
    + destruct (aei_startTime input) as [s|];
        [|simpl; table_grows; constructor].
      destruct (aei_endTime input) as [e|];
        [|simpl; table_grows; constructor].
      destruct (Js.truthy s) eqn:Hs; [|simpl; table_grows; constructor].
      destruct (Js.truthy e) eqn:He; [|simpl; table_grows; constructor].
      simpl.
      destruct (intervalFromStrings _ _ _ _);
        simpl; table_grows; constructor; [|constructor].
      unfold override_complete. simpl. discriminate.
  - destruct (createAppointment_writes st input customerId)
      as [-> | (b & svc & start & _ & _ & _ & ->)];
      simpl; table_grows; constructor.
  - destruct (cancelAppointment_writes st id actor) as [-> | ->];
      simpl; table_grows; constructor.
Qed.

(** In a reachable store every exception that is not a closure has its
    override times. *)
Lemma reachable_override_complete (st : Store) :
  reachable st ->
  Forall override_complete (availabilityExceptions st).
Proof.
  induction 1 as [|st op _ IH]; [constructor|].
  destruct (exec_tables op st) as (nb & nr & ne & _ & _ & -> & Hne).
  apply Forall_app. auto.
Qed.

(** C6, as the code has it: the resolver consults one exception, the
    first stored for the business whose date falls on the queried day.
    When that exception is not closed and carries both override times,
    the open intervals of the day are exactly the one interval built
    from them, or none when that pair fails interval validation; the
    weekly rules of that weekday contribute nothing.  In a store reached
    through the service's operations a non-closed exception always
    carries both times; one that lacked a time would leave the intervals
    of the rules as they are. *)
Theorem open_exception_replaces_rules :
  forall (st : Store) (businessId : string) (b : Business) (d : DateTime)
         (ex : AvailabilityException),
    find (fun x => String.eqb (b_id x) businessId) (businesses st) = Some b ->
    first_exception_of st businessId (startOfDay (b_timezone b) d) ex ->
    e_isClosed ex = false ->
    exists ctx,
      getDailyContext businessId (Some d) st = (inr ctx, st)
      /\ ctx_day ctx = startOfDay (b_timezone b) d
      /\ (forall startTime endTime,
             e_startTime ex = Some startTime ->
             e_endTime ex = Some endTime ->
             Js.truthy startTime = true -> Js.truthy endTime = true ->
             ctx_intervals ctx
             = match intervalFromStrings (ctx_day ctx) (b_timezone b)
                                         startTime endTime with
               | Some override => [override]
               | None => []
               end)
      /\ (reachable st ->
          exists startTime endTime,
            e_startTime ex = Some startTime /\ e_endTime ex = Some endTime
            /\ Js.truthy startTime = true /\ Js.truthy endTime = true)
      /\ (Js.truthy_opt (e_startTime ex) && Js.truthy_opt (e_endTime ex)
          = false ->
          ctx_intervals ctx
          = ruleIntervals (ctx_day ctx) (b_timezone b)
              (rulesOf st businessId
                       (dayOfWeekOf (b_timezone b) (ctx_day ctx)))).
Proof.
  intros st businessId b d ex Hb Hfirst Hopen.
  pose proof (exceptionOf_first _ _ _ _ Hfirst) as Hex.
  rewrite (getDailyContext_found st businessId b d Hb).
  eexists. split; [reflexivity|]. simpl. split; [reflexivity|].
  unfold openIntervals, resolveIntervals.
  rewrite (find_business_id st businessId b Hb), Hex, Hopen.
  split; [|split].
  - intros s e Hs He Hts Hte. now rewrite Hs, He, Hts, Hte.
  - intros Hreach.
    assert (Hin : In ex (availabilityExceptions st))
      by (unfold exceptionOf in Hex; now apply find_some in Hex).
    pose proof (reachable_override_complete st Hreach) as Hall.
    rewrite Forall_forall in Hall.
    exact (Hall ex Hin Hopen).
  - destruct (e_startTime ex) as [s|]; simpl.
    + destruct (e_endTime ex) as [e|]; simpl; [|reflexivity].
      intros H. now rewrite H.
    + reflexivity.
Qed.

Lemma reachable_execAll (ops : list Operation) :
  forall st, reachable st -> reachable (execAll ops st).
Proof.
  induction ops as [|op ops IH]; intros st H; simpl; auto.
  apply IH. now constructor.
Qed.

(** The hypotheses of C6 hold at the salon with the 10:00-12:00 override
    entered for Monday 2026-01-05: the day opens for that interval alone,
    the 09:00-18:00 rule set aside. *)
Lemma open_exception_replaces_rules_witness :
  exists ctx,
    getDailyContext "id1" (Some Examples.monday_0800) Examples.salonOverride
    = (inr ctx, Examples.salonOverride)
    /\ ctx_intervals ctx = [mkInterval 1767574800000 1767582000000].
Proof.
  destruct (open_exception_replaces_rules
              Examples.salonOverride "id1"
              (mkBusiness "id1" "id0" "Salon" 540) Examples.monday_0800
              (mkException "id6" "id1" Examples.monday_0000 false
                           (Some "10:00"%string) (Some "12:00"%string)))
    as (ctx & Hrun & Hday & Hint & _).
  - reflexivity.
  - exists [], []. repeat split; try reflexivity. intros x [].
  - reflexivity.
  - exists ctx. split; [exact Hrun|].
    rewrite (Hint "10:00"%string "12:00"%string eq_refl eq_refl eq_refl
               eq_refl), Hday.
    reflexivity.
Defined.

(** C6 as the claim states it fails: at the salon with a closure entered
    before an override for the same Monday, a non-closed exception
    exists for that business and date, its times 10:00-12:00 pass
    interval validation on that day, and the resolver opens nothing. *)
Lemma open_exception_behind_closure_ignored :
  In (mkException "id7" "id1" Examples.monday_0000 false
                  (Some "10:00"%string) (Some "12:00"%string))
     (availabilityExceptions Examples.salonClosureFirst)
  /\ in_day (startOfDay 540 Examples.monday_1000) Examples.monday_0000
     = true
  /\ intervalFromStrings (startOfDay 540 Examples.monday_1000) 540
                         "10:00" "12:00"
     = Some (mkInterval 1767574800000 1767582000000)
  /\ getDailyContext "id1" (Some Examples.monday_1000)
                     Examples.salonClosureFirst
     = (inr (mkDailyContext (mkBusiness "id1" "id0" "Salon" 540)
               [] [] Examples.monday_0000 540),
        Examples.salonClosureFirst).
Proof.
  split; [vm_compute; auto|]. repeat split; reflexivity.
Qed.

(** A request that gives override times and leaves [isClosed] out is
    checked as an override and stored as a closure
    ([isClosed: input.isClosed ?? true]). *)
Remark override_without_isClosed_stored_closed :
  availabilityExceptions
    (exec (OpAddAvailabilityException "id1"
             (mkExceptionInput (Some Examples.monday_0000) None
                               (Some "10:00"%string) (Some "12:00"%string))
             (Some "id0"%string))
          Examples.salon)
  = [mkException "id6" "id1" Examples.monday_0000 true
                 (Some "10:00"%string) (Some "12:00"%string)].
Proof.
  reflexivity.
Qed.

(** ** Open intervals of a well-timed store lie within the day *)

Lemma insert_rule_In (r x : AvailabilityRule)
      (sorted : list AvailabilityRule) :
  In x (insert_rule r sorted) -> x = r \/ In x sorted.
Proof.
  induction sorted as [|y rest IH]; simpl.
  - intros [<- | []]. auto.
  - destruct (String.ltb _ _); simpl.
    + intros [<- | H]; auto.
    + intros [<- | H]; auto. destruct (IH H); auto.
Qed.

Lemma orderByStartTime_In (rows : list AvailabilityRule)
      (x : AvailabilityRule) :
  In x (orderByStartTime rows) -> In x rows.
Proof.
  unfold orderByStartTime.
  assert (H : forall acc,
             In x (fold_left (fun acc r => insert_rule r acc) rows acc) ->
             In x rows \/ In x acc).
  { induction rows as [|r rest IH]; simpl; intros acc Hin; auto.
    destruct (IH _ Hin) as [H | H]; auto.
    destruct (insert_rule_In _ _ _ H); auto. }
  intros Hin. destruct (H [] Hin) as [Hr | []]. exact Hr.
Qed.

Lemma ruleIntervals_In (day : DateTime) (tz : Zone)
      (rules : list AvailabilityRule) (i : Interval) :
  In i (ruleIntervals day tz rules) ->
  exists r,
    In r rules
    /\ intervalFromStrings day tz (r_startTime r) (r_endTime r) = Some i.
Proof.
  induction rules as [|r rest IH]; simpl; [intros []|].
  destruct (intervalFromStrings day tz (r_startTime r) (r_endTime r))
    as [i0|] eqn:E.
  - intros [<- | H]; [exists r; auto|].
    destruct (IH H) as (r0 & Hin & Hr0). exists r0. auto.
  - intros H. destruct (IH H) as (r0 & Hin & Hr0). exists r0. auto.
Qed.

Lemma openIntervals_within_day (st : Store) (b : Business) (t : DateTime)
      (i : Interval) :
  well_timed st ->
  In i (openIntervals st b (startOfDay (b_timezone b) t)) ->
  startOfDay (b_timezone b) t <= i_start i
  /\ i_end i <= plus_days (startOfDay (b_timezone b) t) 1.
Proof.
  intros [Hrules Hexc]. unfold openIntervals, resolveIntervals.
  set (day := startOfDay (b_timezone b) t).
  assert (Hr : In i (ruleIntervals day (b_timezone b)
                       (rulesOf st (b_id b)
                                (dayOfWeekOf (b_timezone b) day))) ->
               day <= i_start i /\ i_end i <= plus_days day 1).
  { intros Hin. apply ruleIntervals_In in Hin.
    destruct Hin as (r & Hin & Hi).
    unfold rulesOf in Hin. apply orderByStartTime_In in Hin.
    apply filter_In in Hin. destruct Hin as [Hin _].
    exact (Hrules r Hin t (b_timezone b) i Hi). }
  destruct (exceptionOf st (b_id b) day) as [ex|] eqn:Eex; auto.
  destruct (e_isClosed ex); [intros []|].
  destruct (e_startTime ex) as [s|] eqn:Es; auto.
  destruct (e_endTime ex) as [e|] eqn:Ee; auto.
  destruct (_ && _); auto.
  destruct (intervalFromStrings day (b_timezone b) s e) as [o|] eqn:Eo;
    [|intros []].
  intros [<- | []].
  unfold exceptionOf in Eex. apply find_some in Eex. destruct Eex as [Hin _].
  exact (Hexc ex s e Hin Es Ee t (b_timezone b) o Eo).
Qed.

(** ** The overlap invariant on well-timed stores *)

Lemma find_app_some {A : Type} (p : A -> bool) (l extra : list A) (x : A) :
  find p l = Some x -> find p (l ++ extra) = Some x.
Proof.
  induction l as [|y l IH]; simpl; [discriminate|].
  destruct (p y); auto.
Qed.

Lemma update_status_nth (id : string) (rows : list Appointment) :
  forall n a',
    nth_error (update_status id CANCELLED rows) n = Some a' ->
    exists a,
      nth_error rows n = Some a
      /\ (a' = a \/ a' = set_status CANCELLED a).
Proof.
  induction rows as [|r rest IH]; intros n a'; simpl.
  - destruct n; discriminate.
  - destruct (String.eqb (a_id r) id).
    + destruct n; simpl.
      * intros H. injection H as <-. exists r. auto.
      * intros H. exists a'. auto.
    + destruct n; simpl.
      * intros H. injection H as <-. exists r. auto.
      * apply IH.
Qed.

Lemma well_timed_before (op : Operation) (st : Store) :
  well_timed (exec op st) -> well_timed st.
Proof.
  destruct (exec_tables op st) as (nb & nr & ne & _ & Hr & He & _).
  unfold well_timed. rewrite Hr, He. intros [H1 H2]. split.
  - intros r Hin. apply H1. apply in_or_app. auto.
  - intros e s t Hin. apply H2. apply in_or_app. auto.
Qed.

Lemma time_overlap_sym (s1 e1 s2 e2 : DateTime) :
  time_overlap s1 e1 s2 e2 -> time_overlap s2 e2 s1 e1.
Proof.
  unfold time_overlap. lia.
Qed.

Lemma same_or_no_staff_compatible (s1 s2 : option string) :
  same_or_no_staff s1 s2 -> staff_compatible s1 s2.
Proof.
  unfold same_or_no_staff, staff_compatible, names_staff.
  intros [-> | [-> | ->]]; auto.
  - left. simpl. discriminate.
  - right. left. simpl. discriminate.
Qed.

Lemma same_or_no_staff_sym (s1 s2 : option string) :
  same_or_no_staff s1 s2 -> same_or_no_staff s2 s1.
Proof.
  unfold same_or_no_staff. intuition.
Qed.

(** An appointment just booked does not overlap any appointment already in
    a day-confined store that competes with it. *)
Lemma created_is_free (st : Store) (input : CreateAppointmentInput)
      (customerId : string) (b : Business) (svc : Service)
      (start : DateTime) (old : Appointment) :
  well_timed st -> day_confined st ->
  admitted_request st input customerId b svc start ->
  fitsAvailability start (plus_minutes start (s_durationMin svc))
    (openIntervals st b (startOfDay (b_timezone b) start)) = true ->
  hasConflict start (plus_minutes start (s_durationMin svc))
    (b_timezone b) (cai_staffId input)
    (appointmentsOf st (cai_businessId input)
                    (startOfDay (b_timezone b) start)) = false ->
  In old (appointments st) ->
  a_businessId old = cai_businessId input ->
  a_status old <> CANCELLED ->
  same_or_no_staff (cai_staffId input) (a_staffId old) ->
  ~ time_overlap start (plus_minutes start (s_durationMin svc))
                 (a_startAt old) (a_endAt old).
Proof.
  intros Hwt Hconf Hadm Hfit Hfree Hin Hbus Hact Hstaff Hover.
  set (day := startOfDay (b_timezone b) start) in *.
  set (end_ := plus_minutes start (s_durationMin svc)) in *.
  destruct (in_day day (a_startAt old)) eqn:Hday.
  - assert (Hc : hasConflict start end_ (b_timezone b) (cai_staffId input)
                   (appointmentsOf st (cai_businessId input) day) = true).
    { apply hasConflict_iff. exists old. split; [|split]; auto.
      - apply appointmentsOf_In. auto.
      - now apply same_or_no_staff_compatible. }
    congruence.
  - apply fitsAvailability_iff in Hfit.
    destruct Hfit as (i & Hi & Hs & He).
    destruct (openIntervals_within_day st b start i Hwt Hi) as [_ Hiend].
    fold day in Hiend.
    destruct (Hconf old Hin) as (b' & Hb' & Hend).
    destruct Hadm as (Hb & _). rewrite Hbus, Hb in Hb'. injection Hb' as <-.
    pose proof (startOfDay_bounds (b_timezone b) start) as Hsb. fold day in Hsb.
    pose proof (startOfDay_bounds (b_timezone b) (a_startAt old)) as Hob.
    unfold time_overlap in Hover.
    destruct (in_day_false _ _ Hday) as [Hlt | Hge].
    + assert (startOfDay (b_timezone b) (a_startAt old) < day) by lia.
      pose proof (startOfDay_apart (b_timezone b) (a_startAt old) start H).
      fold day in H0. lia.
    + lia.
Qed.

Lemma nth_error_snoc {A : Type} (l : list A) (x y : A) (n : nat) :
  nth_error (l ++ [x]) n = Some y ->
  (n < List.length l)%nat /\ nth_error l n = Some y
  \/ n = List.length l /\ y = x.
Proof.
  intros H. destruct (Nat.lt_ge_cases n (List.length l)) as [Hlt | Hge].
  - left. split; auto. now rewrite nth_error_app1 in H.
  - right. rewrite nth_error_app2 in H by lia.
    destruct (n - List.length l)%nat as [|k] eqn:E; simpl in H.
    + injection H as <-. split; [lia | reflexivity].
    + destruct k; discriminate.
Qed.

(** One operation keeps a well-timed store day-confined and free of double
    bookings. *)
Lemma exec_preserves (op : Operation) (st : Store) :
  well_timed st ->
  day_confined st /\ no_double_booking st ->
  day_confined (exec op st) /\ no_double_booking (exec op st).
Proof.
  intros Hwt [Hconf Hinv].
  destruct (exec_tables op st) as (nb & _ & _ & Hbus & _).
  destruct (exec_appointments op st)
    as [Happ | [(input & cid & b & svc & start & Hadm & Hfit & Hfree & Happ)
               | (id & Happ)]].
  - split.
    + intros a Hin. rewrite Happ in Hin.
      destruct (Hconf a Hin) as (b & Hb & Hend).
      exists b. rewrite Hbus. split; auto. now apply find_app_some.
    + unfold no_double_booking. rewrite Happ. exact Hinv.
  - set (created := createdAppointment st input cid svc start) in *.
    split.
    + intros a Hin. rewrite Happ in Hin. apply in_app_or in Hin.
      destruct Hin as [Hin | [<- | []]].
      * destruct (Hconf a Hin) as (b' & Hb' & Hend).
        exists b'. rewrite Hbus. split; auto. now apply find_app_some.
      * exists b. rewrite Hbus. simpl. split.
        -- apply find_app_some. apply Hadm.
        -- apply fitsAvailability_iff in Hfit.
           destruct Hfit as (i & Hi & _ & He).
           destruct (openIntervals_within_day st b start i Hwt Hi) as [_ H].
           lia.
    + unfold no_double_booking. rewrite Happ.
      intros i j a1 a2 Hij H1 H2 Hsame Hact1 Hact2 Hstaff.
      apply nth_error_snoc in H1. apply nth_error_snoc in H2.
      destruct H1 as [[Hi H1] | [Hi ->]]; destruct H2 as [[Hj H2] | [Hj ->]].
      * exact (Hinv i j a1 a2 Hij H1 H2 Hsame Hact1 Hact2 Hstaff).
      * intros Hover. apply time_overlap_sym in Hover. revert Hover.
        apply (created_is_free st input cid b svc start a1 Hwt Hconf Hadm
                 Hfit Hfree); auto.
        -- eapply nth_error_In; eauto.
        -- now apply same_or_no_staff_sym.
      * apply (created_is_free st input cid b svc start a2 Hwt Hconf Hadm
                 Hfit Hfree); auto.
        eapply nth_error_In; eauto.
      * lia.
  - split.
    + intros a' Hin. rewrite Happ in Hin.
      apply In_nth_error in Hin. destruct Hin as [n Hn].
      destruct (update_status_nth id _ n a' Hn) as (a & Ha & Heq).
      apply nth_error_In in Ha.
      destruct (Hconf a Ha) as (b & Hb & Hend).
      exists b. rewrite Hbus.
      destruct Heq as [-> | ->]; simpl; split; auto using find_app_some.
    + unfold no_double_booking. rewrite Happ.
      intros i j a1' a2' Hij H1 H2 Hsame Hact1 Hact2 Hstaff.
      destruct (update_status_nth id _ i a1' H1) as (a1 & Ha1 & Heq1).
      destruct (update_status_nth id _ j a2' H2) as (a2 & Ha2 & Heq2).
      destruct Heq1 as [-> | ->]; [|simpl in Hact1; congruence].
      destruct Heq2 as [-> | ->]; [|simpl in Hact2; congruence].
      exact (Hinv i j a1 a2 Hij Ha1 Ha2 Hsame Hact1 Hact2 Hstaff).
Qed.

(** Where the invariant holds: in every store reached through the
    service's operations, one request at a time, in which every rule and
    every override resolves to an interval inside its day, no two
    non-cancelled appointments of a business overlap when they share a
    staff identifier or one of them has none. *)
Theorem no_double_booking_when_well_timed :
  forall st : Store,
    reachable st -> well_timed st -> no_double_booking st.
Proof.
  intros st Hreach.
  assert (H : well_timed st -> day_confined st /\ no_double_booking st).
  { induction Hreach as [|st op _ IH]; intros Hwt.
    - split.
      + intros a [].
      + intros i j a1 a2 _ H1. destruct i; discriminate.
    - pose proof (well_timed_before op st Hwt) as Hwt0.
      apply exec_preserves; auto. }
  intros Hwt. now apply H.
Qed.

(** ** Stores to which the invariant applies *)

(** [set] on a DateTime that is at midnight. *)
Lemma set_hour_minute_midnight (tz : Zone) (d : DateTime)
      (hour minute : Js.num) :
  set_hour_minute tz (startOfDay tz d) hour minute
  = match clockTime hour minute with
    | Some t =>
        if isValid tz (startOfDay tz d + t)
        then Some (startOfDay tz d + t) else None
    | None => None
    end.
Proof.
  unfold set_hour_minute, clockTime, isValid.
  assert (Hd : day_number tz (startOfDay tz d) = day_number tz d).
  { pose proof (startOfDay_idempotent tz d) as H.
    unfold startOfDay in H at 1 3.
    unfold MS_PER_DAY, MS_PER_MINUTE in *. lia. }
  rewrite Hd.
  replace (startOfDay tz d + tz * MS_PER_MINUTE
           - day_number tz d * MS_PER_DAY) with 0
    by (unfold startOfDay; lia).
  change (0 / MS_PER_HOUR) with 0.
  change (0 mod MS_PER_HOUR / MS_PER_MINUTE) with 0.
  destruct (match hour with
            | Js.Undefined => Some 0
            | _ => Js.ToIntegerOrInfinity hour
            end) as [h|]; [|reflexivity].
  destruct (match minute with
            | Js.Undefined => Some 0
            | _ => Js.ToIntegerOrInfinity minute
            end) as [m|]; [|reflexivity].
  destruct (Js.MakeTime h m) as [t|]; [|reflexivity].
  replace (startOfDay tz d + t + tz * MS_PER_MINUTE)
    with (day_number tz d * MS_PER_DAY + t) by (unfold startOfDay; lia).
  destruct (_ <=? _); [|reflexivity].
  f_equal. unfold startOfDay. lia.
Qed.

(** A unit that is NaN gives no clock time. *)
Lemma clockTime_NaN (hour minute : Js.num) :
  Js.isNaN hour || Js.isNaN minute = true -> clockTime hour minute = None.
Proof.
  unfold clockTime.
  destruct hour, minute; simpl; try discriminate; try reflexivity;
    now destruct (if _ =? _ then _ else _).
Qed.

(** The resolution of a pair of times on a day, through their clock
    times: both ends valid on that day, and the end after the start. *)
Lemma intervalFromStrings_midnight (tz : Zone) (d : DateTime)
      (startTime endTime : string) :
  intervalFromStrings (startOfDay tz d) tz startTime endTime
  = match clockOf startTime, clockOf endTime with
    | Some a, Some b =>
        if isValid tz (startOfDay tz d + a)
           && isValid tz (startOfDay tz d + b) && (a <? b)
        then Some (mkInterval (startOfDay tz d + a) (startOfDay tz d + b))
        else None
    | _, _ => None
    end.
Proof.
  unfold intervalFromStrings, clockOf.
  destruct (Js.destructure2 (Js.split_colon startTime)) as [h1 m1].
  destruct (Js.destructure2 (Js.split_colon endTime)) as [h2 m2].
  rewrite !set_hour_minute_midnight.
  destruct (Js.isNaN h1 || Js.isNaN m1) eqn:E1.
  { simpl. now rewrite (clockTime_NaN _ _ E1). }
  rewrite orb_false_l.
  destruct (Js.isNaN h2 || Js.isNaN m2) eqn:E2.
  { rewrite (clockTime_NaN _ _ E2). now destruct (clockTime h1 m1). }
  destruct (clockTime h1 m1) as [a|]; [|reflexivity].
  destruct (isValid tz (startOfDay tz d + a)); simpl;
    [|now destruct (clockTime h2 m2)].
  destruct (clockTime h2 m2) as [b|]; [|reflexivity].
  destruct (isValid tz (startOfDay tz d + b)); simpl; [|reflexivity].
  destruct (startOfDay tz d + b <=? startOfDay tz d + a) eqn:E;
    destruct (a <? b) eqn:E'; try reflexivity;
    rewrite ?Z.leb_le, ?Z.leb_gt, ?Z.ltb_lt, ?Z.ltb_ge in *; lia.
Qed.

(** Times that stay between 00:00 and 24:00 resolve inside the day. *)
Lemma times_within_day_in_range (startTime endTime : string) (a b : Z) :
  clockOf startTime = Some a ->
  clockOf endTime = Some b ->
  0 <= a ->
  b <= MS_PER_DAY ->
  times_within_day startTime endTime.
Proof.
  intros Hs He Hlo Hhi day tz i.
  rewrite intervalFromStrings_midnight, Hs, He.
  destruct (_ && _); [|discriminate].
  intros H. injection H as <-. simpl. unfold plus_days. lia.
Qed.

(** The salon with Ana's booking is such a store. *)
Example salon_not_double_booked :
  well_timed Examples.salonBooked
  /\ no_double_booking Examples.salonBooked.
Proof.
  assert (Hwt : well_timed Examples.salonBooked).
  { split.
    - intros r Hr. vm_compute in Hr. destruct Hr as [<- | []].
      apply (times_within_day_in_range _ _ 32400000 64800000);
        [reflexivity|reflexivity|lia|unfold MS_PER_DAY; lia].
    - intros e s t He. vm_compute in He. destruct He. }
  split; [exact Hwt|].
  apply no_double_booking_when_well_timed; [|exact Hwt].
  unfold Examples.salonBooked. constructor.
  apply reachable_execAll. constructor.
Qed.

(** ** Requests served concurrently *)

(** Run with no other request in between, the two halves make up
    [createAppointment]. *)
Lemma createAppointment_two_halves (input : CreateAppointmentInput)
      (customerId : string) (st : Store) :
  createAppointment input customerId st
  = (span <- checkAppointment input customerId ;;
     insertAppointment input customerId (fst span) (snd span)) st.
Proof.
  unfold createAppointment, checkAppointment, insertAppointment. unfold_m.
  destruct (find _ (businesses st)) as [b|]; [|reflexivity].
  destruct (find _ (services st)) as [svc|]; [|reflexivity].
  destruct (negb _); [reflexivity|].
  destruct (find _ (userClients st)); [|reflexivity].
  simpl.
  destruct (Js.truthy_opt (cai_staffId input));
    [destruct (find _ (userBusinesses st)); [|reflexivity]|];
    (destruct (cai_startAt input) as [start|]; [|reflexivity];
     destruct (getDailyContext _ _ st) as [[e|ctx] st1]; [reflexivity|];
     destruct (negb _); [reflexivity|];
     destruct (hasConflict _ _ _ _ _); reflexivity).
Qed.

Lemma reachable_served (st : Store) : reachable st -> served st [].
Proof.
  induction 1; now constructor.
Qed.

(** Served one at a time, with nothing pending, requests reach exactly the
    stores of [reachable] started from any served store. *)
Lemma served_execAll (ops : list Operation) :
  forall st pending, served st pending -> served (execAll ops st) pending.
Proof.
  induction ops as [|op ops IH]; intros st pending H; simpl; auto.
  apply IH. now constructor.
Qed.

(** The salon after Ana's and Ben's simultaneous requests for Monday
    10:00: each passed its checks on the store without the other's row,
    then each wrote. *)
Lemma salonRaced_served : served Examples.salonRaced [].
Proof.
  pose (pAna := mkPending (Examples.book Examples.monday_1000) "id4"
                          Examples.monday_1000
                          (plus_minutes Examples.monday_1000 60)).
  pose (pBen := mkPending (Examples.book Examples.monday_1000) "id5"
                          Examples.monday_1000
                          (plus_minutes Examples.monday_1000 60)).
  assert (H0 : served Examples.salon [])
    by (apply served_execAll; constructor).
  assert (H1 : served Examples.salon [pAna])
    by (apply served_check; [exact H0 | reflexivity]).
  assert (H2 : served Examples.salon [pBen; pAna])
    by (apply served_check; [exact H1 | reflexivity]).
  pose proof (served_insert _ [pBen] pAna [] H2) as H3.
  exact (served_insert _ [] pBen [] H3).
Qed.

(** C1, evaluated where it breaks.  Served one request at a time, the bar
    (open on Mondays from 23:00 to 25:00 and on Tuesdays from 00:00 to
    02:00) is reached from the empty store by accepted requests, and after
    a booking for Monday 23:30 and one for Tuesday 00:00 its table holds
    two BOOKED appointments of one business, neither with a staff
    identifier, whose intervals overlap.  Served concurrently, the salon
    accepts two requests for the same Monday 10:00 slot, each checked
    before the other is written, and holds two BOOKED appointments on the
    same interval.  In both stores the overlap invariant fails. *)
Theorem double_booking_reached :
  (reachable Examples.barDoubleBooked
   /\ appointments Examples.barDoubleBooked
      = [ mkAppointment "id6" "id1" "id2" "id5" None
                        Examples.monday_2330 1767627000000 None BOOKED;
          mkAppointment "id7" "id1" "id2" "id5" None
                        Examples.tuesday_0000 1767628800000 None BOOKED ]
   /\ time_overlap Examples.monday_2330 1767627000000
                   Examples.tuesday_0000 1767628800000
   /\ ~ no_double_booking Examples.barDoubleBooked)
  /\ (served Examples.salonRaced []
      /\ appointments Examples.salonRaced
         = [ mkAppointment "id6" "id1" "id2" "id4" None
                           Examples.monday_1000 1767578400000 None BOOKED;
             mkAppointment "id7" "id1" "id2" "id5" None
                           Examples.monday_1000 1767578400000 None BOOKED ]
      /\ ~ no_double_booking Examples.salonRaced).
Proof.
  split; [split; [|split; [|split]] | split; [|split]].
  - apply reachable_execAll. constructor.
  - reflexivity.
  - unfold time_overlap. vm_compute. split; reflexivity.
  - intros H.
    apply (H 0%nat 1%nat
             (mkAppointment "id6" "id1" "id2" "id5" None
                            Examples.monday_2330 1767627000000 None BOOKED)
             (mkAppointment "id7" "id1" "id2" "id5" None
                            Examples.tuesday_0000 1767628800000 None BOOKED));
      try reflexivity; try discriminate.
    + left. reflexivity.
    + unfold time_overlap. vm_compute. split; reflexivity.
  - exact salonRaced_served.
  - reflexivity.
  - intros H.
    apply (H 0%nat 1%nat
             (mkAppointment "id6" "id1" "id2" "id4" None
                            Examples.monday_1000 1767578400000 None BOOKED)
             (mkAppointment "id7" "id1" "id2" "id5" None
                            Examples.monday_1000 1767578400000 None BOOKED));
      try reflexivity; try discriminate.
    + left. reflexivity.
    + unfold time_overlap. vm_compute. split; reflexivity.
Qed.

(** * Further properties of the service *)

(** ** The slot loop *)

Section SlotLoop.

Variables (now : DateTime) (tz : Zone) (dur step : Z)
          (staff : option string) (appts : list Appointment)
          (iend : DateTime).

Let walk (fuel : nat) (cursor : DateTime) : option (list Slot) :=
  walkInterval fuel now tz dur step staff appts iend cursor.

Lemma slotFits_false (cursor : DateTime) :
  iend < plus_minutes cursor dur -> slotFits tz dur iend cursor = false.
Proof.
  intros H. destruct (slotFits tz dur iend cursor) eqn:E; [|reflexivity].
  apply slotFits_true in E. lia.
Qed.

(** Where the slots of one walk lie. *)
Lemma walkInterval_span :
  forall fuel cursor slots,
    walk fuel cursor = Some slots ->
    forall slot,
      In slot slots ->
      slot_endAt slot <= iend
      /\ minus_minutes now 1 < slot_startAt slot
      /\ exists k : nat,
          slot_startAt slot
          = cursor + Z.of_nat k * (step * MS_PER_MINUTE).
Proof.
  unfold walk.
  induction fuel as [|fuel IH]; intros cursor slots; simpl.
  - destruct (slotFits _ _ _ _); [discriminate|].
    intros H. injection H as <-. intros slot [].
  - destruct (slotFits tz dur iend cursor) eqn:Ec;
      [|intros H; injection H as <-; intros slot []].
    apply slotFits_true in Ec. destruct Ec as (_ & _ & _ & Ec).
    destruct (walkInterval fuel now tz dur step staff appts iend
                           (nextCursor step cursor)) as [later|] eqn:El;
      [|discriminate].
    assert (Hlater : forall slot,
               In slot later ->
               slot_endAt slot <= iend
               /\ minus_minutes now 1 < slot_startAt slot
               /\ exists k : nat,
                   slot_startAt slot
                   = cursor + Z.of_nat k * (step * MS_PER_MINUTE)).
    { intros slot Hin.
      destruct (IH _ _ El slot Hin) as (H2 & H3 & k & H4).
      repeat split; auto.
      exists (S k). rewrite H4. unfold nextCursor, plus_minutes. lia. }
    destruct (negb (cursor <=? minus_minutes now 1)) eqn:Ep; simpl.
    + destruct (hasConflict _ _ _ _ _); simpl;
        intros H; injection H as <-; auto.
      intros slot [<- | Hin]; auto. simpl.
      apply negb_true_iff, Z.leb_gt in Ep.
      repeat split; try lia. exists O. simpl. lia.
    + intros H. injection H as <-. auto.
Qed.

(** With a step that is not negative no slot starts before the cursor. *)
Lemma walkInterval_after :
  0 <= step ->
  forall fuel cursor slots,
    walk fuel cursor = Some slots ->
    forall slot, In slot slots -> cursor <= slot_startAt slot.
Proof.
  intros Hstep fuel cursor slots Hw slot Hin.
  destruct (walkInterval_span fuel cursor slots Hw slot Hin)
    as (_ & _ & k & ->).
  pose proof (Z.mul_nonneg_nonneg (Z.of_nat k) (step * MS_PER_MINUTE)).
  unfold MS_PER_MINUTE in *. lia.
Qed.

(** With a positive step the slots of one walk come out in strictly
    increasing order of start. *)
Lemma walkInterval_sorted :
  0 < step ->
  forall fuel cursor slots,
    walk fuel cursor = Some slots ->
    StronglySorted (fun a b => slot_startAt a < slot_startAt b) slots.
Proof.
  intros Hpos. unfold walk.
  induction fuel as [|fuel IH]; intros cursor slots; simpl.
  - destruct (slotFits _ _ _ _); [discriminate|].
    intros H. injection H as <-. constructor.
  - destruct (slotFits tz dur iend cursor);
      [|intros H; injection H as <-; constructor].
    destruct (walkInterval fuel now tz dur step staff appts iend
                           (nextCursor step cursor)) as [later|] eqn:El;
      [|discriminate].
    pose proof (IH _ _ El) as Hs.
    destruct (_ && _); intros H; injection H as <-; auto.
    constructor; auto.
    apply Forall_forall. intros slot Hin. simpl.
    assert (H1 : nextCursor step cursor <= slot_startAt slot).
    { apply (walkInterval_after (Z.lt_le_incl _ _ Hpos) fuel _ _ El
               slot Hin). }
    unfold nextCursor, plus_minutes, MS_PER_MINUTE in H1. lia.
Qed.

(** A walk whose second cursor position no longer fits yields the slot
    at its cursor, or none. *)
Lemma walkInterval_at_most_one :
  forall fuel cursor slots,
    iend < plus_minutes (nextCursor step cursor) dur ->
    walk fuel cursor = Some slots ->
    slots = [] \/ slots = [mkSlot cursor (plus_minutes cursor dur)].
Proof.
  unfold walk. intros fuel cursor slots Hbig.
  destruct fuel as [|fuel]; simpl.
  - destruct (slotFits _ _ _ _); [discriminate|].
    intros H. injection H as <-. auto.
  - destruct (slotFits tz dur iend cursor);
      [|intros H; injection H as <-; auto].
    assert (Hnext : walkInterval fuel now tz dur step staff appts iend
                                 (nextCursor step cursor) = Some []).
    { destruct fuel; simpl; now rewrite (slotFits_false _ Hbig). }
    rewrite Hnext.
    destruct (_ && _); intros H; injection H as <-; auto.
Qed.

(** With a negative step, the candidate one step before the cursor is
    offered when it is a valid DateTime, not past and free: the loop
    walks away from the interval it was given. *)
Lemma walkInterval_backwards :
  step < 0 -> 0 <= dur ->
  forall fuel cursor slots,
    slotFits tz dur iend cursor = true ->
    isValid tz (nextCursor step cursor) = true ->
    minus_minutes now 1 < nextCursor step cursor ->
    hasConflict (nextCursor step cursor)
                (plus_minutes (nextCursor step cursor) dur) tz staff appts
    = false ->
    walk fuel cursor = Some slots ->
    In (mkSlot (nextCursor step cursor)
               (plus_minutes (nextCursor step cursor) dur)) slots.
Proof.
  intros Hneg Hdur fuel cursor slots Hfit Hvalid Hnow Hfree. unfold walk.
  assert (Hfit' : slotFits tz dur iend (nextCursor step cursor) = true).
  { apply slotFits_true in Hfit.
    destruct Hfit as (Hc & Hce & Hi & Hle).
    unfold slotFits, leq. rewrite !andb_true_iff, Z.leb_le.
    pose proof (proj1 (isValid_bounds _ _) Hvalid) as Hv.
    pose proof (proj1 (isValid_bounds _ _) Hc) as Hc'.
    pose proof (proj1 (isValid_bounds _ _) Hce) as Hce'.
    repeat split; auto.
    - apply isValid_bounds.
      unfold nextCursor, plus_minutes, MS_PER_MINUTE in *. lia.
    - unfold nextCursor, plus_minutes, MS_PER_MINUTE in *. lia. }
  destruct fuel as [|fuel]; simpl; rewrite Hfit; [discriminate|].
  destruct fuel as [|fuel]; simpl; rewrite Hfit'; [discriminate|].
  destruct (walkInterval fuel now tz dur step staff appts iend
              (nextCursor step (nextCursor step cursor))) as [later|];
    [|discriminate].
  rewrite Hfree.
  replace (nextCursor step cursor <=? minus_minutes now 1) with false
    by (symmetry; apply Z.leb_gt; lia).
  simpl.
  destruct (_ && _); intros H; injection H as <-; simpl; auto.
Qed.

End SlotLoop.

(** ** Availability queries *)

(** [getAvailability] on a known business, a valid date and a service of
    that business. *)
Lemma getAvailability_found (fuel : nat) (now : DateTime) (st : Store)
      (businessId : string) (params : AvailabilityRequest)
      (b : Business) (d : DateTime) (svc : Service) :
  find (fun x => String.eqb (b_id x) businessId) (businesses st) = Some b ->
  req_date params = Some d ->
  find (fun x => String.eqb (s_id x) (req_serviceId params)) (services st)
  = Some svc ->
  s_businessId svc = businessId ->
  getAvailability fuel now businessId params st
  = (inr (option_map
            (mkAvailability (startOfDay (b_timezone b) d) (b_timezone b)
                            (s_durationMin svc)
                            (stepOf (req_stepMinutes params)))
            (generateSlots fuel now (b_timezone b) (s_durationMin svc)
               (stepOf (req_stepMinutes params)) (req_staffId params)
               (appointmentsOf st businessId (startOfDay (b_timezone b) d))
               (openIntervals st b (startOfDay (b_timezone b) d)))), st).
Proof.
  intros Hb Hd Hs Hsb. unfold getAvailability. unfold_m.
  rewrite Hd, (getDailyContext_found st businessId b d Hb), Hs, Hsb.
  rewrite String.eqb_refl. reflexivity.
Qed.

(** The service a successful query used belongs to the queried
    business. *)
Lemma getAvailability_service (fuel : nat) (now : DateTime) (st st' : Store)
      (businessId : string) (params : AvailabilityRequest)
      (r : option Availability) (svc : Service) :
  getAvailability fuel now businessId params st = (inr r, st') ->
  find (fun x => String.eqb (s_id x) (req_serviceId params)) (services st)
  = Some svc ->
  s_businessId svc = businessId.
Proof.
  unfold getAvailability. unfold_m.
  destruct (getDailyContext businessId (req_date params) st)
    as [[e|ctx] st1] eqn:Ectx; [discriminate|].
  pose proof (getDailyContext_pure st businessId (req_date params)) as Hp.
  rewrite Ectx in Hp. simpl in Hp. subst st1.
  intros H Hs. rewrite Hs in H.
  destruct (String.eqb (s_businessId svc) businessId) eqn:E;
    [now apply String.eqb_eq|discriminate].
Qed.

Lemma generateSlots_span (fuel : nat) (now : DateTime) (tz : Zone)
      (dur step : Z) (staff : option string) (appts : list Appointment) :
  0 <= step ->
  forall intervals slots,
    generateSlots fuel now tz dur step staff appts intervals = Some slots ->
    forall slot,
      In slot slots ->
      minus_minutes now 1 < slot_startAt slot
      /\ exists interval (k : nat),
          In interval intervals
          /\ i_start interval <= slot_startAt slot
          /\ slot_endAt slot <= i_end interval
          /\ slot_startAt slot
             = i_start interval + Z.of_nat k * (step * MS_PER_MINUTE).
Proof.
  intros Hstep. induction intervals as [|i rest IH]; intros slots; simpl.
  - intros H. injection H as <-. intros slot [].
  - destruct (walkInterval fuel now tz dur step staff appts (i_end i)
                           (i_start i)) as [here|] eqn:Ew; [|discriminate].
    destruct (generateSlots fuel now tz dur step staff appts rest)
      as [later|]; [|discriminate].
    intros H. injection H as <-. intros slot Hin.
    apply in_app_or in Hin. destruct Hin as [Hin | Hin].
    + destruct (walkInterval_span _ _ _ _ _ _ _ _ _ _ Ew slot Hin)
        as (H2 & H3 & k & H4).
      pose proof (walkInterval_after _ _ _ _ _ _ _ Hstep _ _ _ Ew slot Hin)
        as H1.
      split; auto. exists i, k. auto.
    + destruct (IH later eq_refl slot Hin) as (H3 & i' & k & Hi & H).
      split; auto. exists i', k. auto.
Qed.

Lemma stepOf_nonneg (stepMinutes : option Z) :
  (forall n, stepMinutes = Some n -> 0 <= n) ->
  0 <= stepOf stepMinutes.
Proof.
  intros H. pose proof (stepOf_positive stepMinutes H). lia.
Qed.

(** X1: for a step that is positive (or omitted or zero, hence 15),
    every slot [getAvailability] offers lasts exactly the service's
    duration, starts later than one minute before the clock reading, and
    lies within one of the open intervals resolved for the queried day,
    at a whole number of steps from that interval's start. *)
Theorem offered_slots_lie_in_open_hours :
  forall (fuel : nat) (now : DateTime) (st st' : Store)
         (businessId : string) (params : AvailabilityRequest)
         (av : Availability) (slot : Slot),
    (forall n, req_stepMinutes params = Some n -> 0 <= n) ->
    getAvailability fuel now businessId params st = (inr (Some av), st') ->
    In slot (av_slots av) ->
    slot_endAt slot
    = plus_minutes (slot_startAt slot) (av_serviceDurationMin av)
    /\ minus_minutes now 1 < slot_startAt slot
    /\ exists b interval (k : nat),
        find (fun x => String.eqb (b_id x) businessId) (businesses st)
        = Some b
        /\ In interval (openIntervals st b (av_date av))
        /\ i_start interval <= slot_startAt slot
        /\ slot_endAt slot <= i_end interval
        /\ slot_startAt slot
           = plus_minutes (i_start interval)
                          (Z.of_nat k * av_stepMinutes av).
Proof.
  intros fuel now st st' businessId params av slot Hstep Hrun Hin.
  destruct (getAvailability_inv _ _ _ _ _ _ _ Hrun)
    as (b & d & svc & slots & Hb & _ & _ & _ & Hgen & ->).
  simpl in *.
  destruct (generateSlots_slots _ _ _ _ _ _ _ _ _ Hgen slot Hin) as [_ Hd].
  destruct (generateSlots_span _ _ _ _ _ _ _
              (stepOf_nonneg _ Hstep) _ _ Hgen slot Hin)
    as (Hp & i & k & Hi & H1 & H2 & H3).
  repeat split; auto.
  exists b, i, k. repeat split; auto.
  rewrite H3. unfold plus_minutes. lia.
Qed.

(** X1 at the salon with Ana's booking: the 11:00 slot offered with a step
    of 60 minutes ends at 12:00 and lies in the Monday interval. *)
Lemma offered_slots_lie_in_open_hours_witness :
  1767582000000 = plus_minutes 1767578400000 60
  /\ minus_minutes Examples.monday_0000 1 < 1767578400000.
Proof.
  destruct (offered_slots_lie_in_open_hours
              20 Examples.monday_0000 Examples.salonBooked
              Examples.salonBooked "id1"
              (mkAvailabilityRequest (Some Examples.monday_1000) "id2"
                                     (Some 60) None)
              (mkAvailability Examples.monday_0000 540 60 60
                 [mkSlot 1767571200000 1767574800000;
                  mkSlot 1767578400000 1767582000000;
                  mkSlot 1767582000000 1767585600000;
                  mkSlot 1767585600000 1767589200000;
                  mkSlot 1767589200000 1767592800000;
                  mkSlot 1767592800000 1767596400000;
                  mkSlot 1767596400000 1767600000000;
                  mkSlot 1767600000000 1767603600000])
              (mkSlot 1767578400000 1767582000000))
    as (H1 & H2 & _).
  - intros n E. injection E as <-. lia.
  - reflexivity.
  - vm_compute. auto.
  - split; [exact H1 | exact H2].
Defined.

Lemma StronglySorted_app {A : Type} (R : A -> A -> Prop) (l1 l2 : list A) :
  StronglySorted R l1 -> StronglySorted R l2 ->
  (forall a b, In a l1 -> In b l2 -> R a b) ->
  StronglySorted R (l1 ++ l2).
Proof.
  induction l1 as [|x l1 IH]; simpl; intros H1 H2 H12; auto.
  inversion H1 as [|? ? Hs Hall]; subst.
  constructor.
  - apply IH; auto.
  - apply Forall_app. split; auto.
    apply Forall_forall. intros b Hb. apply H12; auto.
Qed.

Lemma generateSlots_sorted (fuel : nat) (now : DateTime) (tz : Zone)
      (dur step : Z) (staff : option string) (appts : list Appointment) :
  0 < step ->
  forall intervals slots,
    StronglySorted (fun i j => i_end i < plus_minutes (i_start j) dur)
                   intervals ->
    generateSlots fuel now tz dur step staff appts intervals = Some slots ->
    StronglySorted (fun a b => slot_startAt a < slot_startAt b) slots.
Proof.
  intros Hpos. induction intervals as [|i rest IH]; intros slots Hs; simpl.
  - intros H. injection H as <-. constructor.
  - destruct (walkInterval fuel now tz dur step staff appts (i_end i)
                           (i_start i)) as [here|] eqn:Ew; [|discriminate].
    destruct (generateSlots fuel now tz dur step staff appts rest)
      as [later|] eqn:Eg; [|discriminate].
    intros H. injection H as <-.
    inversion Hs as [|? ? Hrest Hall]; subst.
    apply StronglySorted_app.
    + eapply walkInterval_sorted; eauto.
    + apply IH; auto.
    + intros a b Ha Hb.
      destruct (walkInterval_span _ _ _ _ _ _ _ _ _ _ Ew a Ha)
        as (Hend & _).
      destruct (walkInterval_slots _ _ _ _ _ _ _ _ _ _ Ew a Ha) as [_ Hd].
      destruct (generateSlots_span _ _ _ _ _ _ _ (Z.lt_le_incl _ _ Hpos)
                  _ _ Eg b Hb)
        as (_ & j & k & Hj & Hstart & _).
      rewrite Forall_forall in Hall. specialize (Hall j Hj).
      unfold plus_minutes in *. lia.
Qed.

(** X2: for a step that is positive (or omitted or zero, hence 15), on a
    day whose open intervals come one after the other - each ending before
    the first slot of a later one could end - the slots are offered in
    strictly increasing order of start, so no start is offered twice. *)
Theorem offered_slots_increase :
  forall (fuel : nat) (now : DateTime) (st st' : Store)
         (businessId : string) (params : AvailabilityRequest)
         (av : Availability) (b : Business),
    (forall n, req_stepMinutes params = Some n -> 0 <= n) ->
    getAvailability fuel now businessId params st = (inr (Some av), st') ->
    find (fun x => String.eqb (b_id x) businessId) (businesses st) = Some b ->
    StronglySorted
      (fun i j => i_end i
                  < plus_minutes (i_start j) (av_serviceDurationMin av))
      (openIntervals st b (av_date av)) ->
    StronglySorted (fun s1 s2 => slot_startAt s1 < slot_startAt s2)
                   (av_slots av).
Proof.
  intros fuel now st st' businessId params av b Hstep Hrun Hb Hs.
  destruct (getAvailability_inv _ _ _ _ _ _ _ Hrun)
    as (b' & d & svc & slots & Hb' & _ & _ & _ & Hgen & ->).
  rewrite Hb in Hb'. injection Hb' as <-. simpl in *.
  eapply generateSlots_sorted; eauto.
  now apply stepOf_positive.
Qed.

(** X2 at the salon with Ana's booking: the one Monday interval gives
    slots in increasing order. *)
Lemma offered_slots_increase_witness :
  StronglySorted (fun s1 s2 => slot_startAt s1 < slot_startAt s2)
    [mkSlot 1767571200000 1767574800000;
     mkSlot 1767578400000 1767582000000;
     mkSlot 1767582000000 1767585600000;
     mkSlot 1767585600000 1767589200000;
     mkSlot 1767589200000 1767592800000;
     mkSlot 1767592800000 1767596400000;
     mkSlot 1767596400000 1767600000000;
     mkSlot 1767600000000 1767603600000].
Proof.
  apply (offered_slots_increase
           20 Examples.monday_0000 Examples.salonBooked Examples.salonBooked
           "id1"
           (mkAvailabilityRequest (Some Examples.monday_1000) "id2"
                                  (Some 60) None)
           (mkAvailability Examples.monday_0000 540 60 60
              [mkSlot 1767571200000 1767574800000;
               mkSlot 1767578400000 1767582000000;
               mkSlot 1767582000000 1767585600000;
               mkSlot 1767585600000 1767589200000;
               mkSlot 1767589200000 1767592800000;
               mkSlot 1767592800000 1767596400000;
               mkSlot 1767596400000 1767600000000;
               mkSlot 1767600000000 1767603600000])
           (mkBusiness "id1" "id0" "Salon" 540)).
  - simpl. intros n E. injection E as <-. lia.
  - reflexivity.
  - reflexivity.
  - vm_compute. repeat constructor.
Defined.

Lemma generateSlots_none_fit (now : DateTime) (tz : Zone)
      (dur step : Z) (staff : option string) (appts : list Appointment) :
  forall intervals,
    (forall i, In i intervals -> i_end i < plus_minutes (i_start i) dur) ->
    forall fuel,
      generateSlots fuel now tz dur step staff appts intervals = Some [].
Proof.
  induction intervals as [|i rest IH]; intros Hall fuel; simpl; auto.
  assert (Hw : walkInterval fuel now tz dur step staff appts (i_end i)
                            (i_start i) = Some []).
  { pose proof (Hall i (or_introl eq_refl)) as Hi.
    destruct fuel; simpl; now rewrite (slotFits_false _ _ _ _ Hi). }
  rewrite Hw, IH; auto.
  intros j Hj. apply Hall. now right.
Qed.

(** X3: when the service lasts longer than every open interval of the
    day, the query succeeds with an empty list of slots - whatever the
    step, and without any turn of the loop. *)
Theorem no_slot_when_service_too_long :
  forall (fuel : nat) (now : DateTime) (st : Store) (businessId : string)
         (params : AvailabilityRequest) (b : Business) (d : DateTime)
         (svc : Service),
    find (fun x => String.eqb (b_id x) businessId) (businesses st) = Some b ->
    req_date params = Some d ->
    find (fun x => String.eqb (s_id x) (req_serviceId params)) (services st)
    = Some svc ->
    s_businessId svc = businessId ->
    (forall i,
        In i (openIntervals st b (startOfDay (b_timezone b) d)) ->
        i_end i < plus_minutes (i_start i) (s_durationMin svc)) ->
    getAvailability fuel now businessId params st
    = (inr (Some (mkAvailability (startOfDay (b_timezone b) d)
                    (b_timezone b) (s_durationMin svc)
                    (stepOf (req_stepMinutes params)) [])), st).
Proof.
  intros fuel now st businessId params b d svc Hb Hd Hs Hsb Hall.
  rewrite (getAvailability_found fuel now st businessId params b d svc);
    auto.
  now rewrite generateSlots_none_fit.
Qed.

(** X3 at the salon: the ten-hour service does not fit the nine-hour
    Monday. *)
Lemma no_slot_when_service_too_long_witness :
  getAvailability 0 Examples.monday_0000 "id1"
    (mkAvailabilityRequest (Some Examples.monday_1000) "id6" None None)
    MoreExamples.salonLongService
  = (inr (Some (mkAvailability Examples.monday_0000 540 600 15 [])),
     MoreExamples.salonLongService).
Proof.
  apply (no_slot_when_service_too_long
           0 Examples.monday_0000 MoreExamples.salonLongService "id1"
           (mkAvailabilityRequest (Some Examples.monday_1000) "id6" None None)
           (mkBusiness "id1" "id0" "Salon" 540) Examples.monday_1000
           (mkService "id6" "id1" 600 9000 true));
    try reflexivity.
  intros i Hi. vm_compute in Hi. destruct Hi as [<- | []].
  vm_compute. reflexivity.
Defined.

Lemma generateSlots_at_most_one_each (fuel : nat) (now : DateTime)
      (tz : Zone) (dur step : Z) (staff : option string)
      (appts : list Appointment) :
  forall intervals slots,
    (forall i, In i intervals ->
               i_end i < plus_minutes (i_start i) (step + dur)) ->
    generateSlots fuel now tz dur step staff appts intervals = Some slots ->
    exists perInterval,
      slots = List.concat perInterval
      /\ Forall2 (first_slot_or_none dur) intervals perInterval.
Proof.
  induction intervals as [|i rest IH]; intros slots Hall; simpl.
  - intros H. injection H as <-. exists []. split; [reflexivity|constructor].
  - destruct (walkInterval fuel now tz dur step staff appts (i_end i)
                           (i_start i)) as [here|] eqn:Ew; [|discriminate].
    destruct (generateSlots fuel now tz dur step staff appts rest)
      as [later|] eqn:Eg; [|discriminate].
    intros H. injection H as <-.
    assert (Hhere : first_slot_or_none dur i here).
    { eapply walkInterval_at_most_one; [|exact Ew].
      pose proof (Hall i (or_introl eq_refl)).
      unfold nextCursor, plus_minutes, MS_PER_MINUTE in *. lia. }
    destruct (IH later) as (per & -> & Hper); auto.
    { intros j Hj. apply Hall. now right. }
    exists (here :: per). split; [reflexivity|]. now constructor.
Qed.

(** X4: when step plus duration exceeds the length of every open
    interval, the query offers at most the first slot of each interval:
    the slots are, interval by interval and in their order, the slot at
    the interval's start or none. *)
Theorem at_most_one_slot_per_interval_for_large_step :
  forall (fuel : nat) (now : DateTime) (st st' : Store)
         (businessId : string) (params : AvailabilityRequest)
         (av : Availability) (b : Business),
    getAvailability fuel now businessId params st = (inr (Some av), st') ->
    find (fun x => String.eqb (b_id x) businessId) (businesses st) = Some b ->
    (forall i,
        In i (openIntervals st b (av_date av)) ->
        i_end i < plus_minutes (i_start i)
                    (av_stepMinutes av + av_serviceDurationMin av)) ->
    exists perInterval,
      av_slots av = List.concat perInterval
      /\ Forall2 (first_slot_or_none (av_serviceDurationMin av))
                 (openIntervals st b (av_date av)) perInterval.
Proof.
  intros fuel now st st' businessId params av b Hrun Hb Hall.
  destruct (getAvailability_inv _ _ _ _ _ _ _ Hrun)
    as (b' & d & svc & slots & Hb' & _ & _ & _ & Hgen & ->).
  rewrite Hb in Hb'. injection Hb' as <-. simpl in *.
  eapply generateSlots_at_most_one_each; eauto.
Qed.

(** X4 at the salon: with a step of 600 minutes the nine-hour Monday
    gives the 09:00 slot alone. *)
Lemma at_most_one_slot_per_interval_for_large_step_witness :
  exists perInterval,
    [mkSlot 1767571200000 1767574800000] = List.concat perInterval
    /\ Forall2 (first_slot_or_none 60)
               [mkInterval 1767571200000 1767603600000] perInterval.
Proof.
  apply (at_most_one_slot_per_interval_for_large_step
           5 Examples.monday_0000 Examples.salon Examples.salon "id1"
           (mkAvailabilityRequest (Some Examples.monday_1000) "id2"
                                  (Some 600) None)
           (mkAvailability Examples.monday_0000 540 60 600
              [mkSlot 1767571200000 1767574800000])
           (mkBusiness "id1" "id0" "Salon" 540) eq_refl eq_refl).
  intros i Hi. vm_compute in Hi. destruct Hi as [<- | []].
  vm_compute. reflexivity.
Defined.

Lemma generateSlots_backwards (fuel : nat) (now : DateTime) (tz : Zone)
      (dur step : Z) (staff : option string) (appts : list Appointment)
      (i : Interval) :
  step < 0 -> 0 <= dur ->
  slotFits tz dur (i_end i) (i_start i) = true ->
  isValid tz (nextCursor step (i_start i)) = true ->
  minus_minutes now 1 < nextCursor step (i_start i) ->
  hasConflict (nextCursor step (i_start i))
              (plus_minutes (nextCursor step (i_start i)) dur)
              tz staff appts = false ->
  forall intervals slots,
    In i intervals ->
    generateSlots fuel now tz dur step staff appts intervals = Some slots ->
    In (mkSlot (nextCursor step (i_start i))
               (plus_minutes (nextCursor step (i_start i)) dur)) slots.
Proof.
  intros Hneg Hdur Hfit Hvalid Hnow Hfree.
  induction intervals as [|j rest IH]; intros slots; simpl; [intros []|].
  intros Hin.
  destruct (walkInterval fuel now tz dur step staff appts (i_end j)
                         (i_start j)) as [here|] eqn:Ew; [|discriminate].
  destruct (generateSlots fuel now tz dur step staff appts rest)
    as [later|] eqn:Eg; [|discriminate].
  intros H. injection H as <-. apply in_or_app.
  destruct Hin as [-> | Hin].
  - left. eapply walkInterval_backwards; eauto.
  - right. now apply IH.
Qed.

(** The ends of an open interval are valid DateTimes. *)
Lemma openIntervals_valid (st : Store) (b : Business) (d : DateTime)
      (i : Interval) :
  In i (openIntervals st b (startOfDay (b_timezone b) d)) ->
  isValid (b_timezone b) (i_start i) = true
  /\ isValid (b_timezone b) (i_end i) = true.
Proof.
  assert (Hone : forall s e,
             intervalFromStrings (startOfDay (b_timezone b) d)
                                 (b_timezone b) s e = Some i ->
             isValid (b_timezone b) (i_start i) = true
             /\ isValid (b_timezone b) (i_end i) = true).
  { intros s e. rewrite intervalFromStrings_midnight.
    destruct (clockOf s) as [x|]; [|discriminate].
    destruct (clockOf e) as [y|]; [|discriminate].
    destruct (isValid _ _) eqn:E1; [|discriminate].
    destruct (isValid _ (_ + y)) eqn:E2; [|discriminate].
    destruct (x <? y); [|discriminate].
    intros H. injection H as <-. auto. }
  unfold openIntervals, resolveIntervals.
  set (day := startOfDay (b_timezone b) d) in *.
  assert (Hr : In i (ruleIntervals day (b_timezone b)
                       (rulesOf st (b_id b)
                                (dayOfWeekOf (b_timezone b) day))) ->
               isValid (b_timezone b) (i_start i) = true
               /\ isValid (b_timezone b) (i_end i) = true).
  { intros Hin. apply ruleIntervals_In in Hin.
    destruct Hin as (r & _ & Hi). eapply Hone; eauto. }
  destruct (exceptionOf st (b_id b) day) as [ex|]; auto.
  destruct (e_isClosed ex); [intros []|].
  destruct (e_startTime ex) as [s|]; auto.
  destruct (e_endTime ex) as [e|]; auto.
  destruct (_ && _); auto.
  destruct (intervalFromStrings day (b_timezone b) s e) as [o|] eqn:Eo;
    [|intros []].
  intros [<- | []]. eapply Hone; eauto.
Qed.

(** X5: the service itself accepts any number as step.  With a negative
    one the slot loop walks backwards from the start of each interval
    and ends only when the cursor is no longer a valid DateTime, so the
    query does return; on its way it offers candidates that lie before
    the interval: for an open interval that fits the service once, the
    candidate one step before the interval's start is offered when it is
    a valid DateTime, is not past and overlaps no stored appointment of
    that business and day. *)
Theorem negative_step_offers_slot_before_opening :
  forall (now : DateTime) (st : Store) (businessId : string)
         (params : AvailabilityRequest) (b : Business) (d : DateTime)
         (svc : Service) (n : Z) (i : Interval),
    find (fun x => String.eqb (b_id x) businessId) (businesses st) = Some b ->
    req_date params = Some d ->
    find (fun x => String.eqb (s_id x) (req_serviceId params)) (services st)
    = Some svc ->
    s_businessId svc = businessId ->
    req_stepMinutes params = Some n -> n < 0 ->
    0 <= s_durationMin svc ->
    let day := startOfDay (b_timezone b) d in
    let early := plus_minutes (i_start i) n in
    In i (openIntervals st b day) ->
    plus_minutes (i_start i) (s_durationMin svc) <= i_end i ->
    isValid (b_timezone b) early = true ->
    minus_minutes now 1 < early ->
    ~ conflicts_with_stored st businessId day early
        (plus_minutes early (s_durationMin svc)) (req_staffId params) ->
    exists fuel slots,
      (forall fuel', (fuel <= fuel')%nat ->
         getAvailability fuel' now businessId params st
         = (inr (Some (mkAvailability day (b_timezone b)
                         (s_durationMin svc) n slots)), st))
      /\ In (mkSlot early (plus_minutes early (s_durationMin svc))) slots
      /\ early < i_start i.
Proof.
  intros now st businessId params b d svc n i Hb Hd Hs Hsb Hn Hneg Hdur
         day early Hi Hfit Hvalid Hnow Hfree.
  assert (Hstep : stepOf (req_stepMinutes params) = n).
  { rewrite Hn. unfold stepOf.
    destruct (n =? 0) eqn:E; [apply Z.eqb_eq in E; lia | reflexivity]. }
  destruct (generateSlots_ends now (b_timezone b) (s_durationMin svc) n
              (req_staffId params) (appointmentsOf st businessId day)
              ltac:(lia) (openIntervals st b day))
    as (fuel & slots & Hgen).
  exists fuel, slots. split; [|split].
  - intros fuel' Hle.
    rewrite (getAvailability_found fuel' now st businessId params b d svc);
      auto.
    rewrite Hstep. fold day. now rewrite (Hgen fuel' Hle).
  - destruct (openIntervals_valid st b d i Hi) as [Hvs Hve].
    assert (Hfit0 : slotFits (b_timezone b) (s_durationMin svc)
                             (i_end i) (i_start i) = true).
    { unfold slotFits, leq. rewrite !andb_true_iff, Z.leb_le.
      pose proof (proj1 (isValid_bounds _ _) Hvs) as Hvs'.
      pose proof (proj1 (isValid_bounds _ _) Hve) as Hve'.
      repeat split; auto.
      apply isValid_bounds.
      unfold plus_minutes, MS_PER_MINUTE in *. lia. }
    assert (Hfree0 : hasConflict early
                       (plus_minutes early (s_durationMin svc))
                       (b_timezone b) (req_staffId params)
                       (appointmentsOf st businessId day) = false).
    { destruct (hasConflict _ _ _ _ _) eqn:Ec; [|reflexivity].
      exfalso. apply Hfree. apply hasConflict_iff in Ec.
      now apply conflicts_with_stored_iff. }
    exact (generateSlots_backwards fuel now (b_timezone b)
             (s_durationMin svc) n (req_staffId params)
             (appointmentsOf st businessId day) i Hneg Hdur Hfit0 Hvalid
             Hnow Hfree0 _ _ Hi (Hgen fuel (Nat.le_refl _))).
  - unfold early, plus_minutes, MS_PER_MINUTE. lia.
Qed.

(** X5 at the salon with a step of -15 minutes, asked two days before:
    the slot 08:45-09:45 is offered, before the salon opens at 09:00. *)
Lemma negative_step_offers_slot_before_opening_witness :
  exists fuel slots,
    (forall fuel', (fuel <= fuel')%nat ->
       getAvailability fuel' 1767400000000 "id1"
         (mkAvailabilityRequest (Some Examples.monday_1000) "id2"
                                (Some (-15)) None)
         Examples.salon
       = (inr (Some (mkAvailability
                       (startOfDay 540 Examples.monday_1000) 540 60 (-15)
                       slots)), Examples.salon))
    /\ In (mkSlot (plus_minutes 1767571200000 (-15))
                  (plus_minutes (plus_minutes 1767571200000 (-15)) 60))
          slots.
Proof.
  assert (Hi : In (mkInterval 1767571200000 1767603600000)
                  (openIntervals Examples.salon
                     (mkBusiness "id1" "id0" "Salon" 540)
                     (startOfDay 540 Examples.monday_1000)))
    by (vm_compute; auto).
  assert (Hfit : plus_minutes 1767571200000 60 <= 1767603600000)
    by (vm_compute; discriminate).
  assert (Hvalid : isValid 540 (plus_minutes 1767571200000 (-15)) = true)
    by (vm_compute; reflexivity).
  assert (Hnow : minus_minutes 1767400000000 1
                 < plus_minutes 1767571200000 (-15))
    by (vm_compute; reflexivity).
  assert (Hfree : ~ conflicts_with_stored Examples.salon "id1"
                      (startOfDay 540 Examples.monday_1000)
                      (plus_minutes 1767571200000 (-15))
                      (plus_minutes (plus_minutes 1767571200000 (-15)) 60)
                      None).
  { intros (a & Ha & _). vm_compute in Ha. exact Ha. }
  destruct (negative_step_offers_slot_before_opening
              1767400000000 Examples.salon "id1"
              (mkAvailabilityRequest (Some Examples.monday_1000) "id2"
                                     (Some (-15)) None)
              (mkBusiness "id1" "id0" "Salon" 540) Examples.monday_1000
              (mkService "id2" "id1" 60 5000 true) (-15)
              (mkInterval 1767571200000 1767603600000)
              eq_refl eq_refl eq_refl eq_refl eq_refl eq_refl
              ltac:(discriminate) Hi Hfit Hvalid Hnow Hfree)
    as (fuel & slots & Hrun & Hin & _).
  exists fuel, slots. split; [exact Hrun | exact Hin].
Defined.

Lemma getAvailability_pure (fuel : nat) (now : DateTime) (st : Store)
      (businessId : string) (params : AvailabilityRequest) :
  snd (getAvailability fuel now businessId params st) = st.
Proof.
  unfold getAvailability. unfold_m.
  pose proof (getDailyContext_pure st businessId (req_date params)) as Hp.
  destruct (getDailyContext businessId (req_date params) st)
    as [[e|ctx] st1]; simpl in *; subst; auto.
  destruct (find _ (services st)) as [svc|]; simpl; auto.
  destruct (negb _); simpl; auto.
Qed.

(** X6: an availability query never writes to the store, whatever it
    returns; and it refuses in this order: an unknown business is not
    found, then an unparseable date is a bad request, then an unknown
    service is not found, then a service of another business is a bad
    request. *)
Theorem getAvailability_reads_and_refuses_in_order :
  forall (fuel : nat) (now : DateTime) (st : Store) (businessId : string)
         (params : AvailabilityRequest),
    snd (getAvailability fuel now businessId params st) = st
    /\ (find (fun x => String.eqb (b_id x) businessId) (businesses st)
        = None ->
        fst (getAvailability fuel now businessId params st)
        = inl (NotFoundException "Negocio no encontrado"))
    /\ (find (fun x => String.eqb (b_id x) businessId) (businesses st)
        <> None ->
        (req_date params = None ->
         fst (getAvailability fuel now businessId params st)
         = inl (BadRequestException "Fecha inválida"))
        /\ (req_date params <> None ->
            (find (fun x => String.eqb (s_id x) (req_serviceId params))
                  (services st) = None ->
             fst (getAvailability fuel now businessId params st)
             = inl (NotFoundException "Servicio no encontrado"))
            /\ (forall svc,
                   find (fun x => String.eqb (s_id x) (req_serviceId params))
                        (services st) = Some svc ->
                   s_businessId svc <> businessId ->
                   fst (getAvailability fuel now businessId params st)
                   = inl (BadRequestException
                            "El servicio no pertenece al negocio")))).
Proof.
  intros fuel now st businessId params.
  split; [apply getAvailability_pure|].
  unfold getAvailability, getDailyContext. unfold_m.
  destruct (find _ (businesses st)) as [b|]; simpl.
  - split; [discriminate|]. intros _.
    destruct (req_date params) as [d|]; simpl.
    + split; [discriminate|]. intros _. split.
      * intros ->. reflexivity.
      * intros svc -> Hne.
        apply String.eqb_neq in Hne. now rewrite Hne.
    + split; [reflexivity|]. intros H. congruence.
  - split; [reflexivity|]. intros H. congruence.
Qed.

(** X6 at the salon: a query for an unknown service is refused as not
    found and leaves the store as it was. *)
Lemma getAvailability_reads_and_refuses_in_order_witness :
  fst (getAvailability 0 Examples.monday_0000 "id1"
         (mkAvailabilityRequest (Some Examples.monday_1000) "id9" None None)
         Examples.salon)
  = inl (NotFoundException "Servicio no encontrado").
Proof.
  destruct (getAvailability_reads_and_refuses_in_order
              0 Examples.monday_0000 Examples.salon "id1"
              (mkAvailabilityRequest (Some Examples.monday_1000) "id9"
                                     None None))
    as (_ & _ & H).
  destruct H as [_ H]; [vm_compute; discriminate|].
  destruct H as [H _]; [vm_compute; discriminate|].
  apply H. reflexivity.
Defined.

(** ** Bookings *)

(** A booking that returns has passed every lookup and both tests, and
    has appended its row; one that throws has written nothing. *)
Lemma createAppointment_inv (st st' : Store) (input : CreateAppointmentInput)
      (customerId : string) (r : HttpException + Appointment) :
  createAppointment input customerId st = (r, st') ->
  (exists e, r = inl e /\ st' = st)
  \/ exists b svc start,
      admitted_request st input customerId b svc start
      /\ fitsAvailability start (plus_minutes start (s_durationMin svc))
           (openIntervals st b (startOfDay (b_timezone b) start)) = true
      /\ hasConflict start (plus_minutes start (s_durationMin svc))
           (b_timezone b) (cai_staffId input)
           (appointmentsOf st (cai_businessId input)
                           (startOfDay (b_timezone b) start)) = false
      /\ r = inr (createdAppointment st input customerId svc start)
      /\ st' = storeWithAppointment st
                 (createdAppointment st input customerId svc start).
Proof.
  intros Hrun.
  assert (Herr : forall e,
             createAppointment input customerId st = (inl e, st) ->
             exists e0, r = inl e0 /\ st' = st).
  { intros e He. rewrite He in Hrun. injection Hrun as <- <-. eauto. }
  destruct (find (fun x => String.eqb (b_id x) (cai_businessId input))
                 (businesses st)) as [b|] eqn:Hb;
    [|left; eapply Herr; unfold createAppointment; unfold_m;
      rewrite Hb; reflexivity].
  destruct (find (fun x => String.eqb (s_id x) (cai_serviceId input))
                 (services st)) as [svc|] eqn:Hs;
    [|left; eapply Herr; unfold createAppointment; unfold_m;
      rewrite Hb, Hs; reflexivity].
  destruct (String.eqb (s_businessId svc) (cai_businessId input)) eqn:Hsb;
    [|left; eapply Herr; unfold createAppointment; unfold_m;
      rewrite Hb, Hs, Hsb; reflexivity].
  apply String.eqb_eq in Hsb.
  destruct (find (fun x => String.eqb (uc_id x) customerId)
                 (userClients st)) as [cust|] eqn:Hc;
    [|left; eapply Herr; unfold createAppointment; unfold_m;
      rewrite Hb, Hs, Hsb, String.eqb_refl, Hc; reflexivity].
  destruct (Js.truthy_opt (cai_staffId input)
            && match find (fun x => String.eqb (ub_id x)
                             match cai_staffId input with
                             | Some s => s
                             | None => EmptyString
                             end) (userBusinesses st) with
               | Some _ => false
               | None => true
               end) eqn:Hst.
  { left. eapply Herr. unfold createAppointment. unfold_m.
    rewrite Hb, Hs, Hsb, String.eqb_refl, Hc. simpl.
    apply andb_true_iff in Hst. destruct Hst as [Ht Hn]. rewrite Ht.
    destruct (find _ (userBusinesses st)); [discriminate|]. reflexivity. }
  assert (Hstaff : forall sid,
             cai_staffId input = Some sid -> Js.truthy sid = true ->
             find (fun x => String.eqb (ub_id x) sid) (userBusinesses st)
             <> None).
  { intros sid Esid Et. rewrite Esid in Hst. simpl in Hst. rewrite Et in Hst.
    destruct (find _ (userBusinesses st)); [discriminate|].
    simpl in Hst. discriminate. }
  destruct (cai_startAt input) as [start|] eqn:Hstart.
  - assert (Hadm : admitted_request st input customerId b svc start).
    { unfold admitted_request. repeat split; auto; congruence. }
    pose proof (createAppointment_admitted st input customerId b svc start
                  Hadm) as Hrun'.
    cbv zeta in Hrun'. rewrite Hrun' in Hrun.
    destruct (fitsAvailability _ _ _) eqn:Ef; simpl in Hrun;
      [|injection Hrun as <- <-; eauto].
    destruct (hasConflict _ _ _ _ _) eqn:Ec; simpl in Hrun;
      [injection Hrun as <- <-; eauto|].
    injection Hrun as <- <-.
    right. exists b, svc, start. auto.
  - left. eapply Herr.
    apply (createAppointment_unparseable_start st input customerId b svc);
      auto; congruence.
Qed.

(** X7: a booking that throws has written nothing; a booking that returns
    has appended exactly its row - BOOKED, for the customer given, under a
    fresh identifier - and changed no other table. *)
Theorem createAppointment_all_or_nothing :
  forall (st st' : Store) (input : CreateAppointmentInput)
         (customerId : string) (r : HttpException + Appointment),
    createAppointment input customerId st = (r, st') ->
    (forall e, r = inl e -> st' = st)
    /\ (forall a,
           r = inr a ->
           st' = storeWithAppointment st a
           /\ a_id a = id_of_counter (nextId st)
           /\ a_status a = BOOKED
           /\ a_customerId a = customerId
           /\ a_businessId a = cai_businessId input
           /\ a_serviceId a = cai_serviceId input
           /\ a_staffId a = cai_staffId input).
Proof.
  intros st st' input customerId r Hrun.
  destruct (createAppointment_inv _ _ _ _ _ Hrun)
    as [(e & -> & ->) | (b & svc & start & _ & _ & _ & -> & ->)].
  - split; [reflexivity | discriminate].
  - split; [discriminate|].
    intros a H. injection H as <-. simpl. repeat split.
Qed.

(** X7 at the salon: Ben's request for 08:00, outside the Monday rule,
    leaves the store as it was. *)
Lemma createAppointment_all_or_nothing_witness :
  snd (createAppointment (Examples.book Examples.monday_0800) "id5"
                         Examples.salonBooked)
  = Examples.salonBooked.
Proof.
  destruct (createAppointment_all_or_nothing
              Examples.salonBooked
              (snd (createAppointment (Examples.book Examples.monday_0800)
                                      "id5" Examples.salonBooked))
              (Examples.book Examples.monday_0800) "id5"
              (inl (BadRequestException
                      "Horario fuera de la disponibilidad del negocio"))
              eq_refl) as [H _].
  exact (H _ eq_refl).
Defined.

Lemma startOfDay_unique (z : Zone) (x t : DateTime) :
  startOfDay z x <= t < plus_days (startOfDay z x) 1 ->
  startOfDay z t = startOfDay z x.
Proof.
  intros H.
  pose proof (startOfDay_bounds z t) as Ht.
  destruct (Z.lt_trichotomy (startOfDay z t) (startOfDay z x))
    as [Hlt | [Heq | Hgt]]; auto.
  - pose proof (startOfDay_apart z t x Hlt). lia.
  - pose proof (startOfDay_apart z x t Hgt). lia.
Qed.

(** X8: in a store whose rules and overrides all resolve inside their
    day, a slot offered for a service of positive duration, with a step
    that is positive (or omitted or zero, hence 15), can be booked by an
    existing customer, provided the staff member the query names, if
    any, is a stored user (the query does not look the staff member up,
    the booking does): [createAppointment] for that business, service,
    staff and the slot's start returns an appointment on exactly the
    slot. *)
Theorem offered_slot_is_bookable :
  forall (fuel : nat) (now : DateTime) (st st' : Store)
         (businessId : string) (params : AvailabilityRequest)
         (av : Availability) (slot : Slot) (customerId : string)
         (note : option string),
    (forall n, req_stepMinutes params = Some n -> 0 <= n) ->
    getAvailability fuel now businessId params st = (inr (Some av), st') ->
    In slot (av_slots av) ->
    well_timed st ->
    0 < av_serviceDurationMin av ->
    find (fun x => String.eqb (uc_id x) customerId) (userClients st)
    <> None ->
    (forall staffId,
        req_staffId params = Some staffId -> Js.truthy staffId = true ->
        find (fun x => String.eqb (ub_id x) staffId) (userBusinesses st)
        <> None) ->
    exists created,
      createAppointment
        (mkCreateAppointmentInput businessId (req_serviceId params)
                                  (Some (slot_startAt slot))
                                  (req_staffId params) note)
        customerId st
      = (inr created, storeWithAppointment st created)
      /\ a_startAt created = slot_startAt slot
      /\ a_endAt created = slot_endAt slot.
Proof.
  intros fuel now st st' businessId params av slot customerId note
         Hstep Hrun Hin Hwt Hdur Hc Hstaff.
  destruct (getAvailability_inv _ _ _ _ _ _ _ Hrun)
    as (b & d & svc & slots & Hb & Hd & Hs & _ & Hgen & ->).
  pose proof (getAvailability_service _ _ _ _ _ _ _ svc Hrun Hs) as Hsb.
  simpl in *.
  destruct (generateSlots_slots _ _ _ _ _ _ _ _ _ Hgen slot Hin)
    as [Hfree Hend].
  destruct (generateSlots_span _ _ _ _ _ _ _ (stepOf_nonneg _ Hstep)
              _ _ Hgen slot Hin)
    as (_ & i & k & Hi & Hlo & Hhi & _).
  destruct (openIntervals_within_day st b d i Hwt Hi) as [Hd1 Hd2].
  assert (Hday : startOfDay (b_timezone b) (slot_startAt slot)
                 = startOfDay (b_timezone b) d).
  { apply startOfDay_unique.
    rewrite Hend in Hhi. unfold plus_minutes, MS_PER_MINUTE in Hhi. lia. }
  set (input := mkCreateAppointmentInput businessId (req_serviceId params)
                  (Some (slot_startAt slot)) (req_staffId params) note).
  assert (Hadm : admitted_request st input customerId b svc
                   (slot_startAt slot))
    by (unfold admitted_request; simpl; auto 10).
  pose proof (createAppointment_admitted st input customerId b svc
                (slot_startAt slot) Hadm) as Hbook.
  cbv zeta in Hbook. rewrite Hday in Hbook. simpl in Hbook.
  rewrite <- Hend in Hbook. rewrite Hfree in Hbook.
  assert (Hfit : fitsAvailability (slot_startAt slot) (slot_endAt slot)
                   (openIntervals st b (startOfDay (b_timezone b) d))
                 = true)
    by (apply fitsAvailability_iff; exists i; auto).
  rewrite Hfit in Hbook. simpl in Hbook.
  eexists. split; [exact Hbook|].
  simpl. split; [reflexivity | now rewrite Hend].
Qed.

(** X8 at the salon with Ana's booking: Ben books the 11:00 slot that the
    query with a step of 60 minutes offers. *)
Lemma offered_slot_is_bookable_witness :
  exists created,
    createAppointment (Examples.book 1767578400000) "id5"
                      Examples.salonBooked
    = (inr created, storeWithAppointment Examples.salonBooked created)
    /\ a_startAt created = 1767578400000
    /\ a_endAt created = 1767582000000.
Proof.
  apply (offered_slot_is_bookable
           20 Examples.monday_0000 Examples.salonBooked Examples.salonBooked
           "id1"
           (mkAvailabilityRequest (Some Examples.monday_1000) "id2"
                                  (Some 60) None)
           (mkAvailability Examples.monday_0000 540 60 60
              [mkSlot 1767571200000 1767574800000;
               mkSlot 1767578400000 1767582000000;
               mkSlot 1767582000000 1767585600000;
               mkSlot 1767585600000 1767589200000;
               mkSlot 1767589200000 1767592800000;
               mkSlot 1767592800000 1767596400000;
               mkSlot 1767596400000 1767600000000;
               mkSlot 1767600000000 1767603600000])
           (mkSlot 1767578400000 1767582000000) "id5" None).
  - intros n E. injection E as <-. lia.
  - reflexivity.
  - vm_compute. auto.
  - exact (proj1 salon_not_double_booked).
  - vm_compute. reflexivity.
  - vm_compute. discriminate.
  - vm_compute. discriminate.
Defined.

(** X9: once a booking has returned, a query on the new store for the
    day the appointment starts on, with a staff scoping compatible with
    the booking's, offers no slot that overlaps the new appointment. *)
Theorem booked_slot_not_offered_again :
  forall (st st1 st2 : Store) (input : CreateAppointmentInput)
         (customerId : string) (a : Appointment) (fuel : nat)
         (now : DateTime) (params : AvailabilityRequest)
         (av : Availability) (slot : Slot),
    createAppointment input customerId st = (inr a, st1) ->
    getAvailability fuel now (cai_businessId input) params st1
    = (inr (Some av), st2) ->
    in_day (av_date av) (a_startAt a) = true ->
    staff_compatible (req_staffId params) (cai_staffId input) ->
    In slot (av_slots av) ->
    ~ time_overlap (slot_startAt slot) (slot_endAt slot)
                   (a_startAt a) (a_endAt a).
Proof.
  intros st st1 st2 input customerId a fuel now params av slot
         Hbook Hrun Hday Hstaff Hin Hover.
  destruct (createAppointment_inv _ _ _ _ _ Hbook)
    as [(e & He & _) | (b & svc & start & _ & _ & _ & Hr & ->)];
    [discriminate|].
  injection Hr as ->.
  destruct (getAvailability_inv _ _ _ _ _ _ _ Hrun)
    as (b' & d & svc' & slots & _ & _ & _ & _ & Hgen & ->).
  simpl in *.
  destruct (generateSlots_slots _ _ _ _ _ _ _ _ _ Hgen slot Hin)
    as [Hfree _].
  assert (Hc : hasConflict (slot_startAt slot) (slot_endAt slot)
                 (b_timezone b') (req_staffId params)
                 (appointmentsOf
                    (storeWithAppointment st
                       (createdAppointment st input customerId svc start))
                    (cai_businessId input)
                    (startOfDay (b_timezone b') d)) = true).
  { apply hasConflict_iff.
    exists (createdAppointment st input customerId svc start).
    split; [|split; [exact Hstaff | exact Hover]].
    apply appointmentsOf_In. simpl. repeat split; auto.
    - apply in_or_app. right. simpl. auto.
    - discriminate. }
  congruence.
Qed.

(** X9 at the salon: after Ana's booking of Monday 10:00 the 10:00 slot
    is not among those offered; the 09:00 slot, which is, does not overlap
    her appointment. *)
Lemma booked_slot_not_offered_again_witness :
  ~ time_overlap 1767571200000 1767574800000
                 Examples.monday_1000 (plus_minutes Examples.monday_1000 60).
Proof.
  apply (booked_slot_not_offered_again
           Examples.salon Examples.salonBooked Examples.salonBooked
           (Examples.book Examples.monday_1000) "id4"
           (mkAppointment "id6" "id1" "id2" "id4" None Examples.monday_1000
                          (plus_minutes Examples.monday_1000 60) None BOOKED)
           20 Examples.monday_0000
           (mkAvailabilityRequest (Some Examples.monday_1000) "id2"
                                  (Some 60) None)
           (mkAvailability Examples.monday_0000 540 60 60
              [mkSlot 1767571200000 1767574800000;
               mkSlot 1767578400000 1767582000000;
               mkSlot 1767582000000 1767585600000;
               mkSlot 1767585600000 1767589200000;
               mkSlot 1767589200000 1767592800000;
               mkSlot 1767592800000 1767596400000;
               mkSlot 1767596400000 1767600000000;
               mkSlot 1767600000000 1767603600000])
           (mkSlot 1767571200000 1767574800000)
           eq_refl eq_refl eq_refl).
  - left. unfold names_staff. simpl. discriminate.
  - vm_compute. auto.
Defined.

(** X10: on a day whose exception, as found by the resolver, is a
    closure, every booking request for that business and day is refused
    and leaves the store as it was, and a query for that day succeeds only
    with an empty list of slots. *)
Theorem closed_day_takes_no_booking :
  forall (st : Store) (b : Business) (day : DateTime)
         (ex : AvailabilityException),
    find (fun x => String.eqb (b_id x) (b_id b)) (businesses st) = Some b ->
    exceptionOf st (b_id b) day = Some ex ->
    e_isClosed ex = true ->
    (forall input customerId start,
        cai_businessId input = b_id b ->
        cai_startAt input = Some start ->
        startOfDay (b_timezone b) start = day ->
        exists e, createAppointment input customerId st = (inl e, st))
    /\ (forall fuel now params r st',
           getAvailability fuel now (b_id b) params st = (inr r, st') ->
           (exists d, req_date params = Some d
                      /\ startOfDay (b_timezone b) d = day) ->
           exists av, r = Some av /\ av_date av = day /\ av_slots av = []).
Proof.
  intros st b day ex Hb Hex Hclosed.
  assert (Hopen : openIntervals st b day = []).
  { unfold openIntervals. rewrite Hex. now apply resolveIntervals_closed. }
  split.
  - intros input customerId start Hbid Hstart Hday.
    destruct (createAppointment input customerId st) as [r st'] eqn:Hrun.
    destruct (createAppointment_inv _ _ _ _ _ Hrun)
      as [(e & -> & ->) | (b' & svc & start' & Hadm & Hfit & _)];
      [eauto|].
    exfalso.
    destruct Hadm as (Hb' & _ & _ & _ & _ & Hstart').
    rewrite Hbid, Hb in Hb'. injection Hb' as <-.
    rewrite Hstart in Hstart'. injection Hstart' as <-.
    rewrite Hday, Hopen in Hfit. discriminate.
  - intros fuel now params r st' Hrun (d & Hd & Hday).
    unfold getAvailability in Hrun. unfold_m.
    rewrite Hd, (getDailyContext_found st (b_id b) b d Hb) in Hrun.
    rewrite Hday, Hopen in Hrun.
    destruct (find _ (services st)) as [svc|]; [|discriminate].
    destruct (negb _); [discriminate|]. simpl in Hrun.
    injection Hrun as <- <-. eexists. split; [reflexivity|]. auto.
Qed.

(** X10 at the salon closed on Monday 2026-01-05: Ana's request for
    10:00 is refused. *)
Lemma closed_day_takes_no_booking_witness :
  exists e,
    createAppointment (Examples.book Examples.monday_1000) "id4"
                      Examples.salonClosed
    = (inl e, Examples.salonClosed).
Proof.
  destruct (closed_day_takes_no_booking
              Examples.salonClosed (mkBusiness "id1" "id0" "Salon" 540)
              Examples.monday_0000
              (mkException "id6" "id1" Examples.monday_0000 true None None)
              eq_refl eq_refl eq_refl) as [H _].
  apply (H (Examples.book Examples.monday_1000) "id4"%string
           Examples.monday_1000);
    reflexivity.
Defined.

(** ** What the operations keep *)

Ltac tables_grow :=
  do 4 eexists;
  repeat match goal with
         | |- _ /\ _ => split
         | |- _ = _ => first [reflexivity | symmetry; apply app_nil_r]
         | |- (_ <= _)%N => simpl; lia
         | |- Forall _ [] => constructor
         end.

(** Clients, users, businesses and services are only ever appended to,
    the counter never goes back, and a business is appended only for a
    stored user with the owner role. *)
Lemma exec_grows (op : Operation) (st : Store) :
  exists newClients newUsers newBusinesses newServices,
    userClients (exec op st) = userClients st ++ newClients
    /\ userBusinesses (exec op st) = userBusinesses st ++ newUsers
    /\ businesses (exec op st) = businesses st ++ newBusinesses
    /\ services (exec op st) = services st ++ newServices
    /\ (nextId st <= nextId (exec op st))%N
    /\ Forall (owned_by_owner st) newBusinesses.
Proof.
  destruct op; simpl.
  - unfold createClient, freshId. unfold_m.
    destruct (existsb _ _); simpl; tables_grow.
  - unfold createBusinessUser, freshId. unfold_m.
    destruct (existsb _ _); simpl; tables_grow.
  - unfold createBusiness, freshId. unfold_m.
    destruct (find _ _) as [o|] eqn:Eo; [|simpl; tables_grow].
    destruct (ub_role o) eqn:Er; simpl; tables_grow.
    constructor; [|constructor]. exists o. simpl. auto.
  - unfold createService, assertBusinessAccess, freshId. unfold_m.
    destruct (find _ _) as [b|]; [|simpl; tables_grow].
    destruct (_ && _); simpl; tables_grow.
  - unfold addAvailabilityRule, assertBusinessAccess,
      assertValidTimeRange, freshId. unfold_m.
    destruct (find _ _) as [b|]; [|simpl; tables_grow].
    destruct (_ && _); [simpl; tables_grow|]. simpl.
    destruct (_ || _); [simpl; tables_grow|]. simpl.
    destruct (intervalFromStrings _ _ _ _); simpl; tables_grow.
  - unfold addAvailabilityException, assertBusinessAccess,
      assertValidTimeRange, freshId. unfold_m.
    destruct (find _ _) as [b|]; [|simpl; tables_grow].
    destruct (_ && _); [simpl; tables_grow|]. simpl.
    destruct (aei_date input); [|simpl; tables_grow].
    destruct (not_closed _); [|simpl; tables_grow].
    destruct (aei_startTime input) as [s|]; [|simpl; tables_grow].
    destruct (aei_endTime input) as [e|]; [|simpl; tables_grow].
    destruct (_ && _); [|simpl; tables_grow].
    destruct (intervalFromStrings _ _ _ _); simpl; tables_grow.
  - destruct (createAppointment_writes st input customerId)
      as [-> | (b & svc & start & _ & _ & _ & ->)];
      simpl; tables_grow.
  - destruct (cancelAppointment_writes st id actor) as [-> | ->];
      simpl; tables_grow.
Qed.

Lemma id_of_counter_inj (n m : N) :
  id_of_counter n = id_of_counter m -> n = m.
Proof.
  unfold id_of_counter. simpl. intros H. injection H as H.
  apply DecimalN.Unsigned.to_uint_inj.
  pose proof (NilEmpty.usu (N.to_uint n)) as Hn.
  pose proof (NilEmpty.usu (N.to_uint m)) as Hm.
  rewrite H in Hn. congruence.
Qed.

Lemma update_status_nth_forward (id : string) (rows : list Appointment) :
  forall n a,
    nth_error rows n = Some a ->
    exists a',
      nth_error (update_status id CANCELLED rows) n = Some a'
      /\ (a' = a \/ a' = set_status CANCELLED a).
Proof.
  induction rows as [|r rest IH]; intros n a; simpl.
  - destruct n; discriminate.
  - destruct (String.eqb (a_id r) id).
    + destruct n; simpl.
      * intros H. injection H as <-. eauto.
      * intros H. eauto.
    + destruct n; simpl.
      * intros H. injection H as <-. eauto.
      * apply IH.
Qed.

(** X11: no operation of the service removes or reschedules an
    appointment: after any operation the row at each position is the same
    booking - same identifier, business, service, customer, staff, start,
    end and note - with the same status or CANCELLED; a cancelled
    appointment stays cancelled. *)
Theorem appointments_persist :
  forall (op : Operation) (st : Store) (n : nat) (a : Appointment),
    nth_error (appointments st) n = Some a ->
    exists a',
      nth_error (appointments (exec op st)) n = Some a'
      /\ same_booking a a'
      /\ (a_status a' = a_status a \/ a_status a' = CANCELLED)
      /\ (a_status a = CANCELLED -> a_status a' = CANCELLED).
Proof.
  intros op st n a Hn.
  assert (Hsame : same_booking a a) by (unfold same_booking; auto 10).
  destruct (exec_appointments op st)
    as [-> | [(input & cid & b & svc & start & _ & _ & _ & ->)
             | (id & ->)]].
  - exists a. auto.
  - exists a. rewrite nth_error_app1; auto.
    apply nth_error_Some. congruence.
  - destruct (update_status_nth_forward id _ n a Hn) as (a' & Hn' & [-> | ->]).
    + exists a. auto.
    + exists (set_status CANCELLED a). repeat split; auto.
Qed.

(** X11 at the salon: after Ben's refused attempt to cancel it, Ana's
    booking is where it was. *)
Lemma appointments_persist_witness :
  exists a',
    nth_error (appointments
                 (exec (OpCancelAppointment "id6" (mkActor "id5" client))
                       Examples.salonBooked)) 0
    = Some a'
    /\ a_startAt a' = Examples.monday_1000.
Proof.
  destruct (appointments_persist
              (OpCancelAppointment "id6" (mkActor "id5" client))
              Examples.salonBooked 0
              (mkAppointment "id6" "id1" "id2" "id4" None
                             Examples.monday_1000 1767578400000 None BOOKED)
              eq_refl) as (a' & Hn & Hsame & _).
  exists a'. split; [exact Hn|].
  destruct Hsame as (_ & _ & _ & _ & _ & H & _). exact H.
Defined.

(** The store after one operation: the appointment table untouched, or a
    booking appended and nothing else changed, or one status rewritten and
    nothing else changed. *)
Lemma exec_cases (op : Operation) (st : Store) :
  appointments (exec op st) = appointments st
  \/ (exists input customerId b svc start,
         admitted_request st input customerId b svc start
         /\ exec op st
            = storeWithAppointment st
                (createdAppointment st input customerId svc start))
  \/ (exists id,
         exec op st = with_appointments (update_status id CANCELLED) st).
Proof.
  destruct op; simpl.
  - left. unfold createClient, freshId. unfold_m.
    destruct (existsb _ _); reflexivity.
  - left. unfold createBusinessUser, freshId. unfold_m.
    destruct (existsb _ _); reflexivity.
  - left. unfold createBusiness, freshId. unfold_m.
    destruct (find _ _) as [o|]; [|reflexivity].
    destruct (ub_role o); reflexivity.
  - left. unfold createService, assertBusinessAccess, freshId. unfold_m.
    destruct (find _ _) as [b|]; [|reflexivity].
    destruct (_ && _); reflexivity.
  - left. unfold addAvailabilityRule, assertBusinessAccess,
            assertValidTimeRange, freshId. unfold_m.
    destruct (find _ _) as [b|]; [|reflexivity].
    destruct (_ && _); [reflexivity|]. simpl.
    destruct (_ || _); [reflexivity|]. simpl.
    destruct (intervalFromStrings _ _ _ _); reflexivity.
  - left. unfold addAvailabilityException, assertBusinessAccess,
            assertValidTimeRange, freshId. unfold_m.
    destruct (find _ _) as [b|]; [|reflexivity].
    destruct (_ && _); [reflexivity|]. simpl.
    destruct (aei_date input); [|reflexivity].
    destruct (not_closed _); [|reflexivity].
    destruct (aei_startTime input) as [s|]; [|reflexivity].
    destruct (aei_endTime input) as [e|]; [|reflexivity].
    destruct (_ && _); [|reflexivity].
    destruct (intervalFromStrings _ _ _ _); reflexivity.
  - destruct (createAppointment_writes st input customerId)
      as [-> | (b & svc & start & Hadm & _ & _ & ->)]; auto.
    right. left. exists input, customerId, b, svc, start. auto.
  - destruct (cancelAppointment_writes st id actor) as [-> | ->]; eauto.
Qed.

Lemma update_status_ids (id : string) (rows : list Appointment) :
  map a_id (update_status id CANCELLED rows) = map a_id rows.
Proof.
  induction rows as [|r rest IH]; simpl; auto.
  destruct (String.eqb (a_id r) id); simpl; [reflexivity | now rewrite IH].
Qed.

Lemma update_status_In (id : string) (rows : list Appointment)
      (a' : Appointment) :
  In a' (update_status id CANCELLED rows) ->
  exists a, In a rows /\ (a' = a \/ a' = set_status CANCELLED a).
Proof.
  intros Hin. apply In_nth_error in Hin. destruct Hin as [n Hn].
  destruct (update_status_nth id rows n a' Hn) as (a & Ha & H).
  exists a. split; auto. eapply nth_error_In; eauto.
Qed.

Lemma NoDup_snoc {A : Type} (l : list A) (x : A) :
  NoDup l -> ~ In x l -> NoDup (l ++ [x]).
Proof.
  induction l as [|y l IH]; simpl; intros Hnd Hx.
  - constructor; [intros []|constructor].
  - inversion Hnd as [|? ? Hy Hl]; subst. constructor.
    + rewrite in_app_iff. simpl. intros [H | [H | []]]; auto.
    + apply IH; auto.
Qed.

Lemma well_referenced_grows (st st' : Store) (a : Appointment) :
  (exists nc, userClients st' = userClients st ++ nc) ->
  (exists nu, userBusinesses st' = userBusinesses st ++ nu) ->
  (exists nb, businesses st' = businesses st ++ nb) ->
  (exists ns, services st' = services st ++ ns) ->
  well_referenced st a -> well_referenced st' a.
Proof.
  intros (nc & Hc) (nu & Hu) (nb & Hb) (ns & Hs)
         (b & svc & H1 & H2 & H3 & H4 & H5 & H6).
  exists b, svc. rewrite Hc, Hu, Hb, Hs.
  repeat split; auto using find_app_some.
  - destruct (find _ (userClients st)) as [c|] eqn:E; [|congruence].
    now rewrite (find_app_some _ _ nc c E).
  - intros sid Hsid Ht. specialize (H5 sid Hsid Ht).
    destruct (find _ (userBusinesses st)) as [u|] eqn:E; [|congruence].
    now rewrite (find_app_some _ _ nu u E).
Qed.

Lemma well_referenced_status (st : Store) (a : Appointment)
      (s : AppointmentStatus) :
  well_referenced st a -> well_referenced st (set_status s a).
Proof.
  intros H. exact H.
Qed.

(** What holds of every store reached through the operations. *)
Lemma reachable_invariants (st : Store) :
  reachable st ->
  ids_issued st
  /\ NoDup (map a_id (appointments st))
  /\ (forall a, In a (appointments st) ->
                a_status a = BOOKED \/ a_status a = CANCELLED)
  /\ (forall a, In a (appointments st) -> well_referenced st a)
  /\ (forall b, In b (businesses st) -> owned_by_owner st b).
Proof.
  unfold ids_issued.
  induction 1 as [|st op _ (Hids & Hnd & Hst & Href & Hown)].
  - repeat split; try (intros ? []). constructor.
  - destruct (exec_grows op st)
      as (nc & nu & nb & ns & Hc & Hu & Hb & Hs & Hn & Hnew).
    assert (Hown' : forall b, In b (businesses (exec op st)) ->
                              owned_by_owner (exec op st) b).
    { intros b Hin. rewrite Hb in Hin. apply in_app_or in Hin.
      assert (owned_by_owner st b) as (u & Hu1 & Hu2).
      { destruct Hin as [Hin | Hin]; auto.
        rewrite Forall_forall in Hnew. auto. }
      exists u. rewrite Hu. auto using find_app_some. }
    destruct (exec_cases op st)
      as [Happ | [(input & cid & b & svc & start & Hadm & Heq)
                 | (id & Heq)]].
    + repeat split; auto.
      * intros a Hin. rewrite Happ in Hin.
        destruct (Hids a Hin) as (k & Hk & Hid). exists k. split; auto. lia.
      * now rewrite Happ.
      * intros a Hin. rewrite Happ in Hin. auto.
      * intros a Hin. rewrite Happ in Hin.
        apply (well_referenced_grows st); eauto.
    + assert (Hfresh : ~ In (id_of_counter (nextId st))
                            (map a_id (appointments st))).
      { intros Hin. apply in_map_iff in Hin.
        destruct Hin as (a & Hid & Hin).
        destruct (Hids a Hin) as (k & Hk & Hid').
        rewrite Hid' in Hid. apply id_of_counter_inj in Hid. lia. }
      repeat split; auto; rewrite Heq in *; simpl.
      * intros a Hin. apply in_app_or in Hin.
        destruct Hin as [Hin | [<- | []]].
        -- destruct (Hids a Hin) as (k & Hk & Hid).
           exists k. split; auto. lia.
        -- exists (nextId st). split; [lia | reflexivity].
      * rewrite map_app. simpl. now apply NoDup_snoc.
      * intros a Hin. apply in_app_or in Hin.
        destruct Hin as [Hin | [<- | []]]; auto.
      * intros a Hin. apply in_app_or in Hin.
        destruct Hin as [Hin | [<- | []]].
        -- exact (Href a Hin).
        -- destruct Hadm as (H1 & H2 & H3 & H4 & H5 & H6).
           exists b, svc. simpl. auto 10.
    + repeat split; auto; rewrite Heq in *; simpl.
      * intros a' Hin. apply update_status_In in Hin.
        destruct Hin as (a & Hin & [-> | ->]); exact (Hids a Hin).
      * now rewrite update_status_ids.
      * intros a' Hin. apply update_status_In in Hin.
        destruct Hin as (a & Hin & [-> | ->]); auto.
      * intros a' Hin. apply update_status_In in Hin.
        destruct Hin as (a & Hin & [-> | ->]); exact (Href a Hin).
Qed.

Lemma find_by_id_NoDup (rows : list Appointment) (a : Appointment) :
  NoDup (map a_id rows) -> In a rows ->
  find (fun x => String.eqb (a_id x) (a_id a)) rows = Some a.
Proof.
  induction rows as [|r rest IH]; simpl; intros Hnd Hin; [contradiction|].
  inversion Hnd as [|? ? Hr Hrest]; subst.
  destruct Hin as [-> | Hin].
  - now rewrite String.eqb_refl.
  - destruct (String.eqb (a_id r) (a_id a)) eqn:E; auto.
    apply String.eqb_eq in E. exfalso. apply Hr. rewrite E.
    now apply in_map.
Qed.

(** X12: in a store reached through the operations, appointment
    identifiers are pairwise distinct, so looking an appointment up by its
    identifier returns that very row. *)
Theorem reachable_appointment_found_by_id :
  forall (st : Store) (a : Appointment),
    reachable st ->
    In a (appointments st) ->
    NoDup (map a_id (appointments st))
    /\ find (fun x => String.eqb (a_id x) (a_id a)) (appointments st)
       = Some a.
Proof.
  intros st a Hreach Hin.
  destruct (reachable_invariants st Hreach) as (_ & Hnd & _).
  split; auto. now apply find_by_id_NoDup.
Qed.

Lemma salonBooked_reachable : reachable Examples.salonBooked.
Proof.
  unfold Examples.salonBooked. constructor.
  apply reachable_execAll. constructor.
Qed.

(** X12 at the salon: Ana's booking is found under "id6". *)
Lemma reachable_appointment_found_by_id_witness :
  find (fun x => String.eqb (a_id x) "id6") (appointments Examples.salonBooked)
  = Some (mkAppointment "id6" "id1" "id2" "id4" None Examples.monday_1000
                        1767578400000 None BOOKED).
Proof.
  refine (proj2 (reachable_appointment_found_by_id
                   Examples.salonBooked
                   (mkAppointment "id6" "id1" "id2" "id4" None
                      Examples.monday_1000 1767578400000 None BOOKED)
                   salonBooked_reachable _)).
  vm_compute. auto.
Defined.

(** X13: the service alone only ever leaves appointments BOOKED or
    CANCELLED: no store reached through its operations holds a CONFIRMED
    or COMPLETED appointment. *)
Theorem reachable_status_booked_or_cancelled :
  forall (st : Store) (a : Appointment),
    reachable st ->
    In a (appointments st) ->
    a_status a = BOOKED \/ a_status a = CANCELLED.
Proof.
  intros st a Hreach Hin.
  destruct (reachable_invariants st Hreach) as (_ & _ & H & _). auto.
Qed.

Lemma salonCancelled_reachable : reachable Examples.salonCancelled.
Proof.
  unfold Examples.salonCancelled. constructor. exact salonBooked_reachable.
Qed.

(** X13 at the salon after Ana's cancellation. *)
Lemma reachable_status_booked_or_cancelled_witness :
  CANCELLED = BOOKED \/ CANCELLED = CANCELLED.
Proof.
  refine (reachable_status_booked_or_cancelled
            Examples.salonCancelled
            (mkAppointment "id6" "id1" "id2" "id4" None
               Examples.monday_1000 1767578400000 None CANCELLED)
            salonCancelled_reachable _).
  vm_compute. auto.
Defined.

(** X14: in a store reached through the operations every appointment
    refers to a stored business, to a stored service of that business, to
    a stored customer and, when it names one, to a stored staff user; and
    it ends exactly its service's duration after it starts. *)
Theorem reachable_appointments_well_referenced :
  forall (st : Store) (a : Appointment),
    reachable st ->
    In a (appointments st) ->
    well_referenced st a.
Proof.
  intros st a Hreach Hin.
  destruct (reachable_invariants st Hreach) as (_ & _ & _ & H & _). auto.
Qed.

(** X14 at the salon: Ana's booking lasts the 60 minutes of service
    "id2". *)
Lemma reachable_appointments_well_referenced_witness :
  well_referenced Examples.salonBooked
    (mkAppointment "id6" "id1" "id2" "id4" None Examples.monday_1000
                   1767578400000 None BOOKED).
Proof.
  refine (reachable_appointments_well_referenced
            Examples.salonBooked _ salonBooked_reachable _).
  vm_compute. auto.
Defined.

(** X15: only a stored user with the owner role can create a business,
    and neither users nor roles are ever removed: in a store reached
    through the operations the owner of every business is a stored user
    with role BUSINESS_OWNER. *)
Theorem reachable_businesses_have_owner :
  forall (st : Store) (b : Business),
    reachable st ->
    In b (businesses st) ->
    owned_by_owner st b.
Proof.
  intros st b Hreach Hin.
  destruct (reachable_invariants st Hreach) as (_ & _ & _ & _ & H). auto.
Qed.

(** X15 at the salon. *)
Lemma reachable_businesses_have_owner_witness :
  owned_by_owner Examples.salonBooked (mkBusiness "id1" "id0" "Salon" 540).
Proof.
  refine (reachable_businesses_have_owner
            Examples.salonBooked _ salonBooked_reachable _).
  vm_compute. auto.
Defined.

Lemma find_snoc_fresh {A : Type} (p : A -> bool) (l : list A) (x : A) :
  (forall y, In y l -> p y = false) -> p x = true ->
  find p (l ++ [x]) = Some x.
Proof.
  induction l as [|y l IH]; simpl; intros Hl Hx.
  - now rewrite Hx.
  - rewrite (Hl y (or_introl eq_refl)). apply IH; auto.
Qed.

Lemma update_status_snoc_fresh (id : string) (l : list Appointment)
      (a : Appointment) :
  (forall y, In y l -> String.eqb (a_id y) id = false) ->
  a_id a = id ->
  update_status id CANCELLED (l ++ [a]) = l ++ [set_status CANCELLED a].
Proof.
  induction l as [|y l IH]; simpl; intros Hl Ha.
  - now rewrite Ha, String.eqb_refl.
  - rewrite (Hl y (or_introl eq_refl)). rewrite IH; auto.
Qed.

(** X16: in a store reached through the operations, once a booking has
    been made and then cancelled, the same request - from any stored
    customer - is accepted again on the same start and end: a cancelled
    appointment no longer occupies its slot. *)
Theorem cancelled_slot_can_be_booked_again :
  forall (st st1 st2 : Store) (input : CreateAppointmentInput)
         (customerId other : string) (a a' : Appointment) (actor : Actor),
    reachable st ->
    createAppointment input customerId st = (inr a, st1) ->
    cancelAppointment (a_id a) actor st1 = (inr a', st2) ->
    find (fun x => String.eqb (uc_id x) other) (userClients st) <> None ->
    a_status a' = CANCELLED
    /\ exists again,
        createAppointment input other st2
        = (inr again, storeWithAppointment st2 again)
        /\ a_startAt again = a_startAt a
        /\ a_endAt again = a_endAt a
        /\ a_status again = BOOKED.
Proof.
  intros st st1 st2 input customerId other a a' actor
         Hreach Hbook Hcancel Hother.
  destruct (reachable_invariants st Hreach) as (Hids & _).
  destruct (createAppointment_inv _ _ _ _ _ Hbook)
    as [(e & He & _) | (b & svc & start & Hadm & Hfit & Hfree & Hr & ->)];
    [discriminate|].
  injection Hr as ->.
  set (a := createdAppointment st input customerId svc start) in *.
  assert (Hfresh : forall y, In y (appointments st) ->
                             String.eqb (a_id y) (a_id a) = false).
  { intros y Hy. apply String.eqb_neq. intros E.
    destruct (Hids y Hy) as (k & Hk & Hid). rewrite Hid in E.
    simpl in E. apply id_of_counter_inj in E. lia. }
  assert (Hfind : find (fun x => String.eqb (a_id x) (a_id a))
                       (appointments (storeWithAppointment st a)) = Some a).
  { simpl. apply find_snoc_fresh; auto. apply String.eqb_refl. }
  destruct (cancelAppointment_success _ _ _ _ _ _ Hfind Hcancel)
    as [-> Hfind2].
  split; [reflexivity|].
  assert (Hst2 : st2 = with_appointments
                         (update_status (a_id a) CANCELLED)
                         (storeWithAppointment st a)).
  { pose proof (cancelAppointment_writes (storeWithAppointment st a)
                  (a_id a) actor) as Hw.
    rewrite Hcancel in Hw. simpl in Hw. destruct Hw as [-> | ->]; auto.
    rewrite Hfind in Hfind2. discriminate. }
  assert (Happ : appointments st2
                 = appointments st ++ [set_status CANCELLED a]).
  { rewrite Hst2. simpl. now apply update_status_snoc_fresh. }
  assert (Hadm2 : admitted_request st2 input other b svc start).
  { destruct Hadm as (H1 & H2 & H3 & _ & H5 & H6).
    rewrite Hst2. unfold admitted_request. simpl. auto 10. }
  pose proof (createAppointment_admitted st2 input other b svc start Hadm2)
    as Hrun.
  cbv zeta in Hrun.
  assert (Hopen : openIntervals st2 b (startOfDay (b_timezone b) start)
                  = openIntervals st b (startOfDay (b_timezone b) start))
    by (rewrite Hst2; reflexivity).
  assert (Hbooked : appointmentsOf st2 (cai_businessId input)
                      (startOfDay (b_timezone b) start)
                    = appointmentsOf st (cai_businessId input)
                        (startOfDay (b_timezone b) start)).
  { unfold appointmentsOf. rewrite Happ, filter_app. simpl.
    rewrite andb_false_r. apply app_nil_r. }
  rewrite Hopen, Hbooked, Hfit, Hfree in Hrun. simpl in Hrun.
  eexists. split; [exact Hrun|]. simpl. auto.
Qed.

(** X16 at the salon: after Ana's booking of Monday 10:00 and her
    cancellation, Ben's request for the same slot is accepted. *)
Lemma cancelled_slot_can_be_booked_again_witness :
  exists again,
    createAppointment (Examples.book Examples.monday_1000) "id5"
                      Examples.salonCancelled
    = (inr again, storeWithAppointment Examples.salonCancelled again)
    /\ a_startAt again = Examples.monday_1000
    /\ a_endAt again = 1767578400000
    /\ a_status again = BOOKED.
Proof.
  assert (Hreach : reachable Examples.salon)
    by (apply reachable_execAll; constructor).
  refine (proj2 (cancelled_slot_can_be_booked_again
                   Examples.salon Examples.salonBooked
                   Examples.salonCancelled
                   (Examples.book Examples.monday_1000) "id4" "id5"
                   (mkAppointment "id6" "id1" "id2" "id4" None
                      Examples.monday_1000 1767578400000 None BOOKED)
                   (mkAppointment "id6" "id1" "id2" "id4" None
                      Examples.monday_1000 1767578400000 None CANCELLED)
                   (mkActor "id4" client)
                   Hreach eq_refl eq_refl _)).
  vm_compute. discriminate.
Defined.

(** ** Cancellations *)

Lemma update_status_split (id : string) (rows : list Appointment)
      (a : Appointment) :
  find (fun x => String.eqb (a_id x) id) rows = Some a ->
  exists before after,
    rows = before ++ a :: after
    /\ a_id a = id
    /\ (forall x, In x before -> a_id x <> id)
    /\ update_status id CANCELLED rows
       = before ++ set_status CANCELLED a :: after.
Proof.
  induction rows as [|r rest IH]; simpl; [discriminate|].
  destruct (String.eqb (a_id r) id) eqn:E.
  - intros H. injection H as <-. exists [], rest.
    apply String.eqb_eq in E. repeat split; auto.
  - intros H. destruct (IH H) as (before & after & -> & Hid & Hb & Hu).
    exists (r :: before), after. simpl. rewrite Hu.
    repeat split; auto.
    intros x [<- | Hx]; auto. now apply String.eqb_neq.
Qed.

(** X17: a cancellation that throws writes nothing; one that returns
    either found the appointment already cancelled and wrote nothing, or
    rewrote the status of exactly one row - the first with that identifier
    - to CANCELLED, leaving every other row, every other field and every
    other table as they were. *)
Theorem cancelAppointment_changes_one_status :
  forall (st st' : Store) (id : string) (actor : Actor)
         (r : HttpException + Appointment),
    cancelAppointment id actor st = (r, st') ->
    (forall e, r = inl e -> st' = st)
    /\ (forall a',
           r = inr a' ->
           a_id a' = id /\ a_status a' = CANCELLED
           /\ (st' = st
               \/ exists before a after,
                   appointments st = before ++ a :: after
                   /\ (forall x, In x before -> a_id x <> id)
                   /\ a_status a <> CANCELLED
                   /\ a' = set_status CANCELLED a
                   /\ st' = with_appointments
                              (fun _ => before ++ a' :: after) st)).
Proof.
  intros st st' id actor r.
  unfold cancelAppointment, assertBusinessAccess. unfold_m.
  destruct (find _ (appointments st)) as [appt|] eqn:Hf;
    [|intros H; injection H as <- <-; split;
      [reflexivity | discriminate]].
  destruct (update_status_split id _ appt Hf)
    as (before & after & Hrows & Hid & Hbefore & Hupd).
  destruct (AppointmentStatus_eqb (a_status appt) CANCELLED) eqn:Es.
  - intros H. injection H as <- <-. split; [discriminate|].
    intros a' H. injection H as <-. repeat split; auto.
    destruct (a_status appt); simpl in Es; congruence.
  - assert (Hnc : a_status appt <> CANCELLED)
      by (intros E; rewrite E in Es; discriminate).
    assert (Hdone : forall a',
               @inr HttpException _ (set_status CANCELLED appt) = inr a' ->
               a_id a' = id /\ a_status a' = CANCELLED
               /\ (with_appointments (update_status id CANCELLED) st = st
                   \/ exists before0 a after0,
                       appointments st = before0 ++ a :: after0
                       /\ (forall x, In x before0 -> a_id x <> id)
                       /\ a_status a <> CANCELLED
                       /\ a' = set_status CANCELLED a
                       /\ with_appointments (update_status id CANCELLED) st
                          = with_appointments
                              (fun _ => before0 ++ a' :: after0) st)).
    { intros a' H. injection H as <-. repeat split; auto.
      right. exists before, appt, after. repeat split; auto.
      unfold with_appointments. now rewrite Hupd. }
    destruct (actor_kind actor); simpl.
    + destruct (negb _); simpl; intros H; injection H as <- <-.
      * split; [reflexivity | discriminate].
      * split; [discriminate | exact Hdone].
    + destruct (find _ (businesses st)) as [b|]; simpl;
        [|intros H; injection H as <- <-; split;
          [reflexivity | discriminate]].
      destruct (_ && _); simpl; intros H; injection H as <- <-.
      * split; [reflexivity | discriminate].
      * split; [discriminate | exact Hdone].
Qed.

(** X17 at the salon: Ana's cancellation rewrites the one row. *)
Lemma cancelAppointment_changes_one_status_witness :
  a_id (mkAppointment "id6" "id1" "id2" "id4" None Examples.monday_1000
                      1767578400000 None CANCELLED) = "id6"%string.
Proof.
  destruct (cancelAppointment_changes_one_status
              Examples.salonBooked Examples.salonCancelled "id6"
              (mkActor "id4" client)
              (inr (mkAppointment "id6" "id1" "id2" "id4" None
                      Examples.monday_1000 1767578400000 None CANCELLED))
              eq_refl) as [_ H].
  exact (proj1 (H _ eq_refl)).
Defined.

(** X18: who may cancel an appointment that is not yet cancelled.  The
    customer who booked it may.  A business user (with a non-empty
    identifier) may when they own the appointment's business; when they do
    not, the call is forbidden, and when that business is not stored it is
    not found - in both cases nothing is written. *)
Theorem cancelAppointment_authorised_actors :
  forall (st : Store) (id : string) (actor : Actor) (appt : Appointment),
    find (fun a => String.eqb (a_id a) id) (appointments st) = Some appt ->
    a_status appt <> CANCELLED ->
    (actor_kind actor = client ->
     actor_id actor = a_customerId appt ->
     cancelAppointment id actor st
     = (inr (set_status CANCELLED appt),
        with_appointments (update_status id CANCELLED) st))
    /\ (actor_kind actor = business_ ->
        Js.truthy (actor_id actor) = true ->
        (find (fun x => String.eqb (b_id x) (a_businessId appt))
              (businesses st) = None ->
         cancelAppointment id actor st
         = (inl (NotFoundException "Negocio no encontrado"), st))
        /\ (forall b,
               find (fun x => String.eqb (b_id x) (a_businessId appt))
                    (businesses st) = Some b ->
               (b_ownerId b <> actor_id actor ->
                cancelAppointment id actor st
                = (inl (ForbiddenException
                          "Solo el propietario puede modificar el negocio"),
                   st))
               /\ (b_ownerId b = actor_id actor ->
                   cancelAppointment id actor st
                   = (inr (set_status CANCELLED appt),
                      with_appointments (update_status id CANCELLED) st)))).
Proof.
  intros st id actor appt Hf Hs.
  assert (Es : AppointmentStatus_eqb (a_status appt) CANCELLED = false)
    by (destruct (a_status appt); simpl; congruence).
  unfold cancelAppointment, assertBusinessAccess. unfold_m.
  rewrite Hf, Es. split.
  - intros -> <-. now rewrite String.eqb_refl.
  - intros -> Ht. simpl. rewrite Ht. split.
    + intros ->. reflexivity.
    + intros b ->. simpl. split.
      * intros Hne. apply String.eqb_neq in Hne. now rewrite Hne.
      * intros ->. now rewrite String.eqb_refl.
Qed.

(** X18 at the salon: the owner "id0" cancels Ana's booking. *)
Lemma cancelAppointment_authorised_actors_witness :
  cancelAppointment "id6" (mkActor "id0" business_) Examples.salonBooked
  = (inr (mkAppointment "id6" "id1" "id2" "id4" None Examples.monday_1000
                        1767578400000 None CANCELLED),
     Examples.salonCancelled).
Proof.
  destruct (cancelAppointment_authorised_actors
              Examples.salonBooked "id6" (mkActor "id0" business_)
              (mkAppointment "id6" "id1" "id2" "id4" None
                             Examples.monday_1000 1767578400000 None BOOKED)
              eq_refl) as [_ H].
  - vm_compute. discriminate.
  - destruct (H eq_refl eq_refl) as [_ H'].
    destruct (H' (mkBusiness "id1" "id0" "Salon" 540) eq_refl) as [_ H''].
    exact (H'' eq_refl).
Defined.

(** ** Rules and exceptions *)

Lemma fakeDay_midnight : startOfDay 0 fakeDay = fakeDay.
Proof.
  reflexivity.
Qed.

Lemma intervalFromStrings_positive (day : DateTime) (tz : Zone)
      (startTime endTime : string) (i : Interval) :
  intervalFromStrings day tz startTime endTime = Some i ->
  i_start i < i_end i.
Proof.
  unfold intervalFromStrings.
  destruct (Js.destructure2 (Js.split_colon startTime)) as [h1 m1].
  destruct (Js.destructure2 (Js.split_colon endTime)) as [h2 m2].
  destruct (_ || _); [discriminate|].
  destruct (set_hour_minute tz day h1 m1) as [s|]; [|discriminate].
  destruct (set_hour_minute tz day h2 m2) as [e|]; [|discriminate].
  destruct (_ <=? _) eqn:E; [discriminate|].
  apply Z.leb_gt in E. intros H. injection H as <-. exact E.
Qed.

(** A pair of times that passes the entry check has two clock times, the
    first before the second, and resolves through them on every day. *)
Lemma accepted_times_resolve (startTime endTime : string) :
  intervalFromStrings fakeDay 0 startTime endTime <> None ->
  exists a b,
    a < b
    /\ forall tz d,
        intervalFromStrings (startOfDay tz d) tz startTime endTime
        = onDay tz (startOfDay tz d) a b.
Proof.
  intros Hok.
  pose proof (intervalFromStrings_midnight 0 fakeDay startTime endTime)
    as H0.
  rewrite fakeDay_midnight in H0.
  destruct (clockOf startTime) as [a|] eqn:Ea; [|congruence].
  destruct (clockOf endTime) as [b|] eqn:Eb; [|congruence].
  destruct (a <? b) eqn:Eab;
    [|rewrite andb_false_r in H0; congruence].
  apply Z.ltb_lt in Eab. exists a, b. split; [exact Eab|].
  intros tz d. rewrite intervalFromStrings_midnight, Ea, Eb.
  unfold onDay. apply Z.ltb_lt in Eab. now rewrite Eab, andb_true_r.
Qed.

(** A pair that fails the entry check and still resolves on some day
    failed it for an end outside the range of dates on the day of the
    check. *)
Lemma refused_times_resolve (startTime endTime : string) (tz : Zone)
      (d : DateTime) (i : Interval) :
  intervalFromStrings fakeDay 0 startTime endTime = None ->
  intervalFromStrings (startOfDay tz d) tz startTime endTime = Some i ->
  onDay 0 fakeDay (i_start i - startOfDay tz d) (i_end i - startOfDay tz d)
  = None.
Proof.
  intros Hno.
  pose proof (intervalFromStrings_midnight 0 fakeDay startTime endTime)
    as H0.
  rewrite fakeDay_midnight, Hno in H0.
  rewrite intervalFromStrings_midnight.
  destruct (clockOf startTime) as [a|]; [|discriminate].
  destruct (clockOf endTime) as [b|]; [|discriminate].
  destruct (isValid tz _ && isValid tz _ && (a <? b)) eqn:E;
    [|discriminate].
  apply andb_true_iff in E. destruct E as [_ Eab].
  rewrite Eab, andb_true_r in H0.
  intros H. injection H as <-. simpl. unfold onDay.
  replace (startOfDay tz d + a - startOfDay tz d) with a by lia.
  replace (startOfDay tz d + b - startOfDay tz d) with b by lia.
  destruct (_ && _); [discriminate|reflexivity].
Qed.

(** X19: in zones of fixed offset (the server's own taken to be UTC),
    the check made when a rule or an override is entered agrees with the
    resolver on every day, up to the range of valid dates.  A pair of times that [assertValidTimeRange]
    accepts has two clock times [a < b], counted in milliseconds from
    midnight, and on every day of every zone it resolves to the interval
    from midnight plus [a] to midnight plus [b], or to none when one of
    these two ends is not a valid DateTime on that day.  A pair it
    refuses - with a bad request - resolves to none on every day, unless
    it was refused only because one of its ends is not a valid DateTime
    on the day of the check, 2020-01-01. *)
Theorem valid_range_resolves_every_day :
  forall (startTime endTime : string) (st : Store),
    (assertValidTimeRange startTime endTime st = (inr tt, st)
     /\ exists a b,
         a < b
         /\ forall tz d,
             intervalFromStrings (startOfDay tz d) tz startTime endTime
             = onDay tz (startOfDay tz d) a b)
    \/ (assertValidTimeRange startTime endTime st
        = (inl (BadRequestException "Rango de horario inválido"), st)
        /\ forall tz d i,
            intervalFromStrings (startOfDay tz d) tz startTime endTime
            = Some i ->
            onDay 0 fakeDay (i_start i - startOfDay tz d)
                            (i_end i - startOfDay tz d)
            = None).
Proof.
  intros startTime endTime st. unfold assertValidTimeRange.
  destruct (intervalFromStrings fakeDay 0 startTime endTime) as [i0|] eqn:E.
  - left. split; [reflexivity|].
    apply accepted_times_resolve. congruence.
  - right. split; [reflexivity|]. intros tz d i.
    now apply refused_times_resolve.
Qed.

Ltac rows_grow :=
  do 2 eexists;
  repeat match goal with
         | |- _ /\ _ => split
         | |- _ = _ => first [reflexivity | symmetry; apply app_nil_r]
         | |- Forall _ [] => constructor
         end.

(** Every rule and every exception an operation appends has passed the
    checks of the function that enters it. *)
Lemma exec_availability (op : Operation) (st : Store) :
  exists newRules newExceptions,
    availabilityRules (exec op st) = availabilityRules st ++ newRules
    /\ availabilityExceptions (exec op st)
       = availabilityExceptions st ++ newExceptions
    /\ Forall rule_valid newRules
    /\ Forall exception_valid newExceptions.
Proof.
  destruct op; simpl.
  - unfold createClient, freshId. unfold_m.
    destruct (existsb _ _); simpl; rows_grow.
  - unfold createBusinessUser, freshId. unfold_m.
    destruct (existsb _ _); simpl; rows_grow.
  - unfold createBusiness, freshId. unfold_m.
    destruct (find _ _) as [o|]; [|simpl; rows_grow].
    destruct (ub_role o); simpl; rows_grow.
  - unfold createService, assertBusinessAccess, freshId. unfold_m.
    destruct (find _ _) as [b|]; [|simpl; rows_grow].
    destruct (_ && _); simpl; rows_grow.
  - unfold addAvailabilityRule, assertBusinessAccess,
      assertValidTimeRange, freshId. unfold_m.
    destruct (find _ _) as [b|]; [|simpl; rows_grow].
    destruct (_ && _); [simpl; rows_grow|]. simpl.
    destruct ((ari_dayOfWeek input <? 0) || (ari_dayOfWeek input >? 6))
      eqn:Ed; [simpl; rows_grow|]. simpl.
    destruct (intervalFromStrings _ _ _ _) eqn:Ei; simpl; rows_grow.
    constructor; [|constructor]. unfold rule_valid. simpl.
    apply orb_false_iff in Ed. destruct Ed as [E1 E2].
    apply Z.ltb_ge in E1.
    assert (ari_dayOfWeek input <= 6)
      by (destruct (Z.gtb_spec (ari_dayOfWeek input) 6);
          [discriminate | lia]).
    rewrite Ei. split; [lia | discriminate].
  - unfold addAvailabilityException, assertBusinessAccess,
      assertValidTimeRange, freshId. unfold_m.
    destruct (find _ _) as [b|]; [|simpl; rows_grow].
    destruct (_ && _); [simpl; rows_grow|]. simpl.
    destruct (aei_date input); [|simpl; rows_grow].
    destruct (aei_isClosed input) as [[|]|]; simpl.
    + rows_grow. constructor; [|constructor].
      unfold exception_valid. simpl. discriminate.
    + destruct (aei_startTime input) as [s|]; [|simpl; rows_grow].
      destruct (aei_endTime input) as [e|]; [|simpl; rows_grow].
      destruct (Js.truthy s) eqn:Hs; [|simpl; rows_grow].
      destruct (Js.truthy e) eqn:He; [|simpl; rows_grow].
      simpl.
      destruct (intervalFromStrings _ _ _ _) eqn:Ei; simpl; rows_grow.
      constructor; [|constructor].
      unfold exception_valid. simpl. intros _. exists s, e.
      rewrite Ei. repeat split; auto. discriminate.
    + destruct (aei_startTime input) as [s|]; [|simpl; rows_grow].
      destruct (aei_endTime input) as [e|]; [|simpl; rows_grow].
      destruct (Js.truthy s) eqn:Hs; [|simpl; rows_grow].
      destruct (Js.truthy e) eqn:He; [|simpl; rows_grow].
      simpl.
      destruct (intervalFromStrings _ _ _ _); simpl; rows_grow.
      constructor; [|constructor].
      unfold exception_valid. simpl. discriminate.
  - destruct (createAppointment_writes st input customerId)
      as [-> | (b & svc & start & _ & _ & _ & ->)];
      simpl; rows_grow.
  - destruct (cancelAppointment_writes st id actor) as [-> | ->];
      simpl; rows_grow.
Qed.

Lemma reachable_availability_valid (st : Store) :
  reachable st ->
  Forall rule_valid (availabilityRules st)
  /\ Forall exception_valid (availabilityExceptions st).
Proof.
  induction 1 as [|st op _ [IHr IHe]]; [split; constructor|].
  destruct (exec_availability op st) as (nr & ne & -> & -> & Hr & He).
  split; apply Forall_app; auto.
Qed.

(** X20: in a store reached through the operations, every stored rule
    has a weekday from 0 to 6 and two clock times [a < b], counted in
    milliseconds from midnight, and in zones of fixed offset it resolves
    on every day to the interval from midnight plus [a] to midnight plus
    [b]: the resolver drops a stored rule only on a day on which one of
    these two ends is not a valid DateTime.  Every open interval the
    resolver yields has positive length. *)
Theorem reachable_rules_all_resolve :
  forall (st : Store),
    reachable st ->
    (forall r,
        In r (availabilityRules st) ->
        0 <= r_dayOfWeek r <= 6
        /\ exists a b,
            a < b
            /\ forall tz d,
                intervalFromStrings (startOfDay tz d) tz
                                    (r_startTime r) (r_endTime r)
                = onDay tz (startOfDay tz d) a b)
    /\ (forall b d i,
           In i (openIntervals st b (startOfDay (b_timezone b) d)) ->
           i_start i < i_end i).
Proof.
  intros st Hreach.
  destruct (reachable_availability_valid st Hreach) as [Hr He].
  split.
  - intros r Hin. rewrite Forall_forall in Hr.
    destruct (Hr r Hin) as [Hday Hok]. split; [exact Hday|].
    now apply accepted_times_resolve.
  - intros b d i. unfold openIntervals, resolveIntervals.
    assert (Hrule : In i (ruleIntervals (startOfDay (b_timezone b) d)
                            (b_timezone b)
                            (rulesOf st (b_id b)
                               (dayOfWeekOf (b_timezone b)
                                  (startOfDay (b_timezone b) d)))) ->
                    i_start i < i_end i).
    { intros Hin. apply ruleIntervals_In in Hin.
      destruct Hin as (r & _ & Hi).
      eapply intervalFromStrings_positive; eauto. }
    destruct (exceptionOf _ _ _) as [ex|]; auto.
    destruct (e_isClosed ex); [intros []|].
    destruct (e_startTime ex) as [s|]; auto.
    destruct (e_endTime ex) as [e|]; auto.
    destruct (_ && _); auto.
    destruct (intervalFromStrings _ _ s e) as [o|] eqn:Eo; [|intros []].
    intros [<- | []]. eapply intervalFromStrings_positive; eauto.
Qed.

(** X20 at the salon: the Monday rule resolves through its two clock
    times on Monday 2026-01-05 in Asia/Tokyo. *)
Lemma reachable_rules_all_resolve_witness :
  exists a b,
    a < b
    /\ intervalFromStrings (startOfDay 540 Examples.monday_1000) 540
                           "09:00" "18:00"
       = onDay 540 (startOfDay 540 Examples.monday_1000) a b.
Proof.
  destruct (reachable_rules_all_resolve
              Examples.salonBooked salonBooked_reachable) as [H _].
  destruct (H (mkRule "id3" "id1" 1 "09:00" "18:00"))
    as [_ (a & b & Hab & Hres)].
  - vm_compute. auto.
  - exists a, b. split; [exact Hab|].
    exact (Hres 540 Examples.monday_1000).
Defined.

(** X21: in a store reached through the operations, an override found
    for the queried day is never refused for its times at resolution: it
    has two clock times [a < b], counted in milliseconds from midnight,
    and in a zone of fixed offset the day opens for exactly the interval
    from midnight plus [a] to midnight plus [b], or not at all when one
    of these two ends is not a valid DateTime on that day. *)
Theorem reachable_override_always_resolves :
  forall (st : Store) (b : Business) (d : DateTime)
         (ex : AvailabilityException),
    reachable st ->
    exceptionOf st (b_id b) (startOfDay (b_timezone b) d) = Some ex ->
    e_isClosed ex = false ->
    exists a' b',
      a' < b'
      /\ openIntervals st b (startOfDay (b_timezone b) d)
         = match onDay (b_timezone b) (startOfDay (b_timezone b) d) a' b'
           with
           | Some override => [override]
           | None => []
           end.
Proof.
  intros st b d ex Hreach Hex Hopen.
  destruct (reachable_availability_valid st Hreach) as [_ He].
  rewrite Forall_forall in He.
  assert (Hin : In ex (availabilityExceptions st))
    by (unfold exceptionOf in Hex; now apply find_some in Hex).
  destruct (He ex Hin Hopen) as (s & e & Hs & Hend & Hts & Hte & Hv).
  destruct (accepted_times_resolve s e Hv) as (a' & b' & Hab & Hres).
  exists a', b'. split; [exact Hab|].
  unfold openIntervals, resolveIntervals.
  rewrite Hex, Hopen, Hs, Hend, Hts, Hte. simpl.
  now rewrite Hres.
Qed.

Lemma salonOverride_reachable : reachable Examples.salonOverride.
Proof.
  unfold Examples.salonOverride. constructor.
  apply reachable_execAll. constructor.
Qed.

(** X21 at the salon with the 10:00-12:00 override. *)
Lemma reachable_override_always_resolves_witness :
  exists a' b',
    a' < b'
    /\ openIntervals Examples.salonOverride
         (mkBusiness "id1" "id0" "Salon" 540)
         (startOfDay 540 Examples.monday_1000)
       = match onDay 540 (startOfDay 540 Examples.monday_1000) a' b' with
         | Some override => [override]
         | None => []
         end.
Proof.
  exact (reachable_override_always_resolves
           Examples.salonOverride (mkBusiness "id1" "id0" "Salon" 540)
           Examples.monday_1000
           (mkException "id6" "id1" Examples.monday_0000 false
                        (Some "10:00"%string) (Some "12:00"%string))
           salonOverride_reachable eq_refl eq_refl).
Defined.

(** ** Who may change a business *)

(** X22: services, rules and exceptions of a business can be entered
    only by its owner: for an unknown business the three operations are
    refused as not found, and for an actor (with a non-empty identifier)
    who is not the owner they are refused as forbidden before the input is
    looked at; in each case nothing is written. *)
Theorem only_owner_changes_business :
  forall (st : Store) (businessId actorId : string),
    (find (fun x => String.eqb (b_id x) businessId) (businesses st) = None ->
     (forall input,
         createService businessId input (Some actorId) st
         = (inl (NotFoundException "Negocio no encontrado"), st))
     /\ (forall input,
            addAvailabilityRule businessId input (Some actorId) st
            = (inl (NotFoundException "Negocio no encontrado"), st))
     /\ (forall input,
            addAvailabilityException businessId input (Some actorId) st
            = (inl (NotFoundException "Negocio no encontrado"), st)))
    /\ (forall b,
           find (fun x => String.eqb (b_id x) businessId) (businesses st)
           = Some b ->
           Js.truthy actorId = true ->
           b_ownerId b <> actorId ->
           (forall input,
               createService businessId input (Some actorId) st
               = (inl (ForbiddenException
                         "Solo el propietario puede modificar el negocio"),
                  st))
           /\ (forall input,
                  addAvailabilityRule businessId input (Some actorId) st
                  = (inl (ForbiddenException
                            "Solo el propietario puede modificar el negocio"),
                     st))
           /\ (forall input,
                  addAvailabilityException businessId input (Some actorId) st
                  = (inl (ForbiddenException
                            "Solo el propietario puede modificar el negocio"),
                     st))).
Proof.
  intros st businessId actorId. split.
  - intros Hb.
    repeat split; intros input;
      unfold createService, addAvailabilityRule, addAvailabilityException,
        assertBusinessAccess; unfold_m; now rewrite Hb.
  - intros b Hb Ht Hne. apply String.eqb_neq in Hne.
    repeat split; intros input;
      unfold createService, addAvailabilityRule, addAvailabilityException,
        assertBusinessAccess; unfold_m; rewrite Hb; simpl;
      now rewrite Ht, Hne.
Qed.

(** X22 at the salon: user "id9", who does not own it, cannot add a
    rule. *)
Lemma only_owner_changes_business_witness :
  addAvailabilityRule "id1" (mkRuleInput 2 "09:00" "18:00")
                      (Some "id9"%string) Examples.salon
  = (inl (ForbiddenException
            "Solo el propietario puede modificar el negocio"),
     Examples.salon).
Proof.
  destruct (only_owner_changes_business Examples.salon "id1"%string
              "id9"%string) as [_ H].
  destruct (H (mkBusiness "id1" "id0" "Salon" 540) eq_refl eq_refl)
    as (_ & H' & _).
  - discriminate.
  - apply H'.
Defined.

(** ** Listing appointments *)

Lemma insert_by_startAt_In (a x : Appointment) (sorted : list Appointment) :
  In x (insert_by_startAt a sorted) <-> x = a \/ In x sorted.
Proof.
  induction sorted as [|y rest IH]; simpl.
  - intuition.
  - destruct (_ <? _); simpl; rewrite ?IH; intuition.
Qed.

Lemma orderByStartAt_In (rows : list Appointment) (x : Appointment) :
  In x (orderByStartAt rows) <-> In x rows.
Proof.
  unfold orderByStartAt.
  assert (H : forall acc,
             In x (fold_left (fun acc a => insert_by_startAt a acc) rows acc)
             <-> In x rows \/ In x acc).
  { induction rows as [|r rest IH]; simpl; intros acc.
    - intuition.
    - rewrite IH, insert_by_startAt_In. intuition. }
  rewrite H. simpl. intuition.
Qed.

Lemma insert_by_startAt_sorted (a : Appointment)
      (sorted : list Appointment) :
  StronglySorted (fun x y => a_startAt x <= a_startAt y) sorted ->
  StronglySorted (fun x y => a_startAt x <= a_startAt y)
                 (insert_by_startAt a sorted).
Proof.
  induction 1 as [|y rest Hs IH Hall]; simpl.
  - repeat constructor.
  - destruct (a_startAt a <? a_startAt y) eqn:E.
    + apply Z.ltb_lt in E. constructor; [constructor; auto|].
      constructor; [lia|].
      rewrite Forall_forall in *. intros z Hz. specialize (Hall z Hz). lia.
    + apply Z.ltb_ge in E. constructor; auto.
      apply Forall_forall. intros z Hz.
      apply insert_by_startAt_In in Hz. destruct Hz as [-> | Hz]; auto.
      rewrite Forall_forall in Hall. auto.
Qed.

Lemma orderByStartAt_sorted (rows : list Appointment) :
  StronglySorted (fun x y => a_startAt x <= a_startAt y)
                 (orderByStartAt rows).
Proof.
  unfold orderByStartAt.
  assert (H : forall acc,
             StronglySorted (fun x y => a_startAt x <= a_startAt y) acc ->
             StronglySorted (fun x y => a_startAt x <= a_startAt y)
               (fold_left (fun acc a => insert_by_startAt a acc) rows acc)).
  { induction rows as [|r rest IH]; simpl; intros acc Hacc; auto.
    apply IH. now apply insert_by_startAt_sorted. }
  apply H. constructor.
Qed.

Lemma take_In {A : Type} (n : Z) (rows : list A) (x : A) :
  In x (take n rows) -> In x rows.
Proof.
  unfold take. destruct (0 <=? n).
  - intros H. rewrite <- (firstn_skipn (Z.to_nat n) rows).
    apply in_or_app. auto.
  - intros H.
    rewrite <- (firstn_skipn (List.length rows - Z.to_nat (- n)) rows).
    apply in_or_app. auto.
Qed.

Lemma StronglySorted_firstn {A : Type} (R : A -> A -> Prop) (n : nat) :
  forall l, StronglySorted R l -> StronglySorted R (firstn n l).
Proof.
  induction n as [|n IH]; intros l Hs; simpl; [constructor|].
  destruct l as [|x l]; [constructor|].
  inversion Hs as [|? ? Hl Hall]; subst. constructor; auto.
  apply Forall_forall. intros y Hy. rewrite Forall_forall in Hall.
  apply Hall. rewrite <- (firstn_skipn n l). apply in_or_app. auto.
Qed.

Lemma StronglySorted_skipn {A : Type} (R : A -> A -> Prop) (n : nat) :
  forall l, StronglySorted R l -> StronglySorted R (skipn n l).
Proof.
  induction n as [|n IH]; intros l Hs; simpl; auto.
  destruct l as [|x l]; [constructor|].
  inversion Hs; subst. auto.
Qed.

Lemma take_sorted {A : Type} (R : A -> A -> Prop) (n : Z) (l : list A) :
  StronglySorted R l -> StronglySorted R (take n l).
Proof.
  unfold take. destruct (0 <=? n);
    auto using StronglySorted_firstn, StronglySorted_skipn.
Qed.

Lemma take_length {A : Type} (n : Z) (l : list A) :
  (List.length (take n l) <= Z.abs_nat n)%nat.
Proof.
  unfold take. destruct (0 <=? n) eqn:E.
  - rewrite length_firstn. apply Z.leb_le in E.
    rewrite Zabs2Nat.abs_nat_nonneg by lia. lia.
  - rewrite length_skipn. apply Z.leb_gt in E.
    replace (Z.abs_nat n) with (Z.to_nat (- n)) by lia. lia.
Qed.

(** The rows [listAppointments] returns when it returns. *)
Lemma listAppointments_inv (params : ListAppointmentsInput)
      (st st' : Store) (rows : list AppointmentRow) :
  listAppointments params st = (inr rows, st') ->
  st' = st
  /\ rows
     = map (withRelations st)
           (take (match lai_limit params with
                  | Some n => n
                  | None => 50
                  end)
                 (orderByStartAt
                    (filter (listed params) (appointments st))))
  /\ (Js.truthy_opt (lai_ownerId params) = true ->
      exists businessId b,
        lai_businessId params = Some businessId
        /\ Js.truthy businessId = true
        /\ find (fun x => String.eqb (b_id x) businessId) (businesses st)
           = Some b
        /\ Some (b_ownerId b) = lai_ownerId params).
Proof.
  unfold listAppointments, assertBusinessAccess, assertBusinessExists.
  unfold_m.
  assert (Hplain :
    forall (r : HttpException + list AppointmentRow),
      r = inr (map (withRelations st)
                 (take (match lai_limit params with
                        | Some n => n
                        | None => 50
                        end)
                       (orderByStartAt
                          (filter (listed params) (appointments st))))) ->
      (r, st) = (inr rows, st') ->
      st' = st
      /\ rows
         = map (withRelations st)
             (take (match lai_limit params with
                    | Some n => n
                    | None => 50
                    end)
                   (orderByStartAt
                      (filter (listed params) (appointments st))))).
  { intros r -> H. injection H as <- <-. auto. }
  destruct (lai_ownerId params) as [o|] eqn:Eo; simpl;
    [destruct (Js.truthy o) eqn:Eto; simpl|].
  - destruct (lai_businessId params) as [bid|] eqn:Eb; simpl;
      [|discriminate].
    destruct (Js.truthy bid) eqn:Et; simpl; [|discriminate].
    destruct (find _ (businesses st)) as [b|] eqn:Ef; simpl;
      [|discriminate].

    destruct (String.eqb (b_ownerId b) o) eqn:Ee; simpl; [|discriminate].
    intros H. destruct (Hplain _ eq_refl H) as [-> ->].
    repeat split; auto.
    intros _. exists bid, b. repeat split; auto.
    apply String.eqb_eq in Ee. now subst.
  - destruct (lai_businessId params) as [bid|] eqn:Eb; simpl.
    + destruct (Js.truthy bid) eqn:Et; simpl.
      * destruct (find _ (businesses st)); simpl; [|discriminate].
        intros H. destruct (Hplain _ eq_refl H) as [-> ->].
        repeat split; auto. discriminate.
      * intros H. destruct (Hplain _ eq_refl H) as [-> ->].
        repeat split; auto. discriminate.
    + intros H. destruct (Hplain _ eq_refl H) as [-> ->].
      repeat split; auto. discriminate.
  - destruct (lai_businessId params) as [bid|] eqn:Eb; simpl.
    + destruct (Js.truthy bid) eqn:Et; simpl.
      * destruct (find _ (businesses st)); simpl; [|discriminate].
        intros H. destruct (Hplain _ eq_refl H) as [-> ->].
        repeat split; auto. discriminate.
      * intros H. destruct (Hplain _ eq_refl H) as [-> ->].
        repeat split; auto. discriminate.
    + intros H. destruct (Hplain _ eq_refl H) as [-> ->].
      repeat split; auto. discriminate.
Qed.

Lemma StronglySorted_map {A B : Type} (R : B -> B -> Prop) (f : A -> B)
      (l : list A) :
  StronglySorted (fun x y => R (f x) (f y)) l ->
  StronglySorted R (map f l).
Proof.
  induction 1 as [|x l Hs IH Hall]; simpl; constructor; auto.
  apply Forall_forall. intros y Hy. apply in_map_iff in Hy.
  destruct Hy as (z & <- & Hz). rewrite Forall_forall in Hall. auto.
Qed.

Lemma listed_true (params : ListAppointmentsInput) (a : Appointment) :
  listed params a = true ->
  a_status a <> CANCELLED
  /\ (forall c, lai_customerId params = Some c -> Js.truthy c = true ->
                a_customerId a = c)
  /\ (forall b, lai_businessId params = Some b -> Js.truthy b = true ->
                a_businessId a = b).
Proof.
  unfold listed. rewrite !andb_true_iff, negb_true_iff.
  intros [[Hs Hc] Hb]. repeat split.
  - intros E. rewrite E in Hs. discriminate.
  - intros c Ec Et. rewrite Ec in Hc. simpl in Hc. rewrite Et in Hc.
    now apply String.eqb_eq.
  - intros b Eb Et. rewrite Eb in Hb. simpl in Hb. rewrite Et in Hb.
    now apply String.eqb_eq.
Qed.

Lemma listAppointments_result :
  forall (params : ListAppointmentsInput) (st st' : Store)
         (rows : list AppointmentRow),
    listAppointments params st = (inr rows, st') ->
    st' = st
    /\ StronglySorted
         (fun r1 r2 => a_startAt (row_appointment r1)
                       <= a_startAt (row_appointment r2)) rows
    /\ (List.length rows
        <= Z.abs_nat (match lai_limit params with
                      | Some n => n
                      | None => 50
                      end))%nat
    /\ forall row,
        In row rows ->
        In (row_appointment row) (appointments st)
        /\ a_status (row_appointment row) <> CANCELLED
        /\ (forall c, lai_customerId params = Some c ->
                      Js.truthy c = true ->
                      a_customerId (row_appointment row) = c)
        /\ (forall b, lai_businessId params = Some b ->
                      Js.truthy b = true ->
                      a_businessId (row_appointment row) = b).
Proof.
  intros params st st' rows Hrun.
  destruct (listAppointments_inv params st st' rows Hrun) as (-> & -> & _).
  split; [reflexivity|]. split; [|split].
  - apply StronglySorted_map. simpl.
    apply take_sorted, orderByStartAt_sorted.
  - rewrite length_map. apply take_length.
  - intros row Hin. apply in_map_iff in Hin.
    destruct Hin as (a & <- & Ha). simpl.
    apply take_In, orderByStartAt_In, filter_In in Ha.
    destruct Ha as [Ha Hl]. split; auto. now apply listed_true.
Qed.

(** X23: when [listAppointments] returns, it has written nothing, and its
    rows are stored appointments, none of them CANCELLED, all of the
    customer and of the business asked for (when given, non-empty), in
    ascending order of start, and no more than the limit (50 when none is
    given). *)
Theorem listAppointments_rows :
  forall (params : ListAppointmentsInput) (st st' : Store)
         (rows : list AppointmentRow),
    listAppointments params st = (inr rows, st') ->
    st' = st
    /\ StronglySorted
         (fun r1 r2 => a_startAt (row_appointment r1)
                       <= a_startAt (row_appointment r2)) rows
    /\ (List.length rows
        <= Z.abs_nat (match lai_limit params with
                      | Some n => n
                      | None => 50
                      end))%nat
    /\ forall row,
        In row rows ->
        In (row_appointment row) (appointments st)
        /\ a_status (row_appointment row) <> CANCELLED
        /\ (forall c, lai_customerId params = Some c ->
                      Js.truthy c = true ->
                      a_customerId (row_appointment row) = c)
        /\ (forall b, lai_businessId params = Some b ->
                      Js.truthy b = true ->
                      a_businessId (row_appointment row) = b).
Proof.
  exact listAppointments_result.
Qed.

(** X23 at the salon: Ana's list holds her booking. *)
Lemma listAppointments_rows_witness :
  In (mkAppointment "id6" "id1" "id2" "id4" None Examples.monday_1000
                    1767578400000 None BOOKED)
     (appointments Examples.salonBooked).
Proof.
  destruct (listAppointments_rows
              (mkListAppointmentsInput None (Some "id4"%string) None None)
              Examples.salonBooked Examples.salonBooked
              [mkAppointmentRow
                 (mkAppointment "id6" "id1" "id2" "id4" None
                    Examples.monday_1000 1767578400000 None BOOKED)
                 (Some (mkService "id2" "id1" 60 5000 true))
                 (Some (mkUserClient "id4" "ana@example.test" None))
                 (Some (mkBusiness "id1" "id0" "Salon" 540))]
              eq_refl) as (_ & _ & _ & H).
  apply (H _ (or_introl eq_refl)).
Defined.

(** ** Appointments controller *)

(** X24: through the controller an appointment is only ever booked by a
    client and for that client: a business user is refused as forbidden
    whatever the body, a refused request writes nothing, and an
    appointment that is returned is BOOKED in the name of the
    authenticated user. *)
Theorem controller_books_for_authenticated_client :
  forall (user : Actor) (body : option CreateAppointmentInput)
         (st : Store),
    (actor_kind user = business_ ->
     AppointmentsController_create user body st
     = (inl (HttpError (ForbiddenException "Solo clientes pueden agendar")),
        st))
    /\ (forall e st',
           AppointmentsController_create user body st = (inl e, st') ->
           st' = st)
    /\ (forall a st',
           AppointmentsController_create user body st = (inr a, st') ->
           actor_kind user = client
           /\ a_customerId a = actor_id user
           /\ a_status a = BOOKED
           /\ appointments st' = appointments st ++ [a]).
Proof.
  intros user body st. unfold AppointmentsController_create, call.
  destruct (actor_kind user); simpl.
  - split; [discriminate|].
    destruct body as [input|].
    + destruct (createAppointment input (actor_id user) st) as [r st1]
        eqn:Hrun.
      destruct (createAppointment_inv _ _ _ _ _ Hrun)
        as [(e & -> & ->) | (b & svc & start & _ & _ & _ & -> & ->)].
      * split; [intros e0 st' H; now injection H as <- <-|].
        intros a st' H. discriminate.
      * split; [intros e0 st' H; discriminate|].
        intros a st' H. injection H as <- <-. simpl. auto.
    + split; [intros e st' H; now injection H as <- <-|].
      intros a st' H. discriminate.
  - split; [reflexivity|]. split.
    + intros e st' H. now injection H as <- <-.
    + intros a st' H. discriminate.
Qed.

(** X24 at the salon: the owner cannot book. *)
Lemma controller_books_for_authenticated_client_witness :
  AppointmentsController_create
    (mkActor "id0" business_) (Some (Examples.book Examples.monday_1000))
    Examples.salon
  = (inl (HttpError (ForbiddenException "Solo clientes pueden agendar")),
     Examples.salon).
Proof.
  exact (proj1 (controller_books_for_authenticated_client
                  (mkActor "id0" business_)
                  (Some (Examples.book Examples.monday_1000))
                  Examples.salon) eq_refl).
Defined.

(** X25: what the listing endpoint shows.  Whatever the query, a client
    sees only appointments booked in their own name, and a business user
    sees only appointments of one business, which they own; nobody is
    shown a cancelled appointment, and nothing is written.  (The user's
    identifier is non-empty, as the guard's tokens have it.) *)
Theorem controller_lists_own_appointments :
  forall (user : Actor) (query : option ListQuery) (st st' : Store)
         (rows : list AppointmentRow) (row : AppointmentRow),
    Js.truthy (actor_id user) = true ->
    AppointmentsController_list user query st = (inr rows, st') ->
    In row rows ->
    st' = st
    /\ In (row_appointment row) (appointments st)
    /\ a_status (row_appointment row) <> CANCELLED
    /\ (actor_kind user = client ->
        a_customerId (row_appointment row) = actor_id user)
    /\ (actor_kind user = business_ ->
        exists b,
          find (fun x => String.eqb (b_id x)
                           (a_businessId (row_appointment row)))
               (businesses st) = Some b
          /\ b_ownerId b = actor_id user).
Proof.
  intros user query st st' rows row Hid Hrun Hin.
  unfold AppointmentsController_list, call in Hrun.
  destruct query as [params|]; [|discriminate].
  destruct (actor_kind user) eqn:Ek.
  - destruct (listAppointments _ st) as [[e|rows0] st0] eqn:Hl;
      [discriminate|].
    injection Hrun as <- <-.
    destruct (listAppointments_result _ _ _ _ Hl) as (-> & _ & _ & H).
    destruct (H row Hin) as (H1 & H2 & H3 & _).
    split; [reflexivity|]. split; [exact H1|]. split; [exact H2|].
    split; [|discriminate].
    intros _. apply (H3 (actor_id user)); auto.
  - destruct (negb (Js.truthy_opt (lq_businessId params))); [discriminate|].
    destruct (listAppointments _ st) as [[e|rows0] st0] eqn:Hl;
      [discriminate|].
    injection Hrun as <- <-.
    destruct (listAppointments_result _ _ _ _ Hl) as (-> & _ & _ & H).
    destruct (H row Hin) as (H1 & H2 & _ & H4).
    destruct (listAppointments_inv _ _ _ _ Hl) as (_ & _ & Ho).
    simpl in Ho. destruct (Ho Hid) as (bid & b & Hb & Ht & Hf & Hown).
    split; [reflexivity|]. split; [exact H1|]. split; [exact H2|].
    split; [discriminate|].
    intros _. exists b. simpl in H4. rewrite (H4 bid Hb Ht).
    split; auto. congruence.
Qed.

(** X25 at the salon: Ana's listing shows her own booking. *)
Lemma controller_lists_own_appointments_witness :
  a_customerId (mkAppointment "id6" "id1" "id2" "id4" None
                  Examples.monday_1000 1767578400000 None BOOKED)
  = "id4"%string.
Proof.
  destruct (controller_lists_own_appointments
              (mkActor "id4" client) (Some (mkListQuery None None None))
              Examples.salonBooked Examples.salonBooked
              [mkAppointmentRow
                 (mkAppointment "id6" "id1" "id2" "id4" None
                    Examples.monday_1000 1767578400000 None BOOKED)
                 (Some (mkService "id2" "id1" 60 5000 true))
                 (Some (mkUserClient "id4" "ana@example.test" None))
                 (Some (mkBusiness "id1" "id0" "Salon" 540))]
              _ eq_refl eq_refl (or_introl eq_refl))
    as (_ & _ & _ & H & _).
  exact (H eq_refl).
Defined.

(** ** Activities *)

Lemma insert_activity_In (a x : Activity) (sorted : list Activity) :
  In x (insert_activity a sorted) <-> x = a \/ In x sorted.
Proof.
  induction sorted as [|y rest IH]; simpl.
  - intuition.
  - destruct (_ <? _); simpl; rewrite ?IH; intuition.
Qed.

Lemma insert_activity_sorted (a : Activity) (sorted : list Activity) :
  StronglySorted (fun x y => act_startAt x <= act_startAt y) sorted ->
  StronglySorted (fun x y => act_startAt x <= act_startAt y)
                 (insert_activity a sorted).
Proof.
  induction 1 as [|y rest Hs IH Hall]; simpl.
  - repeat constructor.
  - destruct (act_startAt a <? act_startAt y) eqn:E.
    + apply Z.ltb_lt in E. constructor; [constructor; auto|].
      constructor; [lia|].
      rewrite Forall_forall in *. intros z Hz. specialize (Hall z Hz). lia.
    + apply Z.ltb_ge in E. constructor; auto.
      apply Forall_forall. intros z Hz.
      apply insert_activity_In in Hz. destruct Hz as [-> | Hz]; auto.
      rewrite Forall_forall in Hall. auto.
Qed.

Lemma insert_activity_length (a : Activity) (sorted : list Activity) :
  List.length (insert_activity a sorted) = S (List.length sorted).
Proof.
  induction sorted as [|y rest IH]; simpl; auto.
  destruct (_ <? _); simpl; auto.
Qed.

Lemma filter_other_user (userId u : string) (a a' : Activity)
      (before after : list Activity) :
  act_userId a = userId -> act_userId a' = userId -> u <> userId ->
  filter (fun x => String.eqb (act_userId x) u) (before ++ a :: after)
  = filter (fun x => String.eqb (act_userId x) u) (before ++ a' :: after).
Proof.
  intros Ha Ha' Hu. rewrite !filter_app. simpl. rewrite Ha, Ha'.
  destruct (String.eqb_spec userId u) as [E|_]; [congruence|reflexivity].
Qed.

Lemma update_activity_split (id : string) (input : UpdateActivityInput) :
  forall (rows : list Activity) (a : Activity),
    find (fun x => String.eqb (act_id x) id) rows = Some a ->
    exists before after,
      rows = before ++ a :: after
      /\ update_activity id input rows
         = before ++ apply_update input a :: after
      /\ forall x, In x before -> act_id x <> id.
Proof.
  induction rows as [|r rest IH]; simpl; intros a Hf; [discriminate|].
  destruct (String.eqb_spec (act_id r) id) as [E|E].
  - injection Hf as <-. exists [], rest. simpl. repeat split; auto.
  - destruct (IH a Hf) as (before & after & -> & -> & Hb).
    exists (r :: before), after. simpl. repeat split; auto.
    intros x [<- | Hx]; auto.
Qed.

Lemma listActivities_own_sorted_aux :
  forall (userId : string) (tbl : ActivityTable),
    StronglySorted (fun x y => act_startAt x <= act_startAt y)
                   (listActivities userId tbl)
    /\ (forall a, In a (listActivities userId tbl)
                  <-> In a (activities tbl) /\ act_userId a = userId)
    /\ List.length (listActivities userId tbl)
       = List.length (filter (fun a => String.eqb (act_userId a) userId)
                             (activities tbl)).
Proof.
  intros userId tbl. unfold listActivities.
  set (rows := filter _ (activities tbl)).
  assert (H : forall acc,
             StronglySorted (fun x y => act_startAt x <= act_startAt y) acc ->
             StronglySorted (fun x y => act_startAt x <= act_startAt y)
               (fold_left (fun acc a => insert_activity a acc) rows acc)
             /\ (forall x,
                    In x (fold_left (fun acc a => insert_activity a acc)
                                    rows acc)
                    <-> In x rows \/ In x acc)
             /\ List.length (fold_left (fun acc a => insert_activity a acc)
                                       rows acc)
                = (List.length rows + List.length acc)%nat).
  { clearbody rows. induction rows as [|r rest IH]; simpl; intros acc Hacc.
    - intuition.
    - destruct (IH (insert_activity r acc)
                   (insert_activity_sorted r acc Hacc)) as (H1 & H2 & H3).
      split; [exact H1|]. split.
      + intros x. rewrite H2, insert_activity_In. intuition.
      + rewrite H3, insert_activity_length. lia. }
  destruct (H [] (SSorted_nil _)) as (H1 & H2 & H3).
  split; [exact H1|]. split.
  - intros a. rewrite H2. unfold rows. rewrite filter_In, String.eqb_eq.
    simpl. intuition.
  - rewrite H3. simpl. lia.
Qed.

(** X26: the activities of a user as [listActivities] gives them: exactly
    the stored activities of that user, as many as are stored, in
    ascending order of start. *)
Theorem listActivities_own_sorted :
  forall (userId : string) (tbl : ActivityTable),
    StronglySorted (fun x y => act_startAt x <= act_startAt y)
                   (listActivities userId tbl)
    /\ (forall a, In a (listActivities userId tbl)
                  <-> In a (activities tbl) /\ act_userId a = userId)
    /\ List.length (listActivities userId tbl)
       = List.length (filter (fun a => String.eqb (act_userId a) userId)
                             (activities tbl)).
Proof.
  exact listActivities_own_sorted_aux.
Qed.

(** X26 in the diary: Ana's list shows her review. *)
Lemma listActivities_own_sorted_witness :
  In (mkActivity "id0" "id4" "Review" None "admin" "medium"
                 Examples.monday_1000)
     (listActivities "id4" ActivityExamples.diary).
Proof.
  apply (proj1 (proj2 (listActivities_own_sorted
                         "id4" ActivityExamples.diary))).
  split; [vm_compute; auto|reflexivity].
Defined.

Lemma existsb_find_none {A : Type} (f : A -> bool) (l : list A) :
  existsb f l = false <-> find f l = None.
Proof.
  induction l as [|x l IH]; simpl; [tauto|].
  destruct (f x); simpl; [split; discriminate | exact IH].
Qed.

(** X27: [createActivity] refuses an unparseable start as a bad request;
    for a user who is not a stored client the insert breaks the foreign
    key of the activity table and fails with an error that is no HTTP
    exception; in both cases nothing is written.  Otherwise it stores
    one activity of the calling user whose importance is never empty
    ("medium" when none is given); the user's list then shows it, and
    the lists of all other users are as before. *)
Theorem createActivity_then_listed :
  forall (clients : list UserClient) (userId : string)
         (input : CreateActivityInput) (tbl : ActivityTable),
    (cact_startAt input = None
     /\ createActivity clients userId input tbl
        = (inl (ActivityHttp
                  (BadRequestException "Fecha de actividad inválida")),
           tbl))
    \/ (cact_startAt input <> None
        /\ find (fun u => String.eqb (uc_id u) userId) clients = None
        /\ createActivity clients userId input tbl
           = (inl ForeignKeyViolation, tbl))
    \/ (exists a,
           find (fun u => String.eqb (uc_id u) userId) clients <> None
           /\ createActivity clients userId input tbl
              = (inr a, mkActivityTable (activities tbl ++ [a])
                                        (N.succ (nextActivityId tbl)))
           /\ act_userId a = userId
           /\ Some (act_startAt a) = cact_startAt input
           /\ act_importance a <> ""%string
           /\ (cact_importance input = None ->
               act_importance a = "medium"%string)
           /\ In a (listActivities userId
                      (mkActivityTable (activities tbl ++ [a])
                                       (N.succ (nextActivityId tbl))))
           /\ forall u,
               u <> userId ->
               listActivities u
                 (mkActivityTable (activities tbl ++ [a])
                                  (N.succ (nextActivityId tbl)))
               = listActivities u tbl).
Proof.
  intros clients userId input tbl. unfold createActivity.
  destruct (cact_startAt input) as [start|]; [right|left; auto].
  destruct (existsb _ clients) eqn:Ec; simpl.
  - right. eexists. split.
    { intros Hn. apply existsb_find_none in Hn. congruence. }
    split; [reflexivity|].
    cbn [act_userId act_startAt act_importance].
    split; [reflexivity|]. split; [reflexivity|].
    split; [|split; [|split]].
    + destruct (cact_importance input) as [[|c s]|]; simpl; discriminate.
    + intros ->. reflexivity.
    + apply (proj1 (proj2 (listActivities_own_sorted_aux userId _))).
      simpl. split; [apply in_or_app; right; left; reflexivity|reflexivity].
    + intros u Hu. unfold listActivities. simpl. rewrite filter_app. simpl.
      destruct (String.eqb_spec userId u) as [E|_]; [congruence|].
      now rewrite app_nil_r.
  - left. split; [discriminate|]. split; [|reflexivity].
    now apply existsb_find_none.
Qed.

(** X27 on the empty table: Ana's review is stored, and its empty
    importance becomes "medium", never the empty string. *)
Lemma createActivity_then_listed_witness :
  exists a,
    fst (createActivity (userClients Examples.salon) "id4"
           ActivityExamples.review (mkActivityTable [] 0))
    = inr a
    /\ act_importance a <> ""%string.
Proof.
  destruct (createActivity_then_listed
              (userClients Examples.salon) "id4" ActivityExamples.review
              (mkActivityTable [] 0))
    as [[H _] | [(_ & H & _) | (a & _ & H1 & _ & _ & H2 & _)]].
  - discriminate H.
  - vm_compute in H. discriminate H.
  - exists a. rewrite H1. auto.
Defined.

(** X28: [updateActivity] answers an activity of another user exactly as
    one that does not exist, with the same not-found error, and every
    refusal leaves the table as it was. *)
Theorem updateActivity_refuses_without_writing :
  forall (userId activityId : string) (input : UpdateActivityInput)
         (tbl : ActivityTable),
    (forall a,
        find (fun x => String.eqb (act_id x) activityId) (activities tbl)
        = Some a ->
        act_userId a <> userId ->
        updateActivity userId activityId input tbl
        = (inl (NotFoundException "Actividad no encontrada"), tbl))
    /\ (find (fun x => String.eqb (act_id x) activityId) (activities tbl)
        = None ->
        updateActivity userId activityId input tbl
        = (inl (NotFoundException "Actividad no encontrada"), tbl))
    /\ (forall e tbl',
           updateActivity userId activityId input tbl = (inl e, tbl') ->
           tbl' = tbl).
Proof.
  intros userId activityId input tbl. unfold updateActivity.
  destruct (find _ (activities tbl)) as [a|].
  - split; [|split].
    + intros a0 [= <-] Hne.
      destruct (String.eqb_spec (act_userId a) userId); [contradiction|].
      reflexivity.
    + discriminate.
    + intros e tbl'. destruct (negb _); [now intros [= _ <-]|].
      destruct (uact_startAt input); [discriminate|now intros [= _ <-]|
                                       discriminate].
  - split; [discriminate|]. split; [reflexivity|]. now intros e tbl' [= _ <-].
Qed.

(** X28 in the diary: Ben cannot retitle Ana's review. *)
Lemma updateActivity_refuses_without_writing_witness :
  updateActivity "id5" "id0" ActivityExamples.retitle ActivityExamples.diary
  = (inl (NotFoundException "Actividad no encontrada"),
     ActivityExamples.diary).
Proof.
  apply (proj1 (updateActivity_refuses_without_writing
                  "id5" "id0" ActivityExamples.retitle
                  ActivityExamples.diary)
               (mkActivity "id0" "id4" "Review" None "admin" "medium"
                           Examples.monday_1000)).
  - reflexivity.
  - discriminate.
Defined.

(** X29: a successful [updateActivity] replaces one row, the first with
    that identifier, which belongs to the caller; the new row keeps its
    identifier and its owner, every other row and the identifier counter
    are untouched, and so is the list of every other user. *)
Theorem updateActivity_replaces_own_row :
  forall (userId activityId : string) (input : UpdateActivityInput)
         (tbl tbl' : ActivityTable) (a' : Activity),
    updateActivity userId activityId input tbl = (inr a', tbl') ->
    exists a before after,
      activities tbl = before ++ a :: after
      /\ activities tbl' = before ++ a' :: after
      /\ (forall x, In x before -> act_id x <> activityId)
      /\ act_id a = activityId /\ act_userId a = userId
      /\ act_id a' = activityId /\ act_userId a' = userId
      /\ nextActivityId tbl' = nextActivityId tbl
      /\ forall u, u <> userId -> listActivities u tbl' = listActivities u tbl.
Proof.
  intros userId activityId input tbl tbl' a' Hrun.
  unfold updateActivity in Hrun.
  destruct (find _ (activities tbl)) as [a|] eqn:Hf; [|discriminate].
  destruct (String.eqb_spec (act_userId a) userId) as [Eu|Eu];
    simpl in Hrun; [|discriminate].
  assert (Hok : a' = apply_update input a
                /\ tbl' = mkActivityTable
                            (update_activity activityId input (activities tbl))
                            (nextActivityId tbl)).
  { destruct (uact_startAt input); [|discriminate|];
      injection Hrun as <- <-; auto. }
  destruct Hok as [-> ->]. clear Hrun.
  destruct (update_activity_split activityId input _ _ Hf)
    as (before & after & Hrows & Hupd & Hb).
  apply find_some in Hf. destruct Hf as [_ Hid]. apply String.eqb_eq in Hid.
  exists a, before, after. simpl.
  repeat (split; [solve [auto]|]).
  intros u Hu. unfold listActivities. simpl. rewrite Hupd, Hrows.
  f_equal. symmetry. apply (filter_other_user userId); auto.
Qed.

(** X29 in the diary: Ana retitles her review. *)
Lemma updateActivity_replaces_own_row_witness :
  exists a before after,
    activities ActivityExamples.diary = before ++ a :: after
    /\ act_id a = "id0"%string /\ act_userId a = "id4"%string.
Proof.
  destruct (updateActivity_replaces_own_row
              "id4" "id0" ActivityExamples.retitle ActivityExamples.diary
              _ _ eq_refl)
    as (a & before & after & H1 & _ & _ & H2 & H3 & _).
  exists a, before, after. auto.
Defined.

(** ** Accounts *)

Lemma existsb_false_Forall {A : Type} (f : A -> bool) (l : list A) :
  existsb f l = false -> Forall (fun x => f x = false) l.
Proof.
  induction l as [|x l IH]; simpl; intros H; constructor;
    apply orb_false_iff in H; tauto.
Qed.

Lemma ForallOrdPairs_snoc {A : Type} (R : A -> A -> Prop) (l : list A)
      (x : A) :
  ForallOrdPairs R l -> Forall (fun u => R u x) l ->
  ForallOrdPairs R (l ++ [x]).
Proof.
  induction 1 as [|a l Ha Hl IH]; simpl; intros Hx.
  - repeat constructor.
  - inversion Hx as [|? ? Hax Hlx]; subst. constructor; auto.
    apply Forall_app. auto.
Qed.

Ltac accounts_kept := split; left; reflexivity.

(** An operation leaves each account table as it was or appends one row,
    which clashes with no row already stored. *)
Lemma exec_accounts (op : Operation) (st : Store) :
  (userClients (exec op st) = userClients st
   \/ exists u,
       userClients (exec op st) = userClients st ++ [u]
       /\ Forall (fun v => clients_differ v u) (userClients st))
  /\ (userBusinesses (exec op st) = userBusinesses st
      \/ exists u,
          userBusinesses (exec op st) = userBusinesses st ++ [u]
          /\ Forall (fun v => users_differ v u) (userBusinesses st)).
Proof.
  destruct op; simpl.
  - unfold createClient, freshId. unfold_m.
    destruct (existsb _ _) eqn:E; simpl; [accounts_kept|].
    split; [right|left; reflexivity].
    eexists. split; [reflexivity|].
    apply existsb_false_Forall in E. revert E. apply Forall_impl.
    intros v Hv. apply orb_false_iff in Hv. destruct Hv as [He Hp].
    split; simpl; auto. now apply String.eqb_neq.
  - unfold createBusinessUser, freshId. unfold_m.
    destruct (existsb _ _) eqn:E; simpl; [accounts_kept|].
    split; [left; reflexivity|right].
    eexists. split; [reflexivity|].
    apply existsb_false_Forall in E. revert E. apply Forall_impl.
    intros v Hv. apply orb_false_iff in Hv. destruct Hv as [He Hp].
    split; simpl; auto. now apply String.eqb_neq.
  - unfold createBusiness, freshId. unfold_m.
    destruct (find _ _) as [o|]; [|accounts_kept].
    destruct (ub_role o); accounts_kept.
  - unfold createService, assertBusinessAccess, freshId. unfold_m.
    destruct (find _ _) as [b|]; [|accounts_kept].
    destruct (_ && _); accounts_kept.
  - unfold addAvailabilityRule, assertBusinessAccess,
      assertValidTimeRange, freshId. unfold_m.
    destruct (find _ _) as [b|]; [|accounts_kept].
    destruct (_ && _); [accounts_kept|]. simpl.
    destruct (_ || _); [accounts_kept|]. simpl.
    destruct (intervalFromStrings _ _ _ _); accounts_kept.
  - unfold addAvailabilityException, assertBusinessAccess,
      assertValidTimeRange, freshId. unfold_m.
    destruct (find _ _) as [b|]; [|accounts_kept].
    destruct (_ && _); [accounts_kept|]. simpl.
    destruct (aei_date input); [|accounts_kept].
    destruct (not_closed _); [|accounts_kept].
    destruct (aei_startTime input) as [s|]; [|accounts_kept].
    destruct (aei_endTime input) as [e|]; [|accounts_kept].
    destruct (_ && _); [|accounts_kept].
    destruct (intervalFromStrings _ _ _ _); accounts_kept.
  - destruct (createAppointment_writes st input customerId)
      as [-> | (b & svc & start & _ & _ & _ & ->)]; accounts_kept.
  - destruct (cancelAppointment_writes st id actor) as [-> | ->];
      accounts_kept.
Qed.

(** X30: in every store reached through the registrations and the
    booking operations, no two clients share an email or a phone number,
    and no two business users do: a registration that would clash is
    refused.  (Profile updates are outside the model.) *)
Theorem reachable_accounts_distinct :
  forall st : Store,
    reachable st ->
    ForallOrdPairs clients_differ (userClients st)
    /\ ForallOrdPairs users_differ (userBusinesses st).
Proof.
  induction 1 as [|st op Hr [IHc IHu]].
  - split; constructor.
  - destruct (exec_accounts op st) as [Hc Hu]. split.
    + destruct Hc as [-> | (u & -> & Hall)]; auto.
      now apply ForallOrdPairs_snoc.
    + destruct Hu as [-> | (u & -> & Hall)]; auto.
      now apply ForallOrdPairs_snoc.
Qed.

(** X30 at the salon. *)
Lemma reachable_accounts_distinct_witness :
  ForallOrdPairs clients_differ (userClients Examples.salonBooked).
Proof.
  exact (proj1 (reachable_accounts_distinct Examples.salonBooked
                  salonBooked_reachable)).
Defined.
